(** * CoDiPack tape core: Jacobian tape, block data stream, Jacobian assembly

    A shallow embedding of
    - [include/codi/tapes/jacobianBaseTape.hpp] ([JacobianBaseTape]),
    - the [BlockData] data stream and the [DataInterface] it implements,
    - the [IndexManagerInterface],
    - [Algorithms::getEvaluationChoice] / [Algorithms::computeJacobian],
    together with the properties of the recording and replay engine that the
    specification states about them. *)

From Stdlib Require Import ZArith Lia Bool.
From stdpp Require Import base option list gmap strings.

Local Open Scope Z_scope.

(** ** Machine integers *)

(** [size_t] is an unsigned 64 bit integer: values are kept in [Z] and every
    arithmetic operation of the source is followed by its wrap-around. *)
Definition size_t_modulus : Z := 2 ^ 64.
Definition wrap_size_t (z : Z) : Z := z mod size_t_modulus.

(** [Identifier] is [IndexManager::Index], an [int]: the cast
    [(Identifier)adjoints.size()] keeps the low 32 bits, read as two's
    complement. *)
Definition Identifier := Z.
Definition cast_Identifier (z : Z) : Identifier :=
  (z + 2 ^ 31) mod 2 ^ 32 - 2 ^ 31.

(** [IndexManagerInterface::UnusedIndex] and [InvalidIndex]. *)
Definition UnusedIndex : Identifier := 0.
Definition InvalidIndex : Identifier := -1.

(** ** Failure of a call *)

(** A call either returns or is aborted: by an exception with its message,
    by a violated assertion, or by an access outside an array, which has no
    defined result and is recorded as [InvalidAccess]. *)
Inductive CodiError : Type :=
  | AssertionViolated
  | CodiException (msg : string)
  | InvalidAccess.

Inductive Result (A : Type) : Type :=
  | Ok (a : A)
  | Fail (e : CodiError).
Arguments Ok {A} a.
Arguments Fail {A} e.

#[export] Instance Result_ret : MRet Result := fun _ a => Ok a.
#[export] Instance Result_bind : MBind Result := fun _ _ k r =>
  match r with
  | Ok a => k a
  | Fail e => Fail e
  end.

(** Modelled from the spec: the macro [codiAssert] is not among the sources;
    a contract violation is signalled immediately and is fatal for the
    call. *)
Definition codiAssert (b : bool) : Result unit :=
  if b then Ok tt else Fail AssertionViolated.

(** Modelled from the spec: the macro [CODI_EXCEPTION] is not among the
    sources; the condition it raises is fatal for the call that raises it,
    and for that call only. *)
Definition CODI_EXCEPTION {A : Type} (msg : string) : Result A :=
  Fail (CodiException msg).

(** Modelled from the spec: the macro [CODI_ENABLE_CHECK(option, condition)]
    is not among the sources; a check under a policy flag is made when the
    flag is switched on, and passes otherwise. *)
Definition CODI_ENABLE_CHECK (option condition : bool) : bool :=
  negb option || condition.

(** Element access [a[i]] of a raw array or a [std::vector]. *)
Definition array_read {A} (a : list A) (i : Z) : Result A :=
  if 0 <=? i then
    match a !! Z.to_nat i with
    | Some x => Ok x
    | None => Fail InvalidAccess
    end
  else Fail InvalidAccess.

(** ** Configuration switches ([Config::...] of config.h, taken as given) *)

Record Config : Type := {
  CheckTapeActivity : bool;
  CheckZeroIndex : bool;
  IgnoreInvalidJacobies : bool;
  CheckJacobiIsZero : bool;
  SkipZeroAdjointEvaluation : bool;
  CopyOptimization : bool;
  ReversalZeroesAdjoints : bool;
  (** width of [Config::ArgumentSize] in bits *)
  ArgumentSizeBits : Z;
  (** [Config::StatementInputTag] *)
  StatementInputTag : Z
}.

(** The cast [(Config::ArgumentSize)numberOfArguments]. *)
Definition cast_ArgumentSize (cfg : Config) (n : Z) : Z :=
  n mod 2 ^ ArgumentSizeBits cfg.

(** ** Computation types *)

(** The tape is a template over [Real] (values and Jacobian entries) and
    [Gradient]/[Adjoint] (entries of the adjoint vector).  The operations the
    tape uses on them, and the two predicates of the real traits, are the
    members of this class. *)
Class Arithmetic (Real Adjoint : Type) : Type := {
  Real_zero : Real;                         (* Real() *)
  Real_one : Real;                          (* Real(1.0) *)
  Real_add : Real -> Real -> Real;
  isTotalFinite : Real -> bool;
  isTotalZeroReal : Real -> bool;
  Adjoint_zero : Adjoint;                   (* Adjoint() *)
  Adjoint_add : Adjoint -> Adjoint -> Adjoint;
  scale : Real -> Adjoint -> Adjoint;       (* jacobian * adjoint *)
  isTotalZero : Adjoint -> bool
}.

(** Integer arithmetic as computation type, used for the concrete runs. *)
#[export] Instance Z_Arithmetic : Arithmetic Z Z := {|
  Real_zero := 0;
  Real_one := 1;
  Real_add := Z.add;
  isTotalFinite := fun _ => true;
  isTotalZeroReal := fun x => x =? 0;
  Adjoint_zero := 0;
  Adjoint_add := Z.add;
  scale := Z.mul;
  isTotalZero := fun x => x =? 0
|}.

Definition defaultConfig : Config := {|
  CheckTapeActivity := true;
  CheckZeroIndex := true;
  IgnoreInvalidJacobies := false;
  CheckJacobiIsZero := true;
  SkipZeroAdjointEvaluation := true;
  CopyOptimization := true;
  ReversalZeroesAdjoints := true;
  ArgumentSizeBits := 8;
  StatementInputTag := 255
|}.

(** ** JacobianBaseTape: the reverse equation of one statement *)

Section StatementEquations.
Context {Real Adjoint : Type} `{!Arithmetic Real Adjoint}.

(** The loop
    [while(endJacobianPos < curJacobianPos) { curJacobianPos -= 1; ... }]
    of [incrementAdjoints].  [curJacobianPos] is unsigned, the recursion
    follows it down. *)
Fixpoint incrementAdjoints_while (curJacobianPos : nat) (endJacobianPos : Z)
    (adjointVector : list Adjoint) (lhsAdjoint : Adjoint)
    (rhsJacobians : list Real) (rhsIdentifiers : list Identifier)
  : Result (list Adjoint * Z) :=
  match curJacobianPos with
  | O => Ok (adjointVector, 0)
  | S cur =>
      if endJacobianPos <? Z.of_nat (S cur) then
        id ← array_read rhsIdentifiers (Z.of_nat cur);
        jac ← array_read rhsJacobians (Z.of_nat cur);
        a ← array_read adjointVector id;
        incrementAdjoints_while cur endJacobianPos
          (<[Z.to_nat id := Adjoint_add a (scale jac lhsAdjoint)]> adjointVector)
          lhsAdjoint rhsJacobians rhsIdentifiers
      else Ok (adjointVector, Z.of_nat (S cur))
  end.

(** [JacobianBaseTape::incrementAdjoints]; returns the adjoint vector and
    the updated [curJacobianPos]. *)
Definition incrementAdjoints (cfg : Config)
    (adjointVector : list Adjoint) (lhsAdjoint : Adjoint)
    (numberOfArguments : Z) (curJacobianPos : Z)
    (rhsJacobians : list Real) (rhsIdentifiers : list Identifier)
  : Result (list Adjoint * Z) :=
  let endJacobianPos := wrap_size_t (curJacobianPos - numberOfArguments) in
  if CODI_ENABLE_CHECK (SkipZeroAdjointEvaluation cfg) (negb (isTotalZero lhsAdjoint)) then
    incrementAdjoints_while (Z.to_nat curJacobianPos) endJacobianPos
      adjointVector lhsAdjoint rhsJacobians rhsIdentifiers
  else Ok (adjointVector, endJacobianPos).

(** What one argument entry contributes in the reverse equation: the slot of
    its input identifier is incremented by [partial * lhsAdjoint]. *)
Definition accumulateArgument (lhsAdjoint : Adjoint)
    (adjointVector : list Adjoint) (entry : Real * Identifier) : list Adjoint :=
  alter (fun a => Adjoint_add a (scale entry.1 lhsAdjoint)) (Z.to_nat entry.2) adjointVector.

(** The [n] argument entries that end at position [cur], in push order. *)
Definition trailingArguments (n cur : Z)
    (rhsJacobians : list Real) (rhsIdentifiers : list Identifier)
  : list (Real * Identifier) :=
  take (Z.to_nat n) (drop (Z.to_nat (cur - n)) (zip rhsJacobians rhsIdentifiers)).

End StatementEquations.

(** ** Chunk *)

(** Modelled from the spec: chunk.hpp is not among the sources; a chunk is the
    append-only storage of fixed-arity records of one stream.  [pushData]
    appends one record at the tail offset, and calling it without a free,
    reserved slot is a contract violation; [setUsedSize] moves the tail offset
    and keeps the storage. *)
Record Chunk (T : Type) : Type := mkChunk {
  storage : list T;       (* the allocated slots; stale beyond [usedSize] *)
  usedSize : Z
}.
Arguments mkChunk {T} _ _.
Arguments storage {T} _.
Arguments usedSize {T} _.

Section ChunkOps.
Context {T : Type}.

Definition Chunk_getSize (c : Chunk T) : Z := Z.of_nat (length (storage c)).
Definition Chunk_getUsedSize (c : Chunk T) : Z := usedSize c.
Definition Chunk_setUsedSize (n : Z) (c : Chunk T) : Chunk T :=
  mkChunk (storage c) n.
Definition Chunk_pushData (x : T) (c : Chunk T) : Result (Chunk T) :=
  _ ← codiAssert (usedSize c <? Chunk_getSize c);
  Ok (mkChunk (<[Z.to_nat (usedSize c) := x]> (storage c))
              (wrap_size_t (usedSize c + 1))).
End ChunkOps.

(** ** DataInterface *)

(** [ArrayPosition<NestedPosition>]: the tail offset of a stream together with
    the position of the stream nested in it. *)
Record ArrayPosition (NestedPosition : Type) : Type := mkArrayPosition {
  data : Z;
  inner : NestedPosition
}.
Arguments mkArrayPosition {NestedPosition} _ _.
Arguments data {NestedPosition} _.
Arguments inner {NestedPosition} _.

(** The members of [DataInterface] that a stream offers to the stream it is
    nested in. *)
Class DataInterface (D : Type) : Type := {
  Position : Type;
  getPosition : D -> Position;
  getZeroPosition : D -> Position;
  resetTo : Position -> D -> Result D
}.
Arguments Position D {_}.

(** Size accounting over a whole nesting, as collected by [forEachChunk] run
    recursively with [getUsedSize] resp. [getSize]: the used and the allocated
    number of items of the stream and of every stream nested in it, outermost
    first. *)
Class DataSizes (D : Type) : Type := {
  usedSizes : D -> list Z;
  allocatedSizes : D -> list Z
}.

(** Modelled from the spec: emptyData.hpp and position.hpp are not among the
    sources.  The end of a nesting stores nothing; its position, the
    [EmptyPosition] that [DataInterface] names, has no content, and rewinding
    it does nothing. *)
Inductive EmptyPosition : Type := mkEmptyPosition.
Inductive EmptyData : Type := mkEmptyData.

#[export] Instance EmptyData_DataInterface : DataInterface EmptyData := {|
  Position := EmptyPosition;
  getPosition := fun _ => mkEmptyPosition;
  getZeroPosition := fun _ => mkEmptyPosition;
  resetTo := fun _ d => Ok d
|}.

#[export] Instance EmptyData_DataSizes : DataSizes EmptyData := {|
  usedSizes := fun _ => [];
  allocatedSizes := fun _ => []
|}.

(** ** BlockData *)

Record BlockData (T NestedData : Type) : Type := mkBlockData {
  chunk : Chunk T;
  nested : NestedData    (* set once by [setNested] during initialization *)
}.
Arguments mkBlockData {T NestedData} _ _.
Arguments chunk {T NestedData} _.
Arguments nested {T NestedData} _.

Section BlockDataOps.
Context {T NestedData : Type} `{!DataInterface NestedData}.

Definition InternalPosHandle := Z.

Definition BlockData_getDataSize (d : BlockData T NestedData) : Z :=
  Chunk_getUsedSize (chunk d).

Definition BlockData_getPosition (d : BlockData T NestedData)
  : ArrayPosition (Position NestedData) :=
  mkArrayPosition (Chunk_getUsedSize (chunk d)) (getPosition (nested d)).

Definition getPushedDataCount (d : BlockData T NestedData)
    (startPos : InternalPosHandle) : Z :=
  wrap_size_t (Chunk_getUsedSize (chunk d) - startPos).

Definition BlockData_getZeroPosition (d : BlockData T NestedData)
  : ArrayPosition (Position NestedData) :=
  mkArrayPosition 0 (getZeroPosition (nested d)).

Definition pushData (x : T) (d : BlockData T NestedData)
  : Result (BlockData T NestedData) :=
  c ← Chunk_pushData x (chunk d);
  Ok (mkBlockData c (nested d)).

Definition reserveItems (items : Z) (d : BlockData T NestedData)
  : Result InternalPosHandle :=
  _ ← codiAssert (wrap_size_t (Chunk_getUsedSize (chunk d) + items)
                   <=? Chunk_getSize (chunk d));
  Ok (Chunk_getUsedSize (chunk d)).

Definition BlockData_resetTo (pos : ArrayPosition (Position NestedData))
    (d : BlockData T NestedData) : Result (BlockData T NestedData) :=
  _ ← codiAssert (data pos <=? Chunk_getSize (chunk d));
  n ← resetTo (inner pos) (nested d);
  Ok (mkBlockData (Chunk_setUsedSize (data pos) (chunk d)) n).

Definition BlockData_reset (d : BlockData T NestedData)
  : Result (BlockData T NestedData) :=
  BlockData_resetTo (BlockData_getZeroPosition d) d.

#[export] Instance BlockData_DataInterface : DataInterface (BlockData T NestedData) := {|
  Position := ArrayPosition (Position NestedData);
  getPosition := BlockData_getPosition;
  getZeroPosition := BlockData_getZeroPosition;
  resetTo := BlockData_resetTo
|}.

#[export] Instance BlockData_DataSizes `{!DataSizes NestedData}
  : DataSizes (BlockData T NestedData) := {|
  usedSizes := fun d => Chunk_getUsedSize (chunk d) :: usedSizes (nested d);
  allocatedSizes := fun d => Chunk_getSize (chunk d) :: allocatedSizes (nested d)
|}.

(** A run of [pushData] calls, in order. *)
Fixpoint pushDataAll (xs : list T) (d : BlockData T NestedData)
  : Result (BlockData T NestedData) :=
  match xs with
  | [] => Ok d
  | x :: xs' => d' ← pushData x d; pushDataAll xs' d'
  end.

End BlockDataOps.

(** ** Recording into a nesting of streams *)

(** The invariant of a chunk: the tail offset lies within the allocated
    slots, whose number is a [size_t]. *)
Definition Chunk_wellFormed {T} (c : Chunk T) : Prop :=
  0 <= usedSize c <= Chunk_getSize c /\ Chunk_getSize c < size_t_modulus.

(** What the round trip [getPosition] / record / [resetTo] needs to know of a
    stream: [recordsFurther d d'] says that [d'] is reached from [d] by
    pushing further data into the stream or into the streams nested in it. *)
Class DataInterfaceLaws (D : Type) `{!DataInterface D} `{!DataSizes D} : Type := {
  wellFormed : D -> Prop;
  recordsFurther : relation D;
  recordsFurther_PreOrder : PreOrder recordsFurther;
  resetTo_recordsFurther : forall d d',
    wellFormed d -> recordsFurther d d' ->
    exists d'', resetTo (getPosition d) d' = Ok d''
      /\ getPosition d'' = getPosition d
      /\ usedSizes d'' = usedSizes d
      /\ allocatedSizes d'' = allocatedSizes d'
}.

(** One step of recording into a [BlockData]: a [pushData] that returned, or a
    step of recording into the nested stream. *)
Inductive BlockData_records {T NestedData : Type} (R : relation NestedData)
  : relation (BlockData T NestedData) :=
  | records_pushData (d d' : BlockData T NestedData) (x : T) :
      pushData x d = Ok d' -> BlockData_records R d d'
  | records_nested (d : BlockData T NestedData) (n' : NestedData) :
      R (nested d) n' -> BlockData_records R d (mkBlockData (chunk d) n').

(** ** IndexManagerInterface *)

(** The capability set of an index manager.  A method taking [Index&] returns
    the new content of the reference next to the new manager state.  The
    static flag is spelled [CopyNeedsStatement] in jacobianBaseTape.hpp. *)
Class IndexManagerInterface (IM : Type) : Type := {
  CopyNeedsStatement : bool;
  IsLinear : bool;
  assignIndex : IM -> Identifier -> IM * Identifier * bool;
  assignUnusedIndex : IM -> Identifier -> IM * Identifier * bool;
  copyIndex : IM -> Identifier -> Identifier -> IM * Identifier;
  freeIndex : IM -> Identifier -> IM * Identifier;
  getLargestAssignedIndex : IM -> Identifier;
  reset : IM -> IM
}.

(** Modelled from the spec: the index managers themselves are not among the
    sources.  This is the Reuse policy of section 4.2: a free list and a
    high-water mark; [assignIndex] pops from the free list or grows the
    counter; [freeIndex] returns an identifier to the free list unless it is
    already the unused sentinel, and leaves the variable with the unused
    sentinel; copying needs a statement. *)
Record ReuseIndexManager : Type := mkReuseIndexManager {
  freeList : list Identifier;
  largestAssigned : Identifier
}.

Definition Reuse_assignIndex (im : ReuseIndexManager) (index : Identifier)
  : ReuseIndexManager * Identifier * bool :=
  match freeList im with
  | i :: rest => (mkReuseIndexManager rest (largestAssigned im), i, false)
  | [] => (mkReuseIndexManager [] (largestAssigned im + 1), largestAssigned im + 1, true)
  end.

Definition Reuse_freeIndex (im : ReuseIndexManager) (index : Identifier)
  : ReuseIndexManager * Identifier :=
  if index =? UnusedIndex then (im, index)
  else (mkReuseIndexManager (index :: freeList im) (largestAssigned im), UnusedIndex).

#[export] Instance Reuse_IndexManagerInterface : IndexManagerInterface ReuseIndexManager := {|
  CopyNeedsStatement := true;
  IsLinear := false;
  assignIndex := Reuse_assignIndex;
  assignUnusedIndex := fun im _ =>
    (mkReuseIndexManager (freeList im) (largestAssigned im + 1), largestAssigned im + 1, true);
  copyIndex := fun im lhs _ => let '(im', i, _) := Reuse_assignIndex im lhs in (im', i);
  freeIndex := Reuse_freeIndex;
  getLargestAssignedIndex := largestAssigned;
  reset := fun im => im
|}.

#[export] Instance Reuse_DataInterface : DataInterface ReuseIndexManager := {|
  Position := EmptyPosition;
  getPosition := fun _ => mkEmptyPosition;
  getZeroPosition := fun _ => mkEmptyPosition;
  resetTo := fun _ im => Ok im
|}.

#[export] Instance Reuse_DataSizes : DataSizes ReuseIndexManager := {|
  usedSizes := fun _ => [];
  allocatedSizes := fun _ => []
|}.

(** ** Expressions, as far as the tape looks at them *)

(** A leaf of the right hand side: an active value, or a
    [ReferenceActiveType], whose mutable [jacobian] member lives in the
    object [ref] and is shared by all its occurrences. *)
Inductive Node : Type :=
  | ActiveNode (id : Identifier)
  | ReferenceNode (ref : nat) (id : Identifier).

Definition Node_getIdentifier (n : Node) : Identifier :=
  match n with
  | ActiveNode id => id
  | ReferenceNode _ id => id
  end.

(** An expression offers [getValue()] and a traversal that reports every
    active leaf with the Jacobian of the expression with respect to it (the
    traversal itself belongs to the expression templates). *)
Record Expression (Real : Type) : Type := mkExpression {
  getValue : Real;
  terms : list (Real * Node)
}.
Arguments mkExpression {Real} _ _.
Arguments getValue {Real} _.
Arguments terms {Real} _.

(** [NumberOfActiveTypeArguments<Rhs>::value]. *)
Definition NumberOfActiveTypeArguments {Real} (rhs : Expression Real) : Z :=
  Z.of_nat (length (terms rhs)).

(** An active variable: primal value and identifier. *)
Record ActiveType (Real : Type) : Type := mkActiveType {
  value : Real;
  identifier : Identifier
}.
Arguments mkActiveType {Real} _ _.
Arguments value {Real} _.
Arguments identifier {Real} _.

(** A monadic left fold: one call of [f] per element, in order. *)
Fixpoint foldResult {A S} (f : A -> S -> Result S) (l : list A) (s : S) : Result S :=
  match l with
  | [] => Ok s
  | x :: l' => s' ← f x s; foldResult f l' s'
  end.

(** Entries of the statement stream: [<argument size>] under linear index
    management, [<lhs identifier, argument size>] under reuse management. *)
Inductive StatementEntry : Type :=
  | LinearStatement (numberOfArguments : Z)
  | ReuseStatement (lhsIdentifier : Identifier) (numberOfArguments : Z).

(** ** JacobianBaseTape *)

Section JacobianBaseTape.
Context {Real Gradient IM : Type}.
Context `{!Arithmetic Real Gradient}.
Context `{!IndexManagerInterface IM} `{!DataInterface IM}.

(** The streams are nested as in the constructor: the index manager in the
    statement data, the statement data in the Jacobian data.  [active] is the
    recording state kept by the common tape base. *)
Record JacobianBaseTape : Type := mkJacobianBaseTape {
  jacobianData : BlockData (Real * Identifier) (BlockData StatementEntry IM);
  adjoints : list Gradient;
  active : bool
}.

Definition statementData (t : JacobianBaseTape) : BlockData StatementEntry IM :=
  nested (jacobianData t).
Definition indexManager (t : JacobianBaseTape) : IM :=
  nested (statementData t).

(** Modelled from the spec: [isActive()] belongs to the common tape base,
    which is not among the sources; it tells whether the tape is in the
    state Active. *)
Definition isActive (t : JacobianBaseTape) : bool := active t.


Definition set_jacobianData (jd : BlockData (Real * Identifier) (BlockData StatementEntry IM))
    (t : JacobianBaseTape) : JacobianBaseTape :=
  mkJacobianBaseTape jd (adjoints t) (active t).
Definition set_statementData (sd : BlockData StatementEntry IM)
    (t : JacobianBaseTape) : JacobianBaseTape :=
  set_jacobianData (mkBlockData (chunk (jacobianData t)) sd) t.
Definition set_indexManager (im : IM) (t : JacobianBaseTape) : JacobianBaseTape :=
  set_statementData (mkBlockData (chunk (statementData t)) im) t.
Definition set_adjoints (a : list Gradient) (t : JacobianBaseTape) : JacobianBaseTape :=
  mkJacobianBaseTape (jacobianData t) a (active t).

(** The [jacobian] members of the [ReferenceActiveType] objects in scope;
    an object not in the map still has its initial [Real()]. *)
Definition refJacobian (refs : gmap nat Real) (ref : nat) : Real :=
  default Real_zero (refs !! ref).

(** [PushJacobianLogic::handleJacobianOnActive], both overloads. *)
Definition handleJacobianOnActive (cfg : Config) (term : Real * Node)
    (st : gmap nat Real * BlockData (Real * Identifier) (BlockData StatementEntry IM))
  : Result (gmap nat Real * BlockData (Real * Identifier) (BlockData StatementEntry IM)) :=
  let '(jacobian, node) := term in
  let '(refs, dataVector) := st in
  match node with
  | ActiveNode id =>
      if CODI_ENABLE_CHECK (CheckZeroIndex cfg) (negb (0 =? id)) then
        if CODI_ENABLE_CHECK (IgnoreInvalidJacobies cfg) (isTotalFinite jacobian) then
          if CODI_ENABLE_CHECK (CheckJacobiIsZero cfg) (negb (isTotalZeroReal jacobian)) then
            dataVector' ← pushData (jacobian, id) dataVector;
            Ok (refs, dataVector')
          else Ok st
        else Ok st
      else Ok st
  | ReferenceNode ref id =>
      if CODI_ENABLE_CHECK (IgnoreInvalidJacobies cfg) (isTotalFinite jacobian) then
        Ok (<[ref := Real_add (refJacobian refs ref) jacobian]> refs, dataVector)
      else Ok st
  end.

(** [PushDelayedJacobianLogic::handleActive]: the overload for
    [ReferenceActiveType] nodes; every other leaf takes the inherited one,
    which has nothing to do. *)
Definition handleActive (cfg : Config) (node : Node)
    (st : gmap nat Real * BlockData (Real * Identifier) (BlockData StatementEntry IM))
  : Result (gmap nat Real * BlockData (Real * Identifier) (BlockData StatementEntry IM)) :=
  let '(refs, dataVector) := st in
  match node with
  | ActiveNode _ => Ok st
  | ReferenceNode ref id =>
      if CODI_ENABLE_CHECK (CheckZeroIndex cfg) (negb (0 =? id)) then
        if CODI_ENABLE_CHECK (CheckJacobiIsZero cfg) (negb (isTotalZeroReal (refJacobian refs ref))) then
          dataVector' ← pushData (refJacobian refs ref, id) dataVector;
          Ok (<[ref := Real_zero]> refs, dataVector')
        else Ok st
      else Ok st
  end.

(** [pushJacobians], with [CODI_RemoveDuplicateJacobianArguments] switched
    off: the entries go to [jacobianData] directly. *)
Definition pushJacobians (cfg : Config) (rhs : Expression Real)
    (st : gmap nat Real * BlockData (Real * Identifier) (BlockData StatementEntry IM))
  : Result (gmap nat Real * BlockData (Real * Identifier) (BlockData StatementEntry IM)) :=
  st' ← foldResult (handleJacobianOnActive cfg) (terms rhs) st;
  foldResult (handleActive cfg) (terms rhs).*2 st'.

(** Modelled from the spec: [pushStmtData] is only declared in the base tape
    and implemented by the final tape classes, which are not among the
    sources.  It commits the statement (identifier, argument count) to the
    statement stream, in the layout of [StatementEntry]. *)
Definition pushStmtData (index : Identifier) (numberOfArguments : Z)
    (t : JacobianBaseTape) : Result JacobianBaseTape :=
  sd ← pushData (if IsLinear then LinearStatement numberOfArguments
                 else ReuseStatement index numberOfArguments) (statementData t);
  Ok (set_statementData sd t).

(** [store(lhs, rhs)] for a general right hand side.  The result carries the
    tape, the reference objects and the left hand side after the call. *)
Definition store (cfg : Config) (t : JacobianBaseTape) (refs : gmap nat Real)
    (lhs : ActiveType Real) (rhs : Expression Real)
  : Result (JacobianBaseTape * gmap nat Real * ActiveType Real) :=
  r ← (if CODI_ENABLE_CHECK (CheckTapeActivity cfg) (isActive t) then
         let MaxArgs := NumberOfActiveTypeArguments rhs in
         _ ← reserveItems 1 (statementData t);
         jacobianStart ← reserveItems MaxArgs (jacobianData t);
         st ← pushJacobians cfg rhs (refs, jacobianData t);
         let t1 := set_jacobianData st.2 t in
         let numberOfArguments := getPushedDataCount (jacobianData t1) jacobianStart in
         if negb (0 =? numberOfArguments) then
           let '(im, id, _) := assignIndex (indexManager t1) (identifier lhs) in
           t2 ← pushStmtData id (cast_ArgumentSize cfg numberOfArguments)
                  (set_indexManager im t1);
           Ok (t2, st.1, id)
         else
           let '(im, id) := freeIndex (indexManager t1) (identifier lhs) in
           Ok (set_indexManager im t1, st.1, id)
       else
         let '(im, id) := freeIndex (indexManager t) (identifier lhs) in
         Ok (set_indexManager im t, refs, id));
  let '(t', refs', id') := r in
  Ok (t', refs', mkActiveType (getValue rhs) id').

(** A left hand side expression used as right hand side: itself as only
    leaf, with Jacobian [Real(1.0)]. *)
Definition asExpression (rhsValue : Real) (rhsNode : Node) : Expression Real :=
  mkExpression rhsValue [(Real_one, rhsNode)].

(** [store(lhs, rhs)] for a right hand side that is a left hand side
    expression: the optimization for copy statements. *)
Definition store_copy (cfg : Config) (t : JacobianBaseTape) (refs : gmap nat Real)
    (lhs : ActiveType Real) (rhsValue : Real) (rhsNode : Node)
  : Result (JacobianBaseTape * gmap nat Real * ActiveType Real) :=
  r ← (if CODI_ENABLE_CHECK (CheckTapeActivity cfg) (isActive t) then
         if CopyNeedsStatement || negb (CopyOptimization cfg) then
           store cfg t refs lhs (asExpression rhsValue rhsNode)
         else
           let '(im, id) := copyIndex (indexManager t) (identifier lhs)
                              (Node_getIdentifier rhsNode) in
           Ok (set_indexManager im t, refs, mkActiveType (value lhs) id)
       else
         let '(im, id) := freeIndex (indexManager t) (identifier lhs) in
         Ok (set_indexManager im t, refs, mkActiveType (value lhs) id));
  let '(t', refs', lhs') := r in
  Ok (t', refs', mkActiveType rhsValue (identifier lhs')).

(** [store(lhs, rhs)] for a passive right hand side. *)
Definition store_passive (t : JacobianBaseTape) (lhs : ActiveType Real) (rhs : Real)
  : JacobianBaseTape * ActiveType Real :=
  let '(im, id) := freeIndex (indexManager t) (identifier lhs) in
  (set_indexManager im t, mkActiveType rhs id).

(** [registerInput]. *)
Definition registerInput (cfg : Config) (t : JacobianBaseTape) (v : ActiveType Real)
  : Result (JacobianBaseTape * ActiveType Real) :=
  let '(im, id, _) := assignUnusedIndex (indexManager t) (identifier v) in
  let t1 := set_indexManager im t in
  if IsLinear then
    _ ← reserveItems 1 (statementData t1);
    t2 ← pushStmtData id (StatementInputTag cfg) t1;
    Ok (t2, mkActiveType (value v) id)
  else Ok (t1, mkActiveType (value v) id).

(** [clearAdjoints()]. *)
Definition clearAdjoints (t : JacobianBaseTape) : JacobianBaseTape :=
  set_adjoints ((fun _ => Adjoint_zero) <$> adjoints t) t.

(** [std::vector::resize]: cut, or fill up with [Gradient()]. *)
Definition vector_resize (n : Z) (v : list Gradient) : list Gradient :=
  let k := Z.to_nat (wrap_size_t n) in
  take k v ++ replicate (k - length v) Adjoint_zero.

Definition resizeAdjointsVector (t : JacobianBaseTape) : JacobianBaseTape :=
  set_adjoints (vector_resize (getLargestAssignedIndex (indexManager t) + 1) (adjoints t)) t.

Definition checkAdjointSize (id : Identifier) (t : JacobianBaseTape) : JacobianBaseTape :=
  if cast_Identifier (Z.of_nat (length (adjoints t))) <=? id then resizeAdjointsVector t
  else t.

(** [gradient(identifier)]: the slot is looked up after the size check. *)
Definition gradient (t : JacobianBaseTape) (id : Identifier)
  : Result (JacobianBaseTape * Gradient) :=
  let t' := checkAdjointSize id t in
  g ← array_read (adjoints t') id;
  Ok (t', g).

(** [gradient(identifier) const]. *)
Definition gradient_const (t : JacobianBaseTape) (id : Identifier) : Result Gradient :=
  if cast_Identifier (Z.of_nat (length (adjoints t))) <? id then
    array_read (adjoints t) 0
  else
    array_read (adjoints t) id.

(** [initIdentifier] and [destroyIdentifier]. *)
Definition initIdentifier (v : ActiveType Real) : ActiveType Real :=
  mkActiveType (value v) UnusedIndex.

Definition destroyIdentifier (t : JacobianBaseTape) (v : ActiveType Real)
  : JacobianBaseTape * ActiveType Real :=
  let '(im, id) := freeIndex (indexManager t) (identifier v) in
  (set_indexManager im t, mkActiveType (value v) id).

(** [evaluatePrimal], [primal] and [primal const]: the tape after the call
    and the outcome of the call. *)
Definition evaluatePrimal {P : Type} (t : JacobianBaseTape) (start end_ : P)
  : JacobianBaseTape * Result unit :=
  (t, CODI_EXCEPTION "Accessing primal evaluation of an Jacobian tape.").

Definition primal (t : JacobianBaseTape) (id : Identifier)
  : JacobianBaseTape * Result Real :=
  (t, CODI_EXCEPTION "Accessing primal vector of an Jacobian tape.").

Definition primal_const (t : JacobianBaseTape) (id : Identifier)
  : JacobianBaseTape * Result Real :=
  (t, CODI_EXCEPTION "Accessing primal vector of an Jacobian tape.").

End JacobianBaseTape.

(** ** Counting what a right hand side can push *)

(** The number of entries a leaf can cause in the first traversal
    ([PushJacobianLogic]) and in the second ([PushDelayedJacobianLogic]). *)
Definition directPushes {Real} (term : Real * Node) : nat :=
  match term.2 with
  | ActiveNode _ => 1
  | ReferenceNode _ _ => 0
  end.

Definition delayedPushes (node : Node) : nat :=
  match node with
  | ActiveNode _ => 0
  | ReferenceNode _ _ => 1
  end.

(** [st'] comes from [st] by at most [w] pushes into the data vector, and by
    nothing else that touches it. *)
Definition pushedAtMost {Refs T NestedData : Type} (w : nat)
    (st st' : Refs * BlockData T NestedData) : Prop :=
  Chunk_wellFormed (chunk st'.2)
  /\ Chunk_getSize (chunk st'.2) = Chunk_getSize (chunk st.2)
  /\ nested st'.2 = nested st.2
  /\ usedSize (chunk st.2) <= usedSize (chunk st'.2) <= usedSize (chunk st.2) + Z.of_nat w
  /\ (usedSize (chunk st'.2) = usedSize (chunk st.2) -> st'.2 = st.2).

(** ** The second revision of the base tape *)

(** The sources hold a second, near-duplicate revision of the Jacobian base
    tape, next to the [IndexManagerInterface] that declares the static flag as
    [AssignNeedsStatement]; its configuration switch is
    [Config::AssignOptimization].  Its recording functions are transcribed
    here on their own. *)
Module Revision2.

Class IndexManagerInterface (IM : Type) : Type := {
  AssignNeedsStatement : bool;
  IsLinear : bool;
  assignIndex : IM -> Identifier -> IM * Identifier * bool;
  assignUnusedIndex : IM -> Identifier -> IM * Identifier * bool;
  copyIndex : IM -> Identifier -> Identifier -> IM * Identifier;
  freeIndex : IM -> Identifier -> IM * Identifier;
  getLargestAssignedIndex : IM -> Identifier;
  reset : IM -> IM
}.

Record Config : Type := {
  CheckTapeActivity : bool;
  CheckZeroIndex : bool;
  IgnoreInvalidJacobies : bool;
  CheckJacobiIsZero : bool;
  SkipZeroAdjointEvaluation : bool;
  AssignOptimization : bool;
  ArgumentSizeBits : Z;
  StatementInputTag : Z
}.

Definition cast_ArgumentSize (cfg : Config) (n : Z) : Z :=
  n mod 2 ^ ArgumentSizeBits cfg.

Section JacobianBaseTape.
Context {Real Gradient IM : Type}.
Context `{!Arithmetic Real Gradient}.
Context `{!IndexManagerInterface IM} `{!DataInterface IM}.

Definition handleJacobianOnActive (cfg : Config) (term : Real * Node)
    (st : gmap nat Real * BlockData (Real * Identifier) (BlockData StatementEntry IM))
  : Result (gmap nat Real * BlockData (Real * Identifier) (BlockData StatementEntry IM)) :=
  let '(jacobian, node) := term in
  let '(refs, dataVector) := st in
  match node with
  | ActiveNode id =>
      if CODI_ENABLE_CHECK (CheckZeroIndex cfg) (negb (0 =? id)) then
        if CODI_ENABLE_CHECK (IgnoreInvalidJacobies cfg) (isTotalFinite jacobian) then
          if CODI_ENABLE_CHECK (CheckJacobiIsZero cfg) (negb (isTotalZeroReal jacobian)) then
            dataVector' ← pushData (jacobian, id) dataVector;
            Ok (refs, dataVector')
          else Ok st
        else Ok st
      else Ok st
  | ReferenceNode ref id =>
      if CODI_ENABLE_CHECK (IgnoreInvalidJacobies cfg) (isTotalFinite jacobian) then
        Ok (<[ref := Real_add (refJacobian refs ref) jacobian]> refs, dataVector)
      else Ok st
  end.

Definition handleActive (cfg : Config) (node : Node)
    (st : gmap nat Real * BlockData (Real * Identifier) (BlockData StatementEntry IM))
  : Result (gmap nat Real * BlockData (Real * Identifier) (BlockData StatementEntry IM)) :=
  let '(refs, dataVector) := st in
  match node with
  | ActiveNode _ => Ok st
  | ReferenceNode ref id =>
      if CODI_ENABLE_CHECK (CheckZeroIndex cfg) (negb (0 =? id)) then
        if CODI_ENABLE_CHECK (CheckJacobiIsZero cfg) (negb (isTotalZeroReal (refJacobian refs ref))) then
          dataVector' ← pushData (refJacobian refs ref, id) dataVector;
          Ok (<[ref := Real_zero]> refs, dataVector')
        else Ok st
      else Ok st
  end.

Definition pushJacobians (cfg : Config) (rhs : Expression Real)
    (st : gmap nat Real * BlockData (Real * Identifier) (BlockData StatementEntry IM))
  : Result (gmap nat Real * BlockData (Real * Identifier) (BlockData StatementEntry IM)) :=
  st' ← foldResult (handleJacobianOnActive cfg) (terms rhs) st;
  foldResult (handleActive cfg) (terms rhs).*2 st'.

(** Modelled from the spec: [pushStmtData] of the final tape classes, as for
    the first revision. *)
Definition pushStmtData (index : Identifier) (numberOfArguments : Z)
    (t : JacobianBaseTape (Real := Real) (Gradient := Gradient) (IM := IM))
  : Result JacobianBaseTape :=
  sd ← pushData (if IsLinear then LinearStatement numberOfArguments
                 else ReuseStatement index numberOfArguments) (statementData t);
  Ok (set_statementData sd t).

Definition store (cfg : Config) (t : JacobianBaseTape) (refs : gmap nat Real)
    (lhs : ActiveType Real) (rhs : Expression Real)
  : Result (JacobianBaseTape * gmap nat Real * ActiveType Real) :=
  r ← (if CODI_ENABLE_CHECK (CheckTapeActivity cfg) (isActive t) then
         let MaxArgs := NumberOfActiveTypeArguments rhs in
         _ ← reserveItems 1 (statementData t);
         jacobianStart ← reserveItems MaxArgs (jacobianData t);
         st ← pushJacobians cfg rhs (refs, jacobianData t);
         let t1 := set_jacobianData st.2 t in
         let numberOfArguments := getPushedDataCount (jacobianData t1) jacobianStart in
         if negb (0 =? numberOfArguments) then
           let '(im, id, _) := assignIndex (indexManager t1) (identifier lhs) in
           t2 ← pushStmtData id (cast_ArgumentSize cfg numberOfArguments)
                  (set_indexManager im t1);
           Ok (t2, st.1, id)
         else
           let '(im, id) := freeIndex (indexManager t1) (identifier lhs) in
           Ok (set_indexManager im t1, st.1, id)
       else
         let '(im, id) := freeIndex (indexManager t) (identifier lhs) in
         Ok (set_indexManager im t, refs, id));
  let '(t', refs', id') := r in
  Ok (t', refs', mkActiveType (getValue rhs) id').

Definition store_copy (cfg : Config) (t : JacobianBaseTape) (refs : gmap nat Real)
    (lhs : ActiveType Real) (rhsValue : Real) (rhsNode : Node)
  : Result (JacobianBaseTape * gmap nat Real * ActiveType Real) :=
  r ← (if CODI_ENABLE_CHECK (CheckTapeActivity cfg) (isActive t) then
         if AssignNeedsStatement || negb (AssignOptimization cfg) then
           store cfg t refs lhs (asExpression rhsValue rhsNode)
         else
           let '(im, id) := copyIndex (indexManager t) (identifier lhs)
                              (Node_getIdentifier rhsNode) in
           Ok (set_indexManager im t, refs, mkActiveType (value lhs) id)
       else
         let '(im, id) := freeIndex (indexManager t) (identifier lhs) in
         Ok (set_indexManager im t, refs, mkActiveType (value lhs) id));
  let '(t', refs', lhs') := r in
  Ok (t', refs', mkActiveType rhsValue (identifier lhs')).

End JacobianBaseTape.

End Revision2.

(** The same index manager seen through the two declarations of the
    interface: all methods are the same functions, and the flag
    [CopyNeedsStatement] of the one has the value of [AssignNeedsStatement]
    of the other. *)
Record sameIndexManager {IM : Type}
    (A : IndexManagerInterface IM) (B : Revision2.IndexManagerInterface IM) : Prop := {
  same_flag : @CopyNeedsStatement IM A = @Revision2.AssignNeedsStatement IM B;
  same_IsLinear : @IsLinear IM A = @Revision2.IsLinear IM B;
  same_assignIndex : @assignIndex IM A = @Revision2.assignIndex IM B;
  same_assignUnusedIndex : @assignUnusedIndex IM A = @Revision2.assignUnusedIndex IM B;
  same_copyIndex : @copyIndex IM A = @Revision2.copyIndex IM B;
  same_freeIndex : @freeIndex IM A = @Revision2.freeIndex IM B
}.

(** Two configurations with equal switches, [CopyOptimization] of the one
    having the value of [AssignOptimization] of the other. *)
Record sameConfig (cfg : Config) (cfg2 : Revision2.Config) : Prop := {
  same_CheckTapeActivity : CheckTapeActivity cfg = Revision2.CheckTapeActivity cfg2;
  same_CheckZeroIndex : CheckZeroIndex cfg = Revision2.CheckZeroIndex cfg2;
  same_IgnoreInvalidJacobies : IgnoreInvalidJacobies cfg = Revision2.IgnoreInvalidJacobies cfg2;
  same_CheckJacobiIsZero : CheckJacobiIsZero cfg = Revision2.CheckJacobiIsZero cfg2;
  same_optimization : CopyOptimization cfg = Revision2.AssignOptimization cfg2;
  same_ArgumentSizeBits : ArgumentSizeBits cfg = Revision2.ArgumentSizeBits cfg2
}.

(** ** Algorithms *)

(** Evaluation modes for the derivative computation. *)
Inductive EvaluationType : Type := Forward | Reverse.

(** [Algorithms::getEvaluationChoice]. *)
Definition getEvaluationChoice (inputs outputs : Z) : EvaluationType :=
  if inputs <=? outputs then Forward else Reverse.

(** What [computeJacobian] asks of the tape: gradient access by identifier
    and vector dimension ([GT::at(tape.gradient(id), dim) = v] and
    [GT::at(tape.getGradient(id), dim)]), the four evaluations and the
    positional [clearAdjoints]. *)
Class TapeOperations (Tape Position GReal : Type) : Type := {
  setGradientAt : Identifier -> Z -> GReal -> Tape -> Result Tape;
  getGradientAt : Identifier -> Z -> Tape -> Result GReal;
  evaluateForwardKeepState : Position -> Position -> Tape -> Result Tape;
  evaluateForward : Position -> Position -> Tape -> Result Tape;
  evaluateKeepState : Position -> Position -> Tape -> Result Tape;
  evaluate : Position -> Position -> Tape -> Result Tape;
  clearAdjoints_range : Position -> Position -> Tape -> Result Tape
}.

Section Algorithms.
Context {Tape Position GReal Jac : Type} `{!TapeOperations Tape Position GReal}.
(** [jac(i, j) = v] of the [JacobianInterface]. *)
Variable Jac_set : Z -> Z -> GReal -> Jac -> Jac.
(** [GT::Real(1.0)] and [GT::Real()]. *)
Variables GReal_one GReal_zero : GReal.
(** [GT::dim] (at least one), and the template arguments. *)
Variable gradDim : Z.
Variables ActiveChecks keepState : bool.

(** The values of [curDim] in
    [for (curDim = 0; curDim < gradDim && pos + curDim < size; curDim += 1)]. *)
Definition vectorDims (pos size : Z) : list Z :=
  seqZ 0 (Z.min gradDim (size - pos)).

(** The values of [j] in [for (j = 0; j < size; j += gradDim)]. *)
Definition sweepStarts (size : Z) : list Z :=
  (fun k => k * gradDim) <$> seqZ 0 ((size + gradDim - 1) / gradDim).

Definition setGradientOnIdentifier (tape : Tape) (pos : Z)
    (identifiers : list Identifier) (size : Z) (v : GReal) : Result Tape :=
  foldResult (fun curDim tape =>
      id ← array_read identifiers (pos + curDim);
      if CODI_ENABLE_CHECK ActiveChecks (negb (0 =? id)) then
        setGradientAt id curDim v tape
      else Ok tape)
    (vectorDims pos size) tape.

(** The branch of [computeJacobian] taken for [EvaluationType::Forward]. *)
Definition computeJacobian_forward (tape : Tape) (start end_ : Position)
    (input : list Identifier) (inputSize : Z)
    (output : list Identifier) (outputSize : Z) (jac : Jac) : Result (Tape * Jac) :=
  r ← foldResult (fun j (st : Tape * Jac) =>
      tape ← setGradientOnIdentifier st.1 j input inputSize GReal_one;
      tape ← (if keepState then evaluateForwardKeepState start end_ tape
              else evaluateForward start end_ tape);
      jac ← foldResult (fun i jac =>
          foldResult (fun curDim jac =>
              out ← array_read output i;
              g ← getGradientAt out curDim tape;
              Ok (Jac_set i (j + curDim) g jac))
            (vectorDims j inputSize) jac)
        (seqZ 0 outputSize) st.2;
      tape ← setGradientOnIdentifier tape j input inputSize GReal_zero;
      Ok (tape, jac))
    (sweepStarts inputSize) (tape, jac);
  tape ← clearAdjoints_range end_ start r.1;
  Ok (tape, r.2).

(** The branch of [computeJacobian] taken for [EvaluationType::Reverse]. *)
Definition computeJacobian_reverse (reversalZeroesAdjoints : bool)
    (tape : Tape) (start end_ : Position)
    (input : list Identifier) (inputSize : Z)
    (output : list Identifier) (outputSize : Z) (jac : Jac) : Result (Tape * Jac) :=
  foldResult (fun i (st : Tape * Jac) =>
      tape ← setGradientOnIdentifier st.1 i output outputSize GReal_one;
      tape ← (if keepState then evaluateKeepState end_ start tape
              else evaluate end_ start tape);
      st' ← foldResult (fun j (st : Tape * Jac) =>
          foldResult (fun curDim (st : Tape * Jac) =>
              inp ← array_read input j;
              g ← getGradientAt inp curDim st.1;
              tape ← setGradientAt inp curDim GReal_zero st.1;
              Ok (tape, Jac_set (i + curDim) j g st.2))
            (vectorDims i outputSize) st)
        (seqZ 0 inputSize) (tape, st.2);
      tape ← setGradientOnIdentifier st'.1 i output outputSize GReal_zero;
      tape ← (if negb reversalZeroesAdjoints then clearAdjoints_range end_ start tape
              else Ok tape);
      Ok (tape, st'.2))
    (sweepStarts outputSize) (tape, jac).

(** [Algorithms::computeJacobian]. *)
Definition computeJacobian (cfg : Config) (tape : Tape) (start end_ : Position)
    (input : list Identifier) (inputSize : Z)
    (output : list Identifier) (outputSize : Z) (jac : Jac) : Result (Tape * Jac) :=
  let evalType := getEvaluationChoice inputSize outputSize in
  match evalType with
  | Forward =>
      computeJacobian_forward tape start end_ input inputSize output outputSize jac
  | Reverse =>
      computeJacobian_reverse (ReversalZeroesAdjoints cfg)
        tape start end_ input inputSize output outputSize jac
  end.

End Algorithms.

(** ** Concrete streams and tapes for the sample runs *)

(** A statement stream with two and a Jacobian stream with four allocated
    slots, nothing recorded, over the Reuse index manager. *)
Definition sampleStatementData : BlockData StatementEntry ReuseIndexManager :=
  mkBlockData (mkChunk [ReuseStatement 0 0; ReuseStatement 0 0] 0)
              (mkReuseIndexManager [] 0).

Definition sampleJacobianData
  : BlockData (Z * Identifier) (BlockData StatementEntry ReuseIndexManager) :=
  mkBlockData (mkChunk [(0, 0); (0, 0); (0, 0); (0, 0)] 0) sampleStatementData.

Definition sampleTape (isActive : bool)
  : JacobianBaseTape (Real := Z) (Gradient := Z) (IM := ReuseIndexManager) :=
  mkJacobianBaseTape sampleJacobianData [0] isActive.

(** The Reuse index manager behind the interface of the second revision, and
    the default switches in the second revision's spelling. *)
Definition Reuse_IndexManagerInterface2 : Revision2.IndexManagerInterface ReuseIndexManager := {|
  Revision2.AssignNeedsStatement := true;
  Revision2.IsLinear := false;
  Revision2.assignIndex := Reuse_assignIndex;
  Revision2.assignUnusedIndex := fun im _ =>
    (mkReuseIndexManager (freeList im) (largestAssigned im + 1), largestAssigned im + 1, true);
  Revision2.copyIndex := fun im lhs _ =>
    let '(im', i, _) := Reuse_assignIndex im lhs in (im', i);
  Revision2.freeIndex := Reuse_freeIndex;
  Revision2.getLargestAssignedIndex := largestAssigned;
  Revision2.reset := fun im => im
|}.

Definition defaultConfig2 : Revision2.Config := {|
  Revision2.CheckTapeActivity := true;
  Revision2.CheckZeroIndex := true;
  Revision2.IgnoreInvalidJacobies := false;
  Revision2.CheckJacobiIsZero := true;
  Revision2.SkipZeroAdjointEvaluation := true;
  Revision2.AssignOptimization := true;
  Revision2.ArgumentSizeBits := 8;
  Revision2.StatementInputTag := 255
|}.

(** A tape that only logs the calls it receives, to see which sweeps
    [computeJacobian] runs. *)
Inductive TapeCall : Type :=
  | CallSetGradient (id : Identifier) (dim : Z) (v : Z)
  | CallEvaluateForwardKeepState
  | CallEvaluateForward
  | CallEvaluateKeepState
  | CallEvaluate
  | CallClearAdjoints.

#[export] Instance LoggingTape : TapeOperations (list TapeCall) unit Z := {|
  setGradientAt := fun id dim v log => Ok (log ++ [CallSetGradient id dim v]);
  getGradientAt := fun _ _ _ => Ok 0;
  evaluateForwardKeepState := fun _ _ log => Ok (log ++ [CallEvaluateForwardKeepState]);
  evaluateForward := fun _ _ log => Ok (log ++ [CallEvaluateForward]);
  evaluateKeepState := fun _ _ log => Ok (log ++ [CallEvaluateKeepState]);
  evaluate := fun _ _ log => Ok (log ++ [CallEvaluate]);
  clearAdjoints_range := fun _ _ log => Ok (log ++ [CallClearAdjoints])
|}.

Definition isSweep (c : TapeCall) : bool :=
  match c with
  | CallEvaluateForwardKeepState | CallEvaluateForward
  | CallEvaluateKeepState | CallEvaluate => true
  | _ => false
  end.

(** [computeJacobian] on the logging tape, scalar gradients, with the
    Jacobian as the list of the assignments made to it; the result is the
    list of the sweeps that were run. *)
Definition sweepsOfComputeJacobian (input output : list Identifier)
  : Result (list TapeCall) :=
  r ← computeJacobian (Tape := list TapeCall) (Position := unit) (Jac := list (Z * Z * Z))
        (fun i j v jac => jac ++ [(i, j, v)]) 1 0 1 true true defaultConfig
        [] tt tt input (Z.of_nat (length input)) output (Z.of_nat (length output)) [];
  Ok (filter (fun c => isSweep c = true) r.1).

(** The evaluations among the calls that a logging tape received. *)
Definition sweeps (log : list TapeCall) : list TapeCall :=
  filter (fun c => isSweep c = true) log.

(** The number of seeding rounds of [computeJacobian]: the seeded side has
    [size] identifiers, and each round seeds up to [gradDim] of them. *)
Definition seedingRounds (gradDim size : Z) : nat :=
  Z.to_nat ((size + gradDim - 1) / gradDim).

(** The identifiers whose gradient a logging tape was asked to set to [v],
    in the order of the calls. *)
Definition seededWith (v : Z) (log : list TapeCall) : list Identifier :=
  omap (fun c => match c with
                 | CallSetGradient id _ v' => if v' =? v then Some id else None
                 | _ => None
                 end) log.

(** The identifiers that [setGradientOnIdentifier] does not pass by: all of
    them without [ActiveChecks], the ones of active values with it. *)
Definition seedable (ActiveChecks : bool) (identifiers : list Identifier)
  : list Identifier :=
  filter (fun id => CODI_ENABLE_CHECK ActiveChecks (negb (0 =? id)) = true) identifiers.

(** ** JacobianBaseTape: the forward equation of one statement *)

Section ForwardEquation.
Context {Real Adjoint : Type} `{!Arithmetic Real Adjoint}.

(** The loop [while(curJacobianPos < endJacobianPos) { ...; curJacobianPos += 1; }]
    of [incrementTangents]; [rounds] is the distance to [endJacobianPos], an
    upper bound of the number of rounds. *)
Fixpoint incrementTangents_while (rounds : nat) (curJacobianPos endJacobianPos : Z)
    (adjointVector : list Adjoint) (lhsAdjoint : Adjoint)
    (rhsJacobians : list Real) (rhsIdentifiers : list Identifier)
  : Result (Adjoint * Z) :=
  match rounds with
  | O => Ok (lhsAdjoint, curJacobianPos)
  | S rounds' =>
      if curJacobianPos <? endJacobianPos then
        jac ← array_read rhsJacobians curJacobianPos;
        id ← array_read rhsIdentifiers curJacobianPos;
        a ← array_read adjointVector id;
        incrementTangents_while rounds' (wrap_size_t (curJacobianPos + 1)) endJacobianPos
          adjointVector (Adjoint_add lhsAdjoint (scale jac a))
          rhsJacobians rhsIdentifiers
      else Ok (lhsAdjoint, curJacobianPos)
  end.

(** [JacobianBaseTape::incrementTangents]; returns the updated [lhsAdjoint]
    and [curJacobianPos]. *)
Definition incrementTangents
    (adjointVector : list Adjoint) (lhsAdjoint : Adjoint)
    (numberOfArguments : Z) (curJacobianPos : Z)
    (rhsJacobians : list Real) (rhsIdentifiers : list Identifier)
  : Result (Adjoint * Z) :=
  let endJacobianPos := wrap_size_t (curJacobianPos + numberOfArguments) in
  incrementTangents_while (Z.to_nat (endJacobianPos - curJacobianPos))
    curJacobianPos endJacobianPos adjointVector lhsAdjoint rhsJacobians rhsIdentifiers.

(** What one argument entry contributes in the forward equation. *)
Definition accumulateTangent (adjointVector : list Adjoint)
    (lhsAdjoint : Adjoint) (entry : Real * Identifier) : Adjoint :=
  match adjointVector !! Z.to_nat entry.2 with
  | Some a => Adjoint_add lhsAdjoint (scale entry.1 a)
  | None => lhsAdjoint
  end.

(** The [n] argument entries that start at position [cur], in push order. *)
Definition leadingArguments (n cur : Z)
    (rhsJacobians : list Real) (rhsIdentifiers : list Identifier)
  : list (Real * Identifier) :=
  take (Z.to_nat n) (drop (Z.to_nat cur) (zip rhsJacobians rhsIdentifiers)).

End ForwardEquation.

(** ** BlockData: walking over the items *)

Section BlockDataIteration.
Context {T NestedData A : Type}.

(** The items of a stream that are in use. *)
Definition recorded (d : BlockData T NestedData) : list T :=
  take (Z.to_nat (usedSize (chunk d))) (storage (chunk d)).

(** One call [pHandle.setPointers(dataPos, &chunk); pHandle.call(function, args...)]:
    the function object gets the additional arguments and pointers to the
    entry at [dataPos], through which it may also write. *)
Definition callAt (function : T -> A -> T * A) (dataPos : Z)
    (st : BlockData T NestedData * A) : Result (BlockData T NestedData * A) :=
  x ← array_read (storage (chunk st.1)) dataPos;
  let r := function x st.2 in
  Ok (mkBlockData (mkChunk (<[Z.to_nat dataPos := r.1]> (storage (chunk st.1)))
                           (usedSize (chunk st.1)))
                  (nested st.1), r.2).

(** [forEachForward(start, end, function, args...)], with the positions
    given by their [data] member. *)
Definition forEachForward (start end_ : Z) (function : T -> A -> T * A)
    (d : BlockData T NestedData) (args : A) : Result (BlockData T NestedData * A) :=
  _ ← codiAssert (start <=? end_);
  foldResult (callAt function) (seqZ start (end_ - start)) (d, args).

(** [forEachReverse(start, end, function, args...)]. *)
Definition forEachReverse (start end_ : Z) (function : T -> A -> T * A)
    (d : BlockData T NestedData) (args : A) : Result (BlockData T NestedData * A) :=
  _ ← codiAssert (end_ <=? start);
  foldResult (callAt function) (reverse (seqZ end_ (start - end_))) (d, args).

End BlockDataIteration.

(** ** JacobianBaseTape: data management and manual statements *)

(** The keys of [getParameter] / [setParameter] that the Jacobian base tape
    handles itself; every other key goes to the common tape base. *)
Inductive TapeParameters : Type :=
  | AdjointSize
  | JacobianSize
  | LargestIdentifier
  | StatementSize
  | OtherParameter (key : nat).

Section DataManagement.
Context {Real Gradient IM : Type}.
Context `{!Arithmetic Real Gradient}.
Context `{!IndexManagerInterface IM} `{!DataInterface IM}.

Local Abbreviation Tape := (JacobianBaseTape (Real := Real) (Gradient := Gradient) (IM := IM)).

(** [Chunk::resize] and the two methods of the common tape base are not among
    the sources and are taken as given. *)
Variable Chunk_resize : forall T : Type, Z -> Chunk T -> Chunk T.
Variable Base_getParameter : TapeParameters -> Tape -> Z.
Variable Base_setParameter : TapeParameters -> Z -> Tape -> Result Tape.

(** [BlockData::resize]. *)
Definition BlockData_resize {T N : Type} (totalSize : Z) (d : BlockData T N)
  : BlockData T N :=
  mkBlockData (Chunk_resize T totalSize (chunk d)) (nested d).

(** [deleteAdjointVector()]. *)
Definition deleteAdjointVector (t : Tape) : Tape :=
  set_adjoints (vector_resize 1 (adjoints t)) t.

(** [getParameter(parameter)]; the result is a [size_t]. *)
Definition getParameter (parameter : TapeParameters) (t : Tape) : Z :=
  match parameter with
  | AdjointSize => Z.of_nat (length (adjoints t))
  | JacobianSize => BlockData_getDataSize (jacobianData t)
  | LargestIdentifier => wrap_size_t (getLargestAssignedIndex (indexManager t))
  | StatementSize => BlockData_getDataSize (statementData t)
  | OtherParameter _ => Base_getParameter parameter t
  end.

(** [setParameter(parameter, value)]. *)
Definition setParameter (parameter : TapeParameters) (v : Z) (t : Tape) : Result Tape :=
  match parameter with
  | AdjointSize => Ok (set_adjoints (vector_resize v (adjoints t)) t)
  | JacobianSize =>
      Ok (set_jacobianData (BlockData_resize v (jacobianData t)) t)
  | LargestIdentifier => CODI_EXCEPTION "Tried to set a get only parameter."
  | StatementSize =>
      Ok (set_statementData (BlockData_resize v (statementData t)) t)
  | OtherParameter _ => Base_setParameter parameter v t
  end.

(** [pushJacobiManual(jacobi, value, index)]. *)
Definition pushJacobiManual (jacobi : Real) (index : Identifier) (t : Tape)
  : Result Tape :=
  jd ← pushData (jacobi, index) (jacobianData t);
  Ok (set_jacobianData jd t).

(** [storeManual(lhsValue, lhsIndex, size)], with [size] a value of
    [Config::ArgumentSize]; returns the tape and the new content of
    [lhsIndex]. *)
Definition storeManual (cfg : Config) (lhsIndex : Identifier) (size : Z) (t : Tape)
  : Result (Tape * Identifier) :=
  _ ← reserveItems 1 (statementData t);
  _ ← reserveItems size (jacobianData t);
  let '(im, id, _) := assignIndex (indexManager t) lhsIndex in
  t' ← pushStmtData id (cast_ArgumentSize cfg size) (set_indexManager im t);
  Ok (t', id).

(** The size check that [evaluate(start, end)] and [evaluateForward(start, end)]
    make before they hand [adjoints.data()] to the replay. *)
Definition checkAdjointSizeForEvaluation (t : Tape) : Tape :=
  checkAdjointSize (getLargestAssignedIndex (indexManager t)) t.

End DataManagement.

(** ** EventSystem *)

(** The events of the enumeration [EventSystem::Event]. *)
Inductive Event : Type :=
  | TapeStartRecording
  | TapeStopRecording
  | TapeRegisterInput
  | TapeRegisterOutput
  | TapeEvaluate
  | TapeReset
  | IndexAssign.

#[export] Instance Event_eq_dec : EqDecision Event.
Proof. solve_decision. Defined.

Definition Event_to_nat (e : Event) : nat :=
  match e with
  | TapeStartRecording => 0
  | TapeStopRecording => 1
  | TapeRegisterInput => 2
  | TapeRegisterOutput => 3
  | TapeEvaluate => 4
  | TapeReset => 5
  | IndexAssign => 6
  end.

Definition Event_of_nat (n : nat) : option Event :=
  match n with
  | 0 => Some TapeStartRecording
  | 1 => Some TapeStopRecording
  | 2 => Some TapeRegisterInput
  | 3 => Some TapeRegisterOutput
  | 4 => Some TapeEvaluate
  | 5 => Some TapeReset
  | 6 => Some IndexAssign
  | _ => None
  end%nat.

#[export] Instance Event_countable : Countable Event :=
  inj_countable Event_to_nat Event_of_nat
    (fun e => match e with
              | TapeStartRecording | TapeStopRecording | TapeRegisterInput
              | TapeRegisterOutput | TapeEvaluate | TapeReset | IndexAssign => eq_refl
              end).

Section EventSystem.
(** A callback gets the arguments of the notification and its custom data;
    what it does is a change of the state [World] outside the event
    system. *)
Context {Args CustomData World : Type}.

Definition Callback : Type := Args -> CustomData -> World -> World.

(** [listeners[event]] of the [std::map]: a key that is missing is entered
    with an empty list. *)
Definition listenersAt (event : Event) (listeners : gmap Event (list (Callback * CustomData)))
  : gmap Event (list (Callback * CustomData)) * list (Callback * CustomData) :=
  match listeners !! event with
  | Some l => (listeners, l)
  | None => (<[event := []]> listeners, [])
  end.

(** [internalRegisterListener(event, callback, customData)]. *)
Definition internalRegisterListener (event : Event) (callback : Callback)
    (customData : CustomData) (listeners : gmap Event (list (Callback * CustomData)))
  : gmap Event (list (Callback * CustomData)) :=
  let '(listeners', l) := listenersAt event listeners in
  <[event := l ++ [(callback, customData)]]> listeners'.

(** [internalNotifyListeners(enabled, event, args...)]. *)
Definition internalNotifyListeners (enabled : bool) (event : Event) (args : Args)
    (listeners : gmap Event (list (Callback * CustomData))) (w : World)
  : gmap Event (list (Callback * CustomData)) * World :=
  if enabled then
    let '(listeners', l) := listenersAt event listeners in
    (listeners', fold_left (fun w listener => listener.1 args listener.2 w) l w)
  else (listeners, w).

(** The listeners of [registrations] registered one after the other for
    [event]. *)
Definition registerAll (event : Event) (registrations : list (Callback * CustomData))
    (listeners : gmap Event (list (Callback * CustomData)))
  : gmap Event (list (Callback * CustomData)) :=
  fold_left (fun ls r => internalRegisterListener event r.1 r.2 ls) registrations listeners.

End EventSystem.

(** The sample tape after two inputs were registered (identifiers 1 and 2),
    with an adjoint vector of two slots, the second holding 4. *)
Definition sampleTapeTwoInputs
  : JacobianBaseTape (Real := Z) (Gradient := Z) (IM := ReuseIndexManager) :=
  mkJacobianBaseTape
    (mkBlockData (mkChunk [(0, 0); (0, 0); (0, 0); (0, 0)] 0)
       (mkBlockData (mkChunk [ReuseStatement 0 0; ReuseStatement 0 0] 0)
          (mkReuseIndexManager [] 2)))
    [0; 4] true.

(** ** What recording adds to a stream *)

(** [st'] comes from [st] by appending items that all satisfy [P] to the data
    vector, and by nothing else that touches it. *)
Definition appendedWith {Refs T NestedData : Type} (P : T -> Prop)
    (st st' : Refs * BlockData T NestedData) : Prop :=
  Chunk_wellFormed (chunk st'.2)
  /\ Chunk_getSize (chunk st'.2) = Chunk_getSize (chunk st.2)
  /\ nested st'.2 = nested st.2
  /\ exists new, recorded st'.2 = recorded st.2 ++ new
       /\ Forall P new
       /\ usedSize (chunk st'.2) = usedSize (chunk st.2) + Z.of_nat (length new).

(** An argument entry that the checks of the recording let through: its
    identifier is not the one of passive values when [Config::CheckZeroIndex]
    is on, and its Jacobian is not zero when [Config::CheckJacobiIsZero] is
    on. *)
Definition passesChecks {Real Adjoint : Type} `{!Arithmetic Real Adjoint}
    (cfg : Config) (entry : Real * Identifier) : Prop :=
  CODI_ENABLE_CHECK (CheckZeroIndex cfg) (negb (0 =? entry.2)) = true
  /\ CODI_ENABLE_CHECK (CheckJacobiIsZero cfg) (negb (isTotalZeroReal entry.1)) = true.

(** Modelled from the spec: the Linear policy of section 4.2, for sample runs
    under linear index management: [assignIndex] always returns the counter
    plus one, [freeIndex] is a no-op, copying an identifier needs no
    statement, and identifiers are reclaimed by a full reset only. *)
Record LinearIndexManager : Type := mkLinearIndexManager {
  counter : Identifier
}.

#[export] Instance Linear_IndexManagerInterface : IndexManagerInterface LinearIndexManager | 100 := {|
  CopyNeedsStatement := false;
  IsLinear := true;
  assignIndex := fun im _ => (mkLinearIndexManager (counter im + 1), counter im + 1, true);
  assignUnusedIndex := fun im _ =>
    (mkLinearIndexManager (counter im + 1), counter im + 1, true);
  copyIndex := fun im _ rhs => (im, rhs);
  freeIndex := fun im index => (im, index);
  getLargestAssignedIndex := counter;
  reset := fun _ => mkLinearIndexManager 0
|}.

#[export] Instance Linear_DataInterface : DataInterface LinearIndexManager | 100 := {|
  Position := EmptyPosition;
  getPosition := fun _ => mkEmptyPosition;
  getZeroPosition := fun _ => mkEmptyPosition;
  resetTo := fun _ im => Ok im
|}.

(** A tape under linear index management with room for two statements and
    four argument entries, nothing recorded. *)
Definition sampleLinearTape
  : JacobianBaseTape (Real := Z) (Gradient := Z) (IM := LinearIndexManager) :=
  mkJacobianBaseTape
    (mkBlockData (mkChunk [(0, 0); (0, 0); (0, 0); (0, 0)] 0)
       (mkBlockData (mkChunk [LinearStatement 0; LinearStatement 0] 0)
          (mkLinearIndexManager 0)))
    [0] true.

(** ** One reference object in a right hand side *)

Section ReferenceOccurrences.
Context {Real Adjoint : Type} `{!Arithmetic Real Adjoint}.

(** The argument entries that the first traversal of [pushJacobians] pushes
    itself: those of the [ActiveType] leaves that pass the three checks of
    [handleJacobianOnActive], in the order of the leaves. *)
Definition directEntries (cfg : Config) (terms : list (Real * Node))
  : list (Real * Identifier) :=
  omap (fun term : Real * Node =>
          match term.2 with
          | ActiveNode id =>
              if CODI_ENABLE_CHECK (CheckZeroIndex cfg) (negb (0 =? id))
                 && CODI_ENABLE_CHECK (IgnoreInvalidJacobies cfg) (isTotalFinite term.1)
                 && CODI_ENABLE_CHECK (CheckJacobiIsZero cfg)
                      (negb (isTotalZeroReal term.1))
              then Some (term.1, id) else None
          | ReferenceNode _ _ => None
          end) terms.

(** The partials that the first traversal adds to the [jacobian] member of
    the reference object [r]: those of its occurrences that pass the check of
    [Config::IgnoreInvalidJacobies], in the order of the leaves. *)
Definition referencePartials (cfg : Config) (r : nat) (terms : list (Real * Node))
  : list Real :=
  omap (fun term : Real * Node =>
          match term.2 with
          | ActiveNode _ => None
          | ReferenceNode r' _ =>
              if bool_decide (r' = r)
                 && CODI_ENABLE_CHECK (IgnoreInvalidJacobies cfg) (isTotalFinite term.1)
              then Some term.1 else None
          end) terms.

(** The member of the object [r] after these partials were added to it. *)
Definition accumulated (r : nat) (partials : list Real) (refs : gmap nat Real)
  : gmap nat Real :=
  fold_left (fun refs j => <[r := Real_add (refJacobian refs r) j]> refs) partials refs.

(** A leaf that is not a reference, or is the reference object [r], which
    refers to the variable with the identifier [id]. *)
Definition onlyReference (r : nat) (id : Identifier) (node : Node) : Prop :=
  match node with
  | ActiveNode _ => True
  | ReferenceNode r' id' => r' = r /\ id' = id
  end.

End ReferenceOccurrences.

(** * Properties *)

Section StatementEquationsFacts.
Context {Real Adjoint : Type} `{!Arithmetic Real Adjoint}.

Lemma array_read_Ok {A} (a : list A) (i : nat) (x : A) :
  a !! i = Some x -> array_read a (Z.of_nat i) = Ok x.
Proof.
  intros Hx. unfold array_read.
  destruct (Z.leb_spec 0 (Z.of_nat i)); [|lia].
  by rewrite Nat2Z.id, Hx.
Qed.

Lemma insert_as_alter {A} (l : list A) (i : nat) (x : A) (f : A -> A) :
  l !! i = Some x -> <[i := f x]> l = alter f i l.
Proof.
  intros Hx. apply list_eq. intros j.
  destruct (decide (i = j)) as [->|Hne].
  - rewrite list_lookup_insert_eq by (by eapply lookup_lt_Some).
    by rewrite list_lookup_alter_eq, Hx.
  - by rewrite list_lookup_insert_ne, list_lookup_alter_ne.
Qed.

Lemma accumulateArgument_length (lhs : Adjoint) adj (e : Real * Identifier) :
  length (accumulateArgument lhs adj e) = length adj.
Proof. unfold accumulateArgument. by rewrite length_alter. Qed.

(** The loop, run from [cur] down to [e], folds the entries of the segment
    [[e, cur)] from the last pushed to the first. *)
Lemma incrementAdjoints_while_fold (lhs : Adjoint) (jacs : list Real) (ids : list Identifier) :
  forall (cur e : nat) (adj : list Adjoint),
    (e <= cur)%nat ->
    (cur <= length jacs)%nat -> (cur <= length ids)%nat ->
    Forall (fun en : Real * Identifier => 0 <= en.2 < Z.of_nat (length adj))
           (take (cur - e) (drop e (zip jacs ids))) ->
    incrementAdjoints_while cur (Z.of_nat e) adj lhs jacs ids
    = Ok (fold_left (accumulateArgument lhs)
                    (reverse (take (cur - e) (drop e (zip jacs ids)))) adj,
          Z.of_nat e).
Proof.
  induction cur as [|cur IH]; intros e adj He Hj Hi Hin.
  - assert (e = 0%nat) as -> by lia. reflexivity.
  - cbn [incrementAdjoints_while].
    destruct (Z.ltb_spec (Z.of_nat e) (Z.of_nat (S cur))) as [Hlt|Hge].
    + assert (He' : (e <= cur)%nat) by lia.
      destruct (lookup_lt_is_Some_2 jacs cur) as [jac Hjac]; [lia|].
      destruct (lookup_lt_is_Some_2 ids cur) as [id Hid]; [lia|].
      assert (Hseg : take (S cur - e) (drop e (zip jacs ids))
                     = take (cur - e) (drop e (zip jacs ids)) ++ [(jac, id)]).
      { replace (S cur - e)%nat with (S (cur - e)) by lia.
        apply take_S_r. rewrite lookup_drop.
        replace (e + (cur - e))%nat with cur by lia.
        unfold zip. apply lookup_zip_with_Some. eauto. }
      rewrite Hseg in Hin |- *.
      apply Forall_app in Hin as [Hin Hlast].
      rewrite Forall_singleton in Hlast. cbn in Hlast.
      rewrite (array_read_Ok _ _ _ Hid). cbn [mbind Result_bind].
      rewrite (array_read_Ok _ _ _ Hjac). cbn [mbind Result_bind].
      destruct (lookup_lt_is_Some_2 adj (Z.to_nat id)) as [a Ha]; [lia|].
      replace id with (Z.of_nat (Z.to_nat id)) at 1 by lia.
      rewrite (array_read_Ok _ _ _ Ha). cbn [mbind Result_bind].
      rewrite (insert_as_alter adj _ a (fun a => Adjoint_add a (scale jac lhs)) Ha).
      rewrite reverse_app, reverse_singleton. cbn [app fold_left].
      change (alter _ _ adj) with (accumulateArgument lhs adj (jac, id)).
      apply IH; try lia.
      by rewrite accumulateArgument_length.
    + assert (e = S cur) as -> by lia.
      rewrite Nat.sub_diag, take_0. reflexivity.
Qed.

End StatementEquationsFacts.

(** ** Reverse replay of one statement *)

Section IncrementAdjoints.
Context {Real Adjoint : Type} `{!Arithmetic Real Adjoint}.

Lemma trailingArguments_length (n cur : Z) (jacs : list Real) (ids : list Identifier) :
  0 <= n <= cur ->
  cur <= Z.of_nat (length jacs) -> cur <= Z.of_nat (length ids) ->
  length (trailingArguments n cur jacs ids) = Z.to_nat n.
Proof.
  intros Hn Hj Hi. unfold trailingArguments.
  rewrite length_take, length_drop, length_zip. lia.
Qed.

Lemma fold_accumulateArgument_id (lhs : Adjoint) (es : list (Real * Identifier)) :
  (forall a j, Adjoint_add a (scale j lhs) = a) ->
  forall adj, fold_left (accumulateArgument lhs) es adj = adj.
Proof.
  intros Hid. induction es as [|e es IH]; intros adj; [done|].
  cbn [fold_left]. unfold accumulateArgument at 2.
  rewrite list_alter_id by (intros; apply Hid). apply IH.
Qed.

(** C1.  Reverse replay of one statement: [incrementAdjoints] consumes
    exactly the [numberOfArguments] argument entries that end at
    [curJacobianPos], from the last pushed to the first, leaves
    [curJacobianPos] that many entries lower, and for every consumed
    (partial, input identifier) entry increments the adjoint slot of the input
    by [partial * lhsAdjoint].  The entries have to lie on the tape and name
    slots of the adjoint vector; where an exactly-zero [lhsAdjoint] makes the
    tape leave out the accumulation, an increment by [partial * lhsAdjoint]
    is taken to change nothing. *)
Theorem incrementAdjoints_consumes_trailing_arguments
    (cfg : Config) (adjointVector : list Adjoint) (lhsAdjoint : Adjoint)
    (numberOfArguments curJacobianPos : Z)
    (rhsJacobians : list Real) (rhsIdentifiers : list Identifier) :
  0 <= numberOfArguments <= curJacobianPos ->
  curJacobianPos < size_t_modulus ->
  curJacobianPos <= Z.of_nat (length rhsJacobians) ->
  curJacobianPos <= Z.of_nat (length rhsIdentifiers) ->
  Forall (fun entry : Real * Identifier =>
            0 <= entry.2 < Z.of_nat (length adjointVector))
         (trailingArguments numberOfArguments curJacobianPos rhsJacobians rhsIdentifiers) ->
  (SkipZeroAdjointEvaluation cfg = true -> isTotalZero lhsAdjoint = true ->
   forall a j, Adjoint_add a (scale j lhsAdjoint) = a) ->
  length (trailingArguments numberOfArguments curJacobianPos rhsJacobians rhsIdentifiers)
    = Z.to_nat numberOfArguments
  /\ incrementAdjoints cfg adjointVector lhsAdjoint numberOfArguments curJacobianPos
       rhsJacobians rhsIdentifiers
     = Ok (fold_left (accumulateArgument lhsAdjoint)
             (reverse (trailingArguments numberOfArguments curJacobianPos
                         rhsJacobians rhsIdentifiers))
             adjointVector,
           curJacobianPos - numberOfArguments).
Proof.
  intros Hn Hmax Hj Hi Hin Hzero.
  split; [by apply trailingArguments_length|].
  unfold incrementAdjoints, wrap_size_t.
  rewrite Z.mod_small by lia.
  destruct (CODI_ENABLE_CHECK _ _) eqn:Hcheck.
  - replace (curJacobianPos - numberOfArguments)
      with (Z.of_nat (Z.to_nat (curJacobianPos - numberOfArguments))) at 1 2 by lia.
    rewrite incrementAdjoints_while_fold; try lia.
    + unfold trailingArguments.
      replace (Z.to_nat curJacobianPos - Z.to_nat (curJacobianPos - numberOfArguments))%nat
        with (Z.to_nat numberOfArguments) by lia.
      reflexivity.
    + unfold trailingArguments in Hin.
      replace (Z.to_nat curJacobianPos - Z.to_nat (curJacobianPos - numberOfArguments))%nat
        with (Z.to_nat numberOfArguments) by lia.
      exact Hin.
  - unfold CODI_ENABLE_CHECK in Hcheck.
    apply orb_false_iff in Hcheck as [Hskip Hlhs].
    apply negb_false_iff in Hskip, Hlhs.
    by rewrite fold_accumulateArgument_id by (by apply Hzero).
Qed.

(** C2.  Sparsity skip: with [Config::SkipZeroAdjointEvaluation] on, a
    statement whose [lhsAdjoint] is exactly zero leaves the whole adjoint
    vector, hence the slots of all its inputs, unchanged; only
    [curJacobianPos] moves past its arguments. *)
Theorem incrementAdjoints_zero_adjoint_skips
    (cfg : Config) (adjointVector : list Adjoint) (lhsAdjoint : Adjoint)
    (numberOfArguments curJacobianPos : Z)
    (rhsJacobians : list Real) (rhsIdentifiers : list Identifier) :
  SkipZeroAdjointEvaluation cfg = true ->
  isTotalZero lhsAdjoint = true ->
  incrementAdjoints cfg adjointVector lhsAdjoint numberOfArguments curJacobianPos
    rhsJacobians rhsIdentifiers
  = Ok (adjointVector, wrap_size_t (curJacobianPos - numberOfArguments)).
Proof.
  intros Hskip Hzero. unfold incrementAdjoints, CODI_ENABLE_CHECK.
  by rewrite Hskip, Hzero.
Qed.

End IncrementAdjoints.

(** The statement [y = a * b] with [a = 2], [b = 3] at identifiers 1 and 2:
    two argument entries [(3, 1)] and [(2, 2)]; [y] has identifier 3 and the
    seed 1. *)
Lemma incrementAdjoints_consumes_trailing_arguments_witness :
  let adj := [0; 0; 0; 1] in
  let jacs := [3; 2] in
  let ids := [1; 2] in
  (0 <= 2 <= 2) /\ 2 < size_t_modulus /\
  2 <= Z.of_nat (length jacs) /\ 2 <= Z.of_nat (length ids) /\
  length (trailingArguments 2 2 jacs ids) = Z.to_nat 2 /\
  incrementAdjoints defaultConfig adj 1 2 2 jacs ids = Ok ([0; 3; 2; 1], 0).
Proof.
  intros adj jacs ids.
  split; [lia|]. split; [reflexivity|]. split; [simpl; lia|]. split; [simpl; lia|].
  refine (incrementAdjoints_consumes_trailing_arguments
            defaultConfig adj 1 2 2 jacs ids _ _ _ _ _ _).
  - lia.
  - reflexivity.
  - simpl; lia.
  - simpl; lia.
  - repeat constructor; simpl; lia.
  - intros _ Hz. discriminate Hz.
Defined.

Lemma incrementAdjoints_zero_adjoint_skips_witness :
  SkipZeroAdjointEvaluation defaultConfig = true /\
  isTotalZero (0 : Z) = true /\
  incrementAdjoints defaultConfig [0; 7; 0; 0] 0 2 2 [3; 2] [1; 2]
  = Ok ([0; 7; 0; 0], wrap_size_t (2 - 2)).
Proof.
  split; [reflexivity|]. split; [reflexivity|].
  apply (incrementAdjoints_zero_adjoint_skips defaultConfig); reflexivity.
Defined.

(** ** The block data stream *)

Section BlockDataFacts.
Context {T NestedData : Type}.

Lemma Chunk_pushData_Ok (x : T) (c : Chunk T) :
  Chunk_wellFormed c -> usedSize c < Chunk_getSize c ->
  exists c', Chunk_pushData x c = Ok c'
    /\ usedSize c' = usedSize c + 1
    /\ Chunk_getSize c' = Chunk_getSize c
    /\ Chunk_wellFormed c'.
Proof.
  intros [Hused Hsize] Hfree. unfold Chunk_pushData.
  destruct (Z.ltb_spec (usedSize c) (Chunk_getSize c)); [|lia].
  cbn. eexists. split; [reflexivity|].
  unfold Chunk_wellFormed, Chunk_getSize, wrap_size_t in *. cbn.
  rewrite length_insert, Z.mod_small by lia. lia.
Qed.

Lemma Chunk_pushData_inv (x : T) (c c' : Chunk T) :
  Chunk_pushData x c = Ok c' ->
  Chunk_getSize c' = Chunk_getSize c
  /\ usedSize c' = wrap_size_t (usedSize c + 1)
  /\ usedSize c < Chunk_getSize c.
Proof.
  unfold Chunk_pushData.
  destruct (Z.ltb_spec (usedSize c) (Chunk_getSize c)); cbn; [|discriminate].
  intros [= <-]. unfold Chunk_getSize. cbn. by rewrite length_insert.
Qed.

Lemma pushData_inv (x : T) (d d' : BlockData T NestedData) :
  pushData x d = Ok d' ->
  Chunk_pushData x (chunk d) = Ok (chunk d') /\ nested d' = nested d.
Proof.
  unfold pushData. destruct (Chunk_pushData x (chunk d)); cbn; [|discriminate].
  by intros [= <-].
Qed.

(** A run of pushes that fits into the free slots returns, and moves the
    tail offset by its length. *)
Lemma pushDataAll_Ok (xs : list T) :
  forall d : BlockData T NestedData,
    Chunk_wellFormed (chunk d) ->
    usedSize (chunk d) + Z.of_nat (length xs) <= Chunk_getSize (chunk d) ->
    exists d', pushDataAll xs d = Ok d'
      /\ usedSize (chunk d') = usedSize (chunk d) + Z.of_nat (length xs)
      /\ Chunk_getSize (chunk d') = Chunk_getSize (chunk d)
      /\ nested d' = nested d
      /\ Chunk_wellFormed (chunk d').
Proof.
  induction xs as [|x xs IH]; intros d Hwf Hfit.
  - exists d. cbn. repeat split; try done; try lia; apply Hwf.
  - cbn [length] in Hfit. cbn [pushDataAll].
    destruct (Chunk_pushData_Ok x (chunk d) Hwf) as (c & Hc & Hu & Hs & Hwf'); [lia|].
    unfold pushData. rewrite Hc. cbn [mbind Result_bind].
    destruct (IH (mkBlockData c (nested d))) as (d' & Hd' & Hu' & Hs' & Hn' & Hw');
      cbn; [done|lia|].
    exists d'. cbn in *. repeat split; try done; try lia; apply Hw'.
Qed.

(** A run of pushes that returned moved the tail offset by its length. *)
Lemma pushDataAll_inv (xs : list T) :
  forall d d' : BlockData T NestedData,
    Chunk_wellFormed (chunk d) ->
    pushDataAll xs d = Ok d' ->
    usedSize (chunk d') = usedSize (chunk d) + Z.of_nat (length xs)
    /\ Chunk_wellFormed (chunk d').
Proof.
  induction xs as [|x xs IH]; intros d d' Hwf Hrun.
  - injection Hrun as <-. split; [cbn; lia|done].
  - cbn [pushDataAll] in Hrun.
    destruct (pushData x d) as [d1|e] eqn:Hpush; [|discriminate].
    cbn [mbind Result_bind] in Hrun.
    apply pushData_inv in Hpush as [Hc _].
    apply Chunk_pushData_inv in Hc as (Hsize & Hused & Hfree).
    unfold wrap_size_t in Hused.
    rewrite Z.mod_small in Hused by (destruct Hwf; lia).
    destruct (IH d1 d') as [Hu Hwf']; [|done|].
    + destruct Hwf. split; lia.
    + split; [cbn [length]; lia|done].
Qed.

(** C8.  After [reserveItems(n)] returned the handle and [k <= n] items were
    pushed with no other call in between, [getPushedDataCount(handle)] is
    [k], the difference of the used size now and the used size at the
    reservation.  The pushes do return, [n] being small enough for
    [usedSize + n] to be a [size_t]. *)
Theorem getPushedDataCount_counts_pushes
    (d : BlockData T NestedData) (n : Z) (handle : InternalPosHandle) (xs : list T) :
  Chunk_wellFormed (chunk d) ->
  0 <= n ->
  reserveItems n d = Ok handle ->
  Z.of_nat (length xs) <= n ->
  handle = Chunk_getUsedSize (chunk d)
  /\ (forall d', pushDataAll xs d = Ok d' ->
        getPushedDataCount d' handle = Z.of_nat (length xs)
        /\ getPushedDataCount d' handle = Chunk_getUsedSize (chunk d') - handle)
  /\ (Chunk_getUsedSize (chunk d) + n < size_t_modulus ->
        exists d', pushDataAll xs d = Ok d').
Proof.
  intros Hwf Hn Hres Hk.
  assert (Hhandle : handle = Chunk_getUsedSize (chunk d)).
  { unfold reserveItems in Hres.
    destruct (codiAssert _); cbn in Hres; [by injection Hres|discriminate]. }
  split; [done|]. subst handle. unfold Chunk_getUsedSize in *. split.
  - intros d' Hrun.
    destruct (pushDataAll_inv xs d d' Hwf Hrun) as [Hu [Hused' Hsize']].
    unfold getPushedDataCount, Chunk_getUsedSize, wrap_size_t.
    rewrite Z.mod_small by (destruct Hwf; lia). lia.
  - intros Hnowrap.
    unfold reserveItems, Chunk_getUsedSize, wrap_size_t in Hres.
    rewrite Z.mod_small in Hres by (destruct Hwf; lia).
    destruct (Z.leb_spec (usedSize (chunk d) + n) (Chunk_getSize (chunk d)));
      cbn in Hres; [|discriminate].
    destruct (pushDataAll_Ok xs d Hwf) as (d' & Hd' & _); [lia|].
    by exists d'.
Qed.

End BlockDataFacts.

Lemma getPushedDataCount_counts_pushes_witness :
  Chunk_wellFormed (chunk sampleJacobianData) /\
  0 <= 3 /\
  reserveItems 3 sampleJacobianData = Ok 0 /\
  Z.of_nat (length [(5, 1); (7, 2)]) <= 3 /\
  0 = Chunk_getUsedSize (chunk sampleJacobianData)
  /\ (forall d', pushDataAll [(5, 1); (7, 2)] sampleJacobianData = Ok d' ->
        getPushedDataCount d' 0 = 2
        /\ getPushedDataCount d' 0 = Chunk_getUsedSize (chunk d') - 0)
  /\ (Chunk_getUsedSize (chunk sampleJacobianData) + 3 < size_t_modulus ->
        exists d', pushDataAll [(5, 1); (7, 2)] sampleJacobianData = Ok d').
Proof.
  assert (Hwf : Chunk_wellFormed (chunk sampleJacobianData)).
  { unfold Chunk_wellFormed, Chunk_getSize, size_t_modulus; simpl; lia. }
  split; [exact Hwf|]. split; [lia|].
  split; [reflexivity|]. split; [simpl; lia|].
  refine (getPushedDataCount_counts_pushes sampleJacobianData 3 0
            [(5, 1); (7, 2)] Hwf _ _ _).
  - lia.
  - reflexivity.
  - simpl; lia.
Defined.

Example pushDataAll_sample :
  pushDataAll [(5, 1); (7, 2)] sampleJacobianData
  = Ok (mkBlockData (mkChunk [(5, 1); (7, 2); (0, 0); (0, 0)] 2) sampleStatementData).
Proof. reflexivity. Qed.

(** ** Rewinding a nesting of streams *)

Lemma resetTo_terminal {D : Type} `{!DataInterface D} `{!DataSizes D} :
  (forall (p : Position D) (d : D), resetTo p d = Ok d) ->
  (forall d d' : D, getPosition d = getPosition d') ->
  (forall d d' : D, usedSizes d = usedSizes d') ->
  forall d d' : D, True -> True ->
    exists d'', resetTo (getPosition d) d' = Ok d''
      /\ getPosition d'' = getPosition d
      /\ usedSizes d'' = usedSizes d
      /\ allocatedSizes d'' = allocatedSizes d'.
Proof.
  intros Hreset Hpos Hused d d' _ _. exists d'.
  rewrite Hreset. repeat split; [apply Hpos|apply Hused].
Qed.

Lemma True_PreOrder {D : Type} : PreOrder (fun _ _ : D => True).
Proof. by split. Qed.

#[export] Instance EmptyData_Laws : DataInterfaceLaws EmptyData := {|
  wellFormed := fun _ : EmptyData => True;
  recordsFurther := fun _ _ : EmptyData => True;
  recordsFurther_PreOrder := True_PreOrder;
  resetTo_recordsFurther :=
    resetTo_terminal (D := EmptyData) (fun _ _ => eq_refl) (fun _ _ => eq_refl) (fun _ _ => eq_refl)
|}.

#[export] Instance Reuse_Laws : DataInterfaceLaws ReuseIndexManager := {|
  wellFormed := fun _ : ReuseIndexManager => True;
  recordsFurther := fun _ _ : ReuseIndexManager => True;
  recordsFurther_PreOrder := True_PreOrder;
  resetTo_recordsFurther :=
    resetTo_terminal (D := ReuseIndexManager) (fun _ _ => eq_refl) (fun _ _ => eq_refl) (fun _ _ => eq_refl)
|}.

Section ResetTo.
Context {T NestedData : Type}.
Context `{!DataInterface NestedData} `{!DataSizes NestedData}.
Context `{!DataInterfaceLaws NestedData}.

(** Recording keeps the allocated slots of the stream, and records further
    into the nested stream. *)
Lemma BlockData_records_keeps (d d' : BlockData T NestedData) :
  rtc (BlockData_records recordsFurther) d d' ->
  Chunk_getSize (chunk d') = Chunk_getSize (chunk d)
  /\ recordsFurther (nested d) (nested d').
Proof.
  pose proof recordsFurther_PreOrder as Hpre.
  induction 1 as [d|d d1 d' Hstep _ [IHsize IHnested]].
  - split; [done|reflexivity].
  - destruct Hstep as [d d1 x Hpush|d n' Hn].
    + apply pushData_inv in Hpush as [Hc Hnest].
      apply Chunk_pushData_inv in Hc as (Hsize & _ & _).
      split; [congruence|]. by rewrite <- Hnest.
    + cbn in *. split; [done|]. by etransitivity.
Qed.

Lemma BlockData_resetTo_after_records (d d' : BlockData T NestedData) :
  Chunk_wellFormed (chunk d) -> wellFormed (nested d) ->
  rtc (BlockData_records recordsFurther) d d' ->
  exists d'', resetTo (getPosition d) d' = Ok d''
    /\ getPosition d'' = getPosition d
    /\ usedSizes d'' = usedSizes d
    /\ allocatedSizes d'' = allocatedSizes d'
    /\ storage (chunk d'') = storage (chunk d').
Proof.
  intros [Hused _] Hwf Hrec.
  apply BlockData_records_keeps in Hrec as [Hsize Hnested].
  destruct (resetTo_recordsFurther _ _ Hwf Hnested) as (n'' & Hn & Hpos & Hu & Ha).
  cbn. unfold BlockData_resetTo, BlockData_getPosition, Chunk_getUsedSize. cbn.
  destruct (Z.leb_spec (usedSize (chunk d)) (Chunk_getSize (chunk d'))); [|lia].
  cbn. rewrite Hn. cbn. eexists. split; [reflexivity|].
  cbn. unfold BlockData_getPosition. cbn.
  rewrite Hpos, Hu, Ha. done.
Qed.

Lemma BlockData_resetTo_law (d d' : BlockData T NestedData) :
  Chunk_wellFormed (chunk d) /\ wellFormed (nested d) ->
  rtc (BlockData_records recordsFurther) d d' ->
  exists d'', resetTo (getPosition d) d' = Ok d''
    /\ getPosition d'' = getPosition d
    /\ usedSizes d'' = usedSizes d
    /\ allocatedSizes d'' = allocatedSizes d'.
Proof.
  intros [Hc Hn] Hrec.
  destruct (BlockData_resetTo_after_records d d' Hc Hn Hrec) as (d'' & H1 & H2 & H3 & H4 & _).
  by exists d''.
Qed.

#[export] Instance BlockData_Laws : DataInterfaceLaws (BlockData T NestedData) := {|
  wellFormed := fun d => Chunk_wellFormed (chunk d) /\ wellFormed (nested d);
  recordsFurther := rtc (BlockData_records recordsFurther);
  recordsFurther_PreOrder := rtc_po;
  resetTo_recordsFurther := BlockData_resetTo_law
|}.

(** C6.  Round trip: after [pos = getPosition()] was captured and any further
    data was pushed into the stream and the streams nested in it,
    [resetTo(pos)] returns; the position of the stream is [pos] again, so the
    used size of the stream and of every nested stream has its value at the
    capture, and the allocated size of every stream and the slots of the
    stream are what they were before the reset. *)
Theorem BlockData_resetTo_restores_used_sizes (d d' : BlockData T NestedData) :
  Chunk_wellFormed (chunk d) -> wellFormed (nested d) ->
  rtc (BlockData_records recordsFurther) d d' ->
  exists d'', BlockData_resetTo (BlockData_getPosition d) d' = Ok d''
    /\ BlockData_getPosition d'' = BlockData_getPosition d
    /\ usedSizes d'' = usedSizes d
    /\ allocatedSizes d'' = allocatedSizes d'
    /\ storage (chunk d'') = storage (chunk d').
Proof. apply BlockData_resetTo_after_records. Qed.

End ResetTo.

(** One argument entry and one statement entry recorded on the sample
    streams. *)
Lemma sampleJacobianData_records :
  rtc (BlockData_records recordsFurther) sampleJacobianData
    (mkBlockData (mkChunk [(5, 1); (0, 0); (0, 0); (0, 0)] 1)
       (mkBlockData (mkChunk [ReuseStatement 1 1; ReuseStatement 0 0] 1)
          (mkReuseIndexManager [] 1))).
Proof.
  eapply rtc_l; [by eapply (records_pushData _ _ _ (5, 1))|].
  eapply rtc_l; [|apply rtc_refl].
  apply (records_nested _ (mkBlockData _ sampleStatementData)
           (mkBlockData (mkChunk [ReuseStatement 1 1; ReuseStatement 0 0] 1)
              (mkReuseIndexManager [] 1))).
  cbn. eapply rtc_l; [by eapply (records_pushData _ _ _ (ReuseStatement 1 1))|].
  eapply rtc_l; [|apply rtc_refl].
  by apply (records_nested _ (mkBlockData _ (mkReuseIndexManager [] 0))
              (mkReuseIndexManager [] 1)).
Defined.

Lemma BlockData_resetTo_restores_used_sizes_witness :
  Chunk_wellFormed (chunk sampleJacobianData) /\
  wellFormed (nested sampleJacobianData) /\
  exists d'',
    BlockData_resetTo (BlockData_getPosition sampleJacobianData)
      (mkBlockData (mkChunk [(5, 1); (0, 0); (0, 0); (0, 0)] 1)
         (mkBlockData (mkChunk [ReuseStatement 1 1; ReuseStatement 0 0] 1)
            (mkReuseIndexManager [] 1))) = Ok d''
    /\ BlockData_getPosition d'' = BlockData_getPosition sampleJacobianData
    /\ usedSizes d'' = [0; 0]
    /\ allocatedSizes d'' = [4; 2]
    /\ storage (chunk d'') = [(5, 1); (0, 0); (0, 0); (0, 0)].
Proof.
  assert (Hwf : Chunk_wellFormed (chunk sampleJacobianData)).
  { unfold Chunk_wellFormed, Chunk_getSize, size_t_modulus; simpl; lia. }
  assert (Hwf' : wellFormed (nested sampleJacobianData)).
  { split; [|exact I].
    unfold Chunk_wellFormed, Chunk_getSize, size_t_modulus; simpl; lia. }
  split; [exact Hwf|]. split; [exact Hwf'|].
  exact (BlockData_resetTo_restores_used_sizes sampleJacobianData _ Hwf Hwf'
           sampleJacobianData_records).
Defined.

(** ** Recording a statement *)

Section PushJacobians.
Context {Real Gradient IM : Type}.
Context `{!Arithmetic Real Gradient}.

Local Abbreviation JacobianData := (BlockData (Real * Identifier) (BlockData StatementEntry IM)).

Lemma pushedAtMost_refl {Refs} (w : nat) (st : Refs * JacobianData) (refs' : Refs) :
  Chunk_wellFormed (chunk st.2) -> pushedAtMost w st (refs', st.2).
Proof. intros Hwf. unfold pushedAtMost. cbn. repeat split; try done; try lia; apply Hwf. Qed.

Lemma pushedAtMost_pushData {Refs} (x : Real * Identifier)
    (refs refs' : Refs) (jd : JacobianData) :
  Chunk_wellFormed (chunk jd) -> usedSize (chunk jd) + 1 <= Chunk_getSize (chunk jd) ->
  exists jd', pushData x jd = Ok jd' /\ pushedAtMost 1 (refs, jd) (refs', jd').
Proof.
  intros Hwf Hfree.
  destruct (Chunk_pushData_Ok x (chunk jd) Hwf) as (c & Hc & Hu & Hs & Hwf'); [lia|].
  exists (mkBlockData c (nested jd)). unfold pushData. rewrite Hc.
  split; [done|]. unfold pushedAtMost. cbn. repeat split; try done; try lia; apply Hwf'.
Qed.

Lemma handleJacobianOnActive_pushes (cfg : Config) (term : Real * Node)
    (st : gmap nat Real * JacobianData) :
  Chunk_wellFormed (chunk st.2) ->
  usedSize (chunk st.2) + Z.of_nat (directPushes term) <= Chunk_getSize (chunk st.2) ->
  exists st', handleJacobianOnActive cfg term st = Ok st'
    /\ pushedAtMost (directPushes term) st st'.
Proof.
  destruct term as [jacobian [id|ref id]], st as [refs jd]; cbn; intros Hwf Hfree.
  - destruct (pushedAtMost_pushData (jacobian, id) refs refs jd Hwf Hfree)
      as (jd' & Hpush & Hmost).
    repeat (destruct (CODI_ENABLE_CHECK _ _));
      try (eexists; split; [reflexivity|by apply (pushedAtMost_refl 1 (refs, jd))]).
    rewrite Hpush. cbn. eauto.
  - destruct (CODI_ENABLE_CHECK _ _);
      (eexists; split; [reflexivity|by apply (pushedAtMost_refl 0 (refs, jd))]).
Qed.

Lemma handleActive_pushes (cfg : Config) (node : Node)
    (st : gmap nat Real * JacobianData) :
  Chunk_wellFormed (chunk st.2) ->
  usedSize (chunk st.2) + Z.of_nat (delayedPushes node) <= Chunk_getSize (chunk st.2) ->
  exists st', handleActive cfg node st = Ok st'
    /\ pushedAtMost (delayedPushes node) st st'.
Proof.
  destruct node as [id|ref id], st as [refs jd]; cbn; intros Hwf Hfree.
  - eexists; split; [reflexivity|by apply (pushedAtMost_refl 0 (refs, jd))].
  - destruct (pushedAtMost_pushData (refJacobian refs ref, id) refs
                (<[ref := Real_zero]> refs) jd Hwf Hfree) as (jd' & Hpush & Hmost).
    repeat (destruct (CODI_ENABLE_CHECK _ _));
      try (eexists; split; [reflexivity|by apply (pushedAtMost_refl 1 (refs, jd))]).
    rewrite Hpush. cbn. eauto.
Qed.

(** A traversal whose steps push at most their weight pushes at most the
    sum of the weights, and returns when that many slots are free. *)
Lemma foldResult_pushes {A} (f : A -> gmap nat Real * JacobianData
                                  -> Result (gmap nat Real * JacobianData))
    (w : A -> nat) :
  (forall x st, Chunk_wellFormed (chunk st.2) ->
     usedSize (chunk st.2) + Z.of_nat (w x) <= Chunk_getSize (chunk st.2) ->
     exists st', f x st = Ok st' /\ pushedAtMost (w x) st st') ->
  forall l st, Chunk_wellFormed (chunk st.2) ->
    usedSize (chunk st.2) + Z.of_nat (sum_list (w <$> l)) <= Chunk_getSize (chunk st.2) ->
    exists st', foldResult f l st = Ok st' /\ pushedAtMost (sum_list (w <$> l)) st st'.
Proof.
  intros Hstep. induction l as [|x l IH]; intros st Hwf Hfree.
  - exists st. split; [done|]. destruct st. by apply (pushedAtMost_refl 0 (_, _)).
  - csimpl in *.
    destruct (Hstep x st Hwf) as (st1 & Hf & Hwf1 & Hs1 & Hn1 & Hu1 & Heq1); [lia|].
    destruct (IH st1 Hwf1) as (st2 & Hfold & Hwf2 & Hs2 & Hn2 & Hu2 & Heq2); [lia|].
    exists st2. cbn [foldResult]. rewrite Hf. cbn [mbind Result_bind].
    split; [done|]. unfold pushedAtMost. repeat split; try apply Hwf2; try lia.
    + congruence.
    + intros Hsame. rewrite Heq2 by lia. apply Heq1. lia.
Qed.

Lemma sum_pushes_terms (l : list (Real * Node)) :
  (sum_list (directPushes <$> l) + sum_list (delayedPushes <$> l.*2))%nat = length l.
Proof.
  induction l as [|[j [id|ref id]] l IH]; cbn in *; lia.
Qed.

(** [pushJacobians] returns whenever [NumberOfActiveTypeArguments] slots are
    free, and pushes at most that many entries. *)
Lemma pushJacobians_pushes (cfg : Config) (rhs : Expression Real)
    (st : gmap nat Real * JacobianData) :
  Chunk_wellFormed (chunk st.2) ->
  usedSize (chunk st.2) + NumberOfActiveTypeArguments rhs <= Chunk_getSize (chunk st.2) ->
  exists st', pushJacobians cfg rhs st = Ok st'
    /\ pushedAtMost (length (terms rhs)) st st'.
Proof.
  unfold NumberOfActiveTypeArguments, pushJacobians. intros Hwf Hfree.
  pose proof (sum_pushes_terms (terms rhs)) as Hsum.
  destruct (foldResult_pushes (handleJacobianOnActive cfg) directPushes
              (handleJacobianOnActive_pushes cfg) (terms rhs) st Hwf)
    as (st1 & Hf1 & Hwf1 & Hs1 & Hn1 & Hu1 & Heq1); [lia|].
  destruct (foldResult_pushes (handleActive cfg) delayedPushes
              (handleActive_pushes cfg) (terms rhs).*2 st1 Hwf1)
    as (st2 & Hf2 & Hwf2 & Hs2 & Hn2 & Hu2 & Heq2); [lia|].
  exists st2. rewrite Hf1. cbn [mbind Result_bind]. split; [done|].
  unfold pushedAtMost. repeat split; try apply Hwf2; try lia.
  - congruence.
  - intros Hsame. rewrite Heq2 by lia. apply Heq1. lia.
Qed.

End PushJacobians.


Section Store.
Context {Real Gradient IM : Type}.
Context `{!Arithmetic Real Gradient}.
Context `{!IndexManagerInterface IM} `{!DataInterface IM}.

Local Abbreviation JacobianData := (BlockData (Real * Identifier) (BlockData StatementEntry IM)).
Local Abbreviation Tape := (JacobianBaseTape (Real := Real) (Gradient := Gradient) (IM := IM)).

Lemma reserveItems_Ok {T N} (d : BlockData T N) (items : Z) :
  Chunk_wellFormed (chunk d) -> 0 <= items ->
  usedSize (chunk d) + items <= Chunk_getSize (chunk d) ->
  reserveItems items d = Ok (usedSize (chunk d)).
Proof.
  intros [Hused Hsize] Hitems Hfree.
  unfold reserveItems, Chunk_getUsedSize, wrap_size_t.
  rewrite Z.mod_small by lia.
  by destruct (Z.leb_spec (usedSize (chunk d) + items) (Chunk_getSize (chunk d))); [|lia].
Qed.




End Store.

Lemma sampleTape_wellFormed (b : bool) :
  Chunk_wellFormed (chunk (statementData (sampleTape b)))
  /\ Chunk_wellFormed (chunk (jacobianData (sampleTape b))).
Proof.
  unfold Chunk_wellFormed, Chunk_getSize, size_t_modulus; simpl; lia.
Defined.



(** The same statement on the active sample tape is recorded: one argument
    entry, one statement entry, a fresh identifier. *)
Example store_active_records :
  store defaultConfig (sampleTape true) ∅ (mkActiveType 7 0)
    (mkExpression 84 [(42, ActiveNode 1)])
  = Ok (mkJacobianBaseTape
          (mkBlockData (mkChunk [(42, 1); (0, 0); (0, 0); (0, 0)] 1)
             (mkBlockData (mkChunk [ReuseStatement 1 1; ReuseStatement 0 0] 1)
                (mkReuseIndexManager [] 1)))
          [0] true,
        ∅, mkActiveType 84 1).
Proof. reflexivity. Qed.

(** A [ReferenceActiveType] leaf that occurs twice, [y = r * r] with
    [r = 3]: the partials are summed in the object and pushed once. *)
Example store_reference_accumulates :
  store defaultConfig (sampleTape true) ∅ (mkActiveType 0 0)
    (mkExpression 9 [(3, ReferenceNode 0 1); (3, ReferenceNode 0 1)])
  = Ok (mkJacobianBaseTape
          (mkBlockData (mkChunk [(6, 1); (0, 0); (0, 0); (0, 0)] 1)
             (mkBlockData (mkChunk [ReuseStatement 1 1; ReuseStatement 0 0] 1)
                (mkReuseIndexManager [] 1)))
          [0] true,
        <[0%nat := 0]> (<[0%nat := 6]> (<[0%nat := 3]> ∅)), mkActiveType 9 1).
Proof. reflexivity. Qed.

(** ** The two revisions of the copy statement *)

Section Revisions.
Context {Real Gradient IM : Type}.
Context `{!Arithmetic Real Gradient} `{!DataInterface IM}.

Local Abbreviation Tape := (JacobianBaseTape (Real := Real) (Gradient := Gradient) (IM := IM)).

(** The general [store] of the two revisions is the same function. *)
Lemma store_revisions_agree
    (A : IndexManagerInterface IM) (B : Revision2.IndexManagerInterface IM)
    (cfg : Config) (cfg2 : Revision2.Config) :
  sameIndexManager A B -> sameConfig cfg cfg2 ->
  forall (t : Tape) refs lhs rhs,
    store cfg t refs lhs rhs = Revision2.store cfg2 t refs lhs rhs.
Proof.
  destruct A, B, cfg, cfg2. intros [] []. cbn in *. subst. reflexivity.
Qed.

(** C7.  The copy overload of [store] in the two revisions: when the flag
    [CopyNeedsStatement] has the value of [AssignNeedsStatement], the switch
    [CopyOptimization] the value of [AssignOptimization], and the index
    manager and the other switches are the same, the condition
    [CopyNeedsStatement || !CopyOptimization] decides as
    [AssignNeedsStatement || !AssignOptimization] does, and the two
    functions return the same on every tape, left and right hand side. *)
Theorem store_copy_revisions_agree
    (A : IndexManagerInterface IM) (B : Revision2.IndexManagerInterface IM)
    (cfg : Config) (cfg2 : Revision2.Config) :
  sameIndexManager A B -> sameConfig cfg cfg2 ->
  (@CopyNeedsStatement IM A || negb (CopyOptimization cfg)
   = @Revision2.AssignNeedsStatement IM B || negb (Revision2.AssignOptimization cfg2))
  /\ forall (t : Tape) refs lhs rhsValue rhsNode,
       store_copy cfg t refs lhs rhsValue rhsNode
       = Revision2.store_copy cfg2 t refs lhs rhsValue rhsNode.
Proof.
  destruct A, B, cfg, cfg2. intros [] []. cbn in *. subst. split; reflexivity.
Qed.

End Revisions.

Lemma Reuse_sameIndexManager :
  sameIndexManager Reuse_IndexManagerInterface Reuse_IndexManagerInterface2.
Proof. by split. Defined.

Lemma defaultConfig_sameConfig : sameConfig defaultConfig defaultConfig2.
Proof. by split. Defined.

(** [y = x] with [x] at identifier 1 on the active sample tape: the Reuse
    manager asks for a statement, in both revisions. *)
Lemma store_copy_revisions_agree_witness :
  (true || negb (CopyOptimization defaultConfig)
   = true || negb (Revision2.AssignOptimization defaultConfig2))
  /\ forall (t : JacobianBaseTape (Real := Z) (Gradient := Z)) refs lhs rhsValue rhsNode,
       store_copy defaultConfig t refs lhs rhsValue rhsNode
       = Revision2.store_copy (IndexManagerInterface0 := Reuse_IndexManagerInterface2)
           defaultConfig2 t refs lhs rhsValue rhsNode.
Proof.
  exact (store_copy_revisions_agree (Real := Z) (Gradient := Z)
           Reuse_IndexManagerInterface Reuse_IndexManagerInterface2
           defaultConfig defaultConfig2
           Reuse_sameIndexManager defaultConfig_sameConfig).
Defined.

Example store_copy_records_statement :
  store_copy defaultConfig (sampleTape true) ∅ (mkActiveType 0 0) 3 (ActiveNode 1)
  = Ok (mkJacobianBaseTape
          (mkBlockData (mkChunk [(1, 1); (0, 0); (0, 0); (0, 0)] 1)
             (mkBlockData (mkChunk [ReuseStatement 1 1; ReuseStatement 0 0] 1)
                (mkReuseIndexManager [] 1)))
          [0] true,
        ∅, mkActiveType 3 1).
Proof. reflexivity. Qed.

(** ** Primal access on the Jacobian tape *)

(** C9.  [primal(identifier)], in both overloads, and
    [evaluatePrimal(start, end)] raise the exception for every identifier and
    every pair of positions; the tape after the call is the tape before
    it. *)
Theorem primal_access_raises_exception
    {Real Gradient IM P : Type}
    (t : JacobianBaseTape (Real := Real) (Gradient := Gradient) (IM := IM))
    (id : Identifier) (start end_ : P) :
  evaluatePrimal t start end_
    = (t, Fail (CodiException "Accessing primal evaluation of an Jacobian tape."))
  /\ primal t id
    = (t, Fail (CodiException "Accessing primal vector of an Jacobian tape."))
  /\ primal_const t id
    = (t, Fail (CodiException "Accessing primal vector of an Jacobian tape."))
  /\ (forall r : unit, (evaluatePrimal t start end_).2 <> Ok r)
  /\ (forall r : Real, (primal t id).2 <> Ok r /\ (primal_const t id).2 <> Ok r).
Proof. repeat split; done. Qed.

(** ** Reading a gradient *)

Section Gradient.
Context {Real Gradient IM : Type}.
Context `{!Arithmetic Real Gradient}.
Context `{!IndexManagerInterface IM} `{!DataInterface IM}.

Local Abbreviation Tape := (JacobianBaseTape (Real := Real) (Gradient := Gradient) (IM := IM)).

Lemma cast_Identifier_small (z : Z) :
  0 <= z < 2 ^ 31 -> cast_Identifier z = z.
Proof. intros Hz. unfold cast_Identifier. rewrite Z.mod_small; lia. Qed.

(** Beyond the size of the adjoint vector the const overload reads slot 0. *)
Lemma gradient_const_beyond (t : Tape) (id : Identifier) (g : Gradient) :
  Z.of_nat (length (adjoints t)) < 2 ^ 31 ->
  Z.of_nat (length (adjoints t)) < id ->
  adjoints t !! 0%nat = Some g ->
  gradient_const t id = Ok g.
Proof.
  intros Hsize Hid Hg. unfold gradient_const.
  rewrite cast_Identifier_small by lia.
  destruct (Z.ltb_spec (Z.of_nat (length (adjoints t))) id); [|lia].
  by apply (array_read_Ok _ 0%nat).
Qed.

(** Within the adjoint vector it reads the slot of the identifier. *)
Lemma gradient_const_within (t : Tape) (id : nat) (g : Gradient) :
  Z.of_nat (length (adjoints t)) < 2 ^ 31 ->
  adjoints t !! id = Some g ->
  gradient_const t (Z.of_nat id) = Ok g.
Proof.
  intros Hsize Hg. unfold gradient_const.
  rewrite cast_Identifier_small by lia.
  apply lookup_lt_Some in Hg as Hlt.
  destruct (Z.ltb_spec (Z.of_nat (length (adjoints t))) (Z.of_nat id)); [lia|].
  by apply array_read_Ok.
Qed.

(** At exactly the size of the adjoint vector the comparison [>] lets the
    identifier through, and the slot read is the one past the end. *)
Lemma gradient_const_at_size (t : Tape) :
  Z.of_nat (length (adjoints t)) < 2 ^ 31 ->
  gradient_const t (Z.of_nat (length (adjoints t))) = Fail InvalidAccess.
Proof.
  intros Hsize. unfold gradient_const.
  rewrite cast_Identifier_small by lia.
  rewrite Z.ltb_irrefl. unfold array_read.
  destruct (Z.leb_spec 0 (Z.of_nat (length (adjoints t)))); [|lia].
  rewrite Nat2Z.id.
  by rewrite (lookup_ge_None_2 (adjoints t) (length (adjoints t))).
Qed.

(** The non-const overload grows the adjoint vector first: for an identifier
    that the index manager has issued, the slot exists when it is read. *)
Lemma gradient_within_issued (t : Tape) (id : Identifier) :
  0 <= id <= getLargestAssignedIndex (indexManager t) ->
  getLargestAssignedIndex (indexManager t) + 1 < 2 ^ 31 ->
  Z.of_nat (length (adjoints t)) < 2 ^ 31 ->
  exists t' g, gradient t id = Ok (t', g) /\ adjoints t' !! Z.to_nat id = Some g.
Proof.
  intros Hid Hlargest Hsize. unfold gradient, checkAdjointSize.
  rewrite cast_Identifier_small by lia.
  destruct (Z.leb_spec (Z.of_nat (length (adjoints t))) id) as [Hge|Hlt].
  - unfold resizeAdjointsVector, vector_resize, wrap_size_t, size_t_modulus. cbn.
    rewrite Z.mod_small by lia.
    set (v := take _ _ ++ replicate _ _).
    assert (Hlen : length v = Z.to_nat (getLargestAssignedIndex (indexManager t) + 1)).
    { subst v. rewrite length_app, length_take, length_replicate. lia. }
    destruct (lookup_lt_is_Some_2 v (Z.to_nat id)) as [g Hg]; [lia|].
    exists (set_adjoints v t), g.
    replace id with (Z.of_nat (Z.to_nat id)) at 1 by lia.
    rewrite (array_read_Ok _ _ _ Hg). done.
  - destruct (lookup_lt_is_Some_2 (adjoints t) (Z.to_nat id)) as [g Hg]; [lia|].
    exists t, g.
    replace id with (Z.of_nat (Z.to_nat id)) at 1 by lia.
    rewrite (array_read_Ok _ _ _ Hg). done.
Qed.

End Gradient.

(** C10.  The const overload of [gradient] right after the first input was
    registered on the sample tape: the input has identifier 1, the adjoint
    vector still has its initial size 1, and [gradient(1) const] reads
    [adjoints[1]], outside the vector, where the non-const overload resizes
    and reads the new slot. *)
Theorem gradient_const_reads_past_the_end :
  exists t x,
    registerInput defaultConfig (sampleTape true) (mkActiveType 2 UnusedIndex) = Ok (t, x)
    /\ identifier x = 1
    /\ length (adjoints t) = 1%nat
    /\ gradient_const t (identifier x) = Fail InvalidAccess
    /\ gradient t (identifier x) = Ok (set_adjoints [0; 0] t, 0).
Proof. do 2 eexists. repeat split. Qed.

(** ** The sweep direction of the Jacobian assembly *)

(** [getEvaluationChoice] answers [Forward] exactly when the number of
    inputs is at most the number of outputs, and [Reverse] otherwise, and
    [computeJacobian] takes the branch of this answer, on every tape. *)
Lemma computeJacobian_dispatch
    {Tape Position GReal Jac : Type} `{!TapeOperations Tape Position GReal}
    (Jac_set : Z -> Z -> GReal -> Jac -> Jac) (GReal_one GReal_zero : GReal)
    (gradDim : Z) (ActiveChecks keepState : bool) (cfg : Config)
    (tape : Tape) (start end_ : Position)
    (input : list Identifier) (inputSize : Z)
    (output : list Identifier) (outputSize : Z) (jac : Jac) :
  (getEvaluationChoice inputSize outputSize = Forward <-> inputSize <= outputSize)
  /\ (getEvaluationChoice inputSize outputSize = Reverse <-> outputSize < inputSize)
  /\ computeJacobian Jac_set GReal_one GReal_zero gradDim ActiveChecks keepState cfg
       tape start end_ input inputSize output outputSize jac
     = (if inputSize <=? outputSize then
          computeJacobian_forward Jac_set GReal_one GReal_zero gradDim ActiveChecks
            keepState tape start end_ input inputSize output outputSize jac
        else
          computeJacobian_reverse Jac_set GReal_one GReal_zero gradDim ActiveChecks
            keepState (ReversalZeroesAdjoints cfg)
            tape start end_ input inputSize output outputSize jac)
  /\ getEvaluationChoice 2 5 = Forward
  /\ getEvaluationChoice 5 2 = Reverse.
Proof.
  unfold computeJacobian, getEvaluationChoice.
  destruct (Z.leb_spec inputSize outputSize); repeat split; intros; try done; lia.
Qed.

(** Two inputs and five outputs: two forward sweeps, one per input.  Five
    inputs and two outputs: two reverse sweeps, one per output. *)
Example computeJacobian_2_inputs_5_outputs :
  sweepsOfComputeJacobian [1; 2] [3; 4; 5; 6; 7]
  = Ok [CallEvaluateForwardKeepState; CallEvaluateForwardKeepState].
Proof. reflexivity. Qed.

Example computeJacobian_5_inputs_2_outputs :
  sweepsOfComputeJacobian [1; 2; 3; 4; 5] [6; 7]
  = Ok [CallEvaluateKeepState; CallEvaluateKeepState].
Proof. reflexivity. Qed.

(** ** A recording and its replay *)

(** [a = 2] and [b = 3] are registered as inputs and [y = a * b] is stored on
    the sample tape: one statement with two argument entries is recorded.
    Seeding the adjoint of [y] with 1 and replaying the statement gives the
    adjoints 3 and 2 of [a] and [b]. *)
Example record_and_replay_product :
  exists t1 a t2 b t3 refs y,
    registerInput defaultConfig (sampleTape true) (mkActiveType 2 UnusedIndex) = Ok (t1, a)
    /\ registerInput defaultConfig t1 (mkActiveType 3 UnusedIndex) = Ok (t2, b)
    /\ store defaultConfig t2 ∅ (mkActiveType 0 UnusedIndex)
         (mkExpression (value a * value b)
            [(value b, ActiveNode (identifier a)); (value a, ActiveNode (identifier b))])
       = Ok (t3, refs, y)
    /\ y = mkActiveType 6 3
    /\ usedSizes (jacobianData t3) = [2; 1]
    /\ storage (chunk (statementData t3)) !! 0%nat = Some (ReuseStatement 3 2)
    /\ incrementAdjoints defaultConfig [0; 0; 0; 1] 1 2 2
         (storage (chunk (jacobianData t3))).*1 (storage (chunk (jacobianData t3))).*2
       = Ok ([0; 3; 2; 1], 0).
Proof. do 7 eexists. repeat split. Qed.

(** * Further properties of the tape core *)

(** ** Forward replay of one statement *)

Section IncrementTangents.
Context {Real Adjoint : Type} `{!Arithmetic Real Adjoint}.

Lemma array_read_inv {A} (a : list A) (i : Z) (x : A) :
  array_read a i = Ok x -> 0 <= i /\ a !! Z.to_nat i = Some x.
Proof.
  unfold array_read. destruct (Z.leb_spec 0 i); [|discriminate].
  destruct (a !! Z.to_nat i); [|discriminate]. by intros [= ->].
Qed.

Lemma incrementTangents_while_fold (adj : list Adjoint)
    (jacs : list Real) (ids : list Identifier) (e : nat) :
  Z.of_nat e < size_t_modulus ->
  (e <= length jacs)%nat -> (e <= length ids)%nat ->
  forall (rounds cur : nat) (lhs : Adjoint),
    (cur + rounds)%nat = e ->
    Forall (fun en : Real * Identifier => 0 <= en.2 < Z.of_nat (length adj))
           (take rounds (drop cur (zip jacs ids))) ->
    incrementTangents_while rounds (Z.of_nat cur) (Z.of_nat e) adj lhs jacs ids
    = Ok (fold_left (accumulateTangent adj) (take rounds (drop cur (zip jacs ids))) lhs,
          Z.of_nat e).
Proof.
  intros He Hj Hi. induction rounds as [|rounds IH]; intros cur lhs Hsum Hin.
  - cbn. do 2 f_equal. lia.
  - cbn [incrementTangents_while].
    destruct (Z.ltb_spec (Z.of_nat cur) (Z.of_nat e)); [|lia].
    destruct (lookup_lt_is_Some_2 jacs cur) as [jac Hjac]; [lia|].
    destruct (lookup_lt_is_Some_2 ids cur) as [id Hid]; [lia|].
    assert (Hseg : take (S rounds) (drop cur (zip jacs ids))
                   = (jac, id) :: take rounds (drop (S cur) (zip jacs ids))).
    { rewrite (drop_S _ (jac, id)); [done|].
      unfold zip. apply lookup_zip_with_Some. eauto. }
    rewrite Hseg in Hin |- *. apply Forall_cons in Hin as [Hhead Hin]. cbn in Hhead.
    rewrite (array_read_Ok _ _ _ Hjac). cbn [mbind Result_bind].
    rewrite (array_read_Ok _ _ _ Hid). cbn [mbind Result_bind].
    destruct (lookup_lt_is_Some_2 adj (Z.to_nat id)) as [a Ha]; [lia|].
    replace id with (Z.of_nat (Z.to_nat id)) at 1 by lia.
    rewrite (array_read_Ok _ _ _ Ha). cbn [mbind Result_bind].
    unfold wrap_size_t. rewrite Z.mod_small by lia.
    replace (Z.of_nat cur + 1) with (Z.of_nat (S cur)) by lia.
    rewrite IH by (done || lia).
    cbn [fold_left].
    replace (accumulateTangent adj lhs (jac, id)) with (Adjoint_add lhs (scale jac a));
      [done|]. unfold accumulateTangent. cbn. by rewrite Ha.
Qed.

(** The forward equation of one statement: [incrementTangents] adds
    [partial * tangent of the input] to [lhsAdjoint] for each of the
    [numberOfArguments] entries that start at [curJacobianPos], in push
    order, and leaves [curJacobianPos] behind the last of them.  There is no
    skip for zero tangents. *)
Theorem incrementTangents_accumulates_leading_arguments
    (adjointVector : list Adjoint) (lhsAdjoint : Adjoint)
    (numberOfArguments curJacobianPos : Z)
    (rhsJacobians : list Real) (rhsIdentifiers : list Identifier) :
  0 <= numberOfArguments -> 0 <= curJacobianPos ->
  curJacobianPos + numberOfArguments < size_t_modulus ->
  curJacobianPos + numberOfArguments <= Z.of_nat (length rhsJacobians) ->
  curJacobianPos + numberOfArguments <= Z.of_nat (length rhsIdentifiers) ->
  Forall (fun entry : Real * Identifier =>
            0 <= entry.2 < Z.of_nat (length adjointVector))
         (leadingArguments numberOfArguments curJacobianPos rhsJacobians rhsIdentifiers) ->
  incrementTangents adjointVector lhsAdjoint numberOfArguments curJacobianPos
    rhsJacobians rhsIdentifiers
  = Ok (fold_left (accumulateTangent adjointVector)
          (leadingArguments numberOfArguments curJacobianPos rhsJacobians rhsIdentifiers)
          lhsAdjoint,
        curJacobianPos + numberOfArguments).
Proof.
  intros Hn Hcur Hmax Hj Hi Hin.
  unfold incrementTangents, leadingArguments in *. unfold wrap_size_t.
  rewrite Z.mod_small by lia.
  replace (curJacobianPos + numberOfArguments - curJacobianPos)
    with numberOfArguments by lia.
  pose proof (incrementTangents_while_fold adjointVector rhsJacobians rhsIdentifiers
                (Z.to_nat (curJacobianPos + numberOfArguments))
                ltac:(lia) ltac:(lia) ltac:(lia)
                (Z.to_nat numberOfArguments) (Z.to_nat curJacobianPos) lhsAdjoint
                ltac:(lia) Hin) as Hloop.
  rewrite !Z2Nat.id in Hloop by lia. exact Hloop.
Qed.

Lemma incrementAdjoints_while_frame (lhs : Adjoint)
    (jacs : list Real) (ids : list Identifier) (e : Z) :
  forall (cur : nat) (adj adj' : list Adjoint) (pos : Z),
    incrementAdjoints_while cur e adj lhs jacs ids = Ok (adj', pos) ->
    length adj' = length adj
    /\ forall i : nat,
         (forall k : nat, e <= Z.of_nat k -> (k < cur)%nat ->
                          ids !! k <> Some (Z.of_nat i)) ->
         adj' !! i = adj !! i.
Proof.
  induction cur as [|cur IH]; intros adj adj' pos Hrun.
  - injection Hrun as <- _. done.
  - cbn [incrementAdjoints_while] in Hrun.
    destruct (Z.ltb_spec e (Z.of_nat (S cur))) as [Hlt|Hge].
    + destruct (array_read ids (Z.of_nat cur)) as [id|] eqn:Hid; [|discriminate].
      cbn [mbind Result_bind] in Hrun.
      destruct (array_read jacs (Z.of_nat cur)) as [jac|]; [|discriminate].
      cbn [mbind Result_bind] in Hrun.
      destruct (array_read adj id) as [a|] eqn:Ha; [|discriminate].
      cbn [mbind Result_bind] in Hrun.
      apply array_read_inv in Hid as [_ Hid]. rewrite Nat2Z.id in Hid.
      apply array_read_inv in Ha as [Hid0 _].
      apply IH in Hrun as [Hlen Hframe].
      rewrite length_insert in Hlen. split; [done|].
      intros i Hi. rewrite Hframe by (intros k ? ?; apply Hi; lia).
      apply list_lookup_insert_ne. intros <-.
      apply (Hi cur); [lia|lia|].
      transitivity (Some id); [exact Hid|f_equal; lia].
    + injection Hrun as <- _. done.
Qed.

(** Frame of the reverse equation: whenever [incrementAdjoints] returns, the
    adjoint vector has kept its length, and every slot whose index is not an
    identifier stored at a position from [endJacobianPos] on and below
    [curJacobianPos] holds what it held before. *)
Theorem incrementAdjoints_frame
    (cfg : Config) (adjointVector adjointVector' : list Adjoint) (lhsAdjoint : Adjoint)
    (numberOfArguments curJacobianPos pos : Z)
    (rhsJacobians : list Real) (rhsIdentifiers : list Identifier) :
  incrementAdjoints cfg adjointVector lhsAdjoint numberOfArguments curJacobianPos
    rhsJacobians rhsIdentifiers = Ok (adjointVector', pos) ->
  length adjointVector' = length adjointVector
  /\ forall i : nat,
       (forall k : nat,
          wrap_size_t (curJacobianPos - numberOfArguments) <= Z.of_nat k < curJacobianPos ->
          rhsIdentifiers !! k <> Some (Z.of_nat i)) ->
       adjointVector' !! i = adjointVector !! i.
Proof.
  unfold incrementAdjoints. destruct (CODI_ENABLE_CHECK _ _).
  - intros Hrun. apply incrementAdjoints_while_frame in Hrun as [Hlen Hframe].
    split; [done|]. intros i Hi. apply Hframe. intros k ? ?. apply Hi. lia.
  - by intros [= <- _].
Qed.

End IncrementTangents.

(** The tangent of [y = a * b] with [a = 2], [b = 3] at identifiers 1 and 2
    for the tangents 1 of [a] and 10 of [b]. *)
Lemma incrementTangents_accumulates_leading_arguments_witness :
  let adj := [0; 1; 10; 0] in
  0 <= 2 /\ 0 <= 0 /\ 0 + 2 < size_t_modulus /\
  incrementTangents adj 0 2 0 [3; 2] [1; 2] = Ok (23, 2).
Proof.
  intros adj. split; [lia|]. split; [lia|]. split; [reflexivity|].
  refine (incrementTangents_accumulates_leading_arguments adj 0 2 0 [3; 2] [1; 2]
            _ _ _ _ _ _).
  - lia.
  - lia.
  - reflexivity.
  - simpl; lia.
  - simpl; lia.
  - repeat constructor; simpl; lia.
Defined.

Lemma incrementAdjoints_frame_witness :
  incrementAdjoints defaultConfig [0; 0; 0; 1] 1 2 2 [3; 2] [1; 2] = Ok ([0; 3; 2; 1], 0)
  /\ length [0; 3; 2; 1] = length [0; 0; 0; 1]
  /\ forall i : nat,
       (forall k : nat, wrap_size_t (2 - 2) <= Z.of_nat k < 2 ->
                        [1; 2] !! k <> Some (Z.of_nat i)) ->
       [0; 3; 2; 1] !! i = [0; 0; 0; 1] !! i.
Proof.
  split; [reflexivity|].
  exact (incrementAdjoints_frame defaultConfig [0; 0; 0; 1] [0; 3; 2; 1] 1 2 2 0
           [3; 2] [1; 2] eq_refl).
Defined.

(** ** The adjoint vector *)

Section AdjointVector.
Context {Real Gradient IM : Type}.
Context `{!Arithmetic Real Gradient}.
Context `{!IndexManagerInterface IM} `{!DataInterface IM}.

Local Abbreviation Tape := (JacobianBaseTape (Real := Real) (Gradient := Gradient) (IM := IM)).

Lemma vector_resize_grow (n : Z) (v : list Gradient) :
  Z.of_nat (length v) <= n < size_t_modulus ->
  vector_resize n v = v ++ replicate (Z.to_nat n - length v) Adjoint_zero.
Proof.
  intros Hn. unfold vector_resize, wrap_size_t.
  rewrite Z.mod_small by lia. by rewrite take_ge by lia.
Qed.

Lemma vector_resize_length (n : Z) (v : list Gradient) :
  0 <= n < size_t_modulus -> length (vector_resize n v) = Z.to_nat n.
Proof.
  intros Hn. unfold vector_resize, wrap_size_t. rewrite Z.mod_small by lia.
  rewrite length_app, length_take, length_replicate. lia.
Qed.

Lemma vector_resize_lookup (n : Z) (v : list Gradient) (i : nat) :
  0 <= n < size_t_modulus -> (i < Z.to_nat n)%nat ->
  vector_resize n v !! i = Some (default Adjoint_zero (v !! i)).
Proof.
  intros Hn Hi. unfold vector_resize, wrap_size_t. rewrite Z.mod_small by lia.
  destruct (decide (i < length v)%nat) as [Hlt|Hge].
  - rewrite lookup_app_l by (rewrite length_take; lia).
    rewrite lookup_take_lt by lia.
    destruct (lookup_lt_is_Some_2 v i Hlt) as [g ->]. done.
  - rewrite lookup_app_r by (rewrite length_take; lia).
    rewrite length_take. rewrite lookup_replicate_2 by lia.
    by rewrite (lookup_ge_None_2 v i) by lia.
Qed.

Lemma checkAdjointSize_covers_aux (t : Tape) (id : Identifier) :
  0 <= id <= getLargestAssignedIndex (indexManager t) ->
  getLargestAssignedIndex (indexManager t) + 1 < 2 ^ 31 ->
  Z.of_nat (length (adjoints t)) < 2 ^ 31 ->
  id < Z.of_nat (length (adjoints (checkAdjointSize id t)))
  /\ (length (adjoints t) <= length (adjoints (checkAdjointSize id t)))%nat
  /\ (forall i : nat, (i < length (adjoints (checkAdjointSize id t)))%nat ->
        adjoints (checkAdjointSize id t) !! i
        = Some (default Adjoint_zero (adjoints t !! i)))
  /\ jacobianData (checkAdjointSize id t) = jacobianData t
  /\ active (checkAdjointSize id t) = active t.
Proof.
  intros Hid Hlargest Hsize. unfold checkAdjointSize.
  rewrite cast_Identifier_small by lia.
  destruct (Z.leb_spec (Z.of_nat (length (adjoints t))) id) as [Hge|Hlt].
  - unfold resizeAdjointsVector. cbn.
    assert (Hn : 0 <= getLargestAssignedIndex (indexManager t) + 1 < size_t_modulus)
      by (unfold size_t_modulus; lia).
    rewrite vector_resize_length by done.
    repeat split; try lia.
    intros i Hi. by apply vector_resize_lookup.
  - repeat split; try lia.
    intros i Hi. destruct (lookup_lt_is_Some_2 (adjoints t) i Hi) as [g ->]. done.
Qed.

(** The size check before an access: for an identifier that the index
    manager has issued, the adjoint vector covers the identifier afterwards
    and never gets shorter; the slots it had keep their values and the new
    ones hold [Gradient()]; the streams and the recording state are not
    touched. *)
Theorem checkAdjointSize_covers_issued_identifier (t : Tape) (id : Identifier) :
  0 <= id <= getLargestAssignedIndex (indexManager t) ->
  getLargestAssignedIndex (indexManager t) + 1 < 2 ^ 31 ->
  Z.of_nat (length (adjoints t)) < 2 ^ 31 ->
  id < Z.of_nat (length (adjoints (checkAdjointSize id t)))
  /\ (length (adjoints t) <= length (adjoints (checkAdjointSize id t)))%nat
  /\ (forall i : nat, (i < length (adjoints (checkAdjointSize id t)))%nat ->
        adjoints (checkAdjointSize id t) !! i
        = Some (default Adjoint_zero (adjoints t !! i)))
  /\ jacobianData (checkAdjointSize id t) = jacobianData t
  /\ active (checkAdjointSize id t) = active t.
Proof. apply checkAdjointSize_covers_aux. Qed.

Lemma gradient_reads_aux (t : Tape) (id : Identifier) :
  0 <= id <= getLargestAssignedIndex (indexManager t) ->
  getLargestAssignedIndex (indexManager t) + 1 < 2 ^ 31 ->
  Z.of_nat (length (adjoints t)) < 2 ^ 31 ->
  gradient t id
  = Ok (checkAdjointSize id t, default Adjoint_zero (adjoints t !! Z.to_nat id)).
Proof.
  intros Hid Hlargest Hsize.
  destruct (checkAdjointSize_covers_aux t id Hid Hlargest Hsize)
    as (Hcover & _ & Hlookup & _).
  unfold gradient.
  replace id with (Z.of_nat (Z.to_nat id)) at 2 by lia.
  rewrite (array_read_Ok _ _ _ (Hlookup (Z.to_nat id) ltac:(lia))). done.
Qed.

(** [gradient(identifier)] for an issued identifier returns, with the value
    stored for the identifier, or with [Gradient()] when the adjoint vector
    had no slot for it yet. *)
Theorem gradient_reads_slot_or_zero (t : Tape) (id : Identifier) :
  0 <= id <= getLargestAssignedIndex (indexManager t) ->
  getLargestAssignedIndex (indexManager t) + 1 < 2 ^ 31 ->
  Z.of_nat (length (adjoints t)) < 2 ^ 31 ->
  gradient t id
  = Ok (checkAdjointSize id t, default Adjoint_zero (adjoints t !! Z.to_nat id)).
Proof. apply gradient_reads_aux. Qed.

(** [gradient(identifier)] for an identifier above the largest assigned one
    and outside the adjoint vector: the resize does not reach it, and the
    access is outside the vector. *)
Theorem gradient_beyond_largest_identifier (t : Tape) (id : Identifier) :
  0 <= getLargestAssignedIndex (indexManager t) < id ->
  Z.of_nat (length (adjoints t)) <= id ->
  id < 2 ^ 31 ->
  gradient t id = Fail InvalidAccess.
Proof.
  intros Hlargest Hsize Hid. unfold gradient, checkAdjointSize.
  rewrite cast_Identifier_small by lia.
  destruct (Z.leb_spec (Z.of_nat (length (adjoints t))) id); [|lia].
  unfold resizeAdjointsVector, array_read. cbn.
  destruct (Z.leb_spec 0 id); [|lia].
  rewrite lookup_ge_None_2; [done|].
  rewrite vector_resize_length by (unfold size_t_modulus; lia). lia.
Qed.

Lemma fmap_const_replicate {A B} (b : B) (l : list A) :
  (fun _ => b) <$> l = replicate (length l) b.
Proof. induction l as [|x l IH]; [done|]. cbn. by rewrite IH. Qed.

(** [clearAdjoints()] puts [Gradient()] into every slot, keeps the size of
    the adjoint vector and everything else on the tape, and clearing twice is
    clearing once. *)
Theorem clearAdjoints_zeroes_every_slot (t : Tape) :
  adjoints (clearAdjoints t) = replicate (length (adjoints t)) Adjoint_zero
  /\ length (adjoints (clearAdjoints t)) = length (adjoints t)
  /\ jacobianData (clearAdjoints t) = jacobianData t
  /\ active (clearAdjoints t) = active t
  /\ clearAdjoints (clearAdjoints t) = clearAdjoints t.
Proof.
  unfold clearAdjoints, set_adjoints. cbn.
  rewrite !fmap_const_replicate, !length_replicate. done.
Qed.

(** After [deleteAdjointVector()] only slot 0 is left, with its value, and
    the next [gradient(identifier)] of an issued identifier from 1 on finds
    [Gradient()]: the adjoints are lost, the vector grows again on access. *)
Theorem deleteAdjointVector_keeps_slot_zero (t : Tape) (id : Identifier) :
  1 <= id <= getLargestAssignedIndex (indexManager t) ->
  getLargestAssignedIndex (indexManager t) + 1 < 2 ^ 31 ->
  adjoints (deleteAdjointVector t) = [default Adjoint_zero (adjoints t !! 0%nat)]
  /\ exists t', gradient (deleteAdjointVector t) id = Ok (t', Adjoint_zero)
       /\ Z.of_nat (length (adjoints t')) = getLargestAssignedIndex (indexManager t) + 1.
Proof.
  intros Hid Hlargest.
  assert (Hres : vector_resize 1 (adjoints t)
                 = [default Adjoint_zero (adjoints t !! 0%nat)]).
  { unfold vector_resize, wrap_size_t.
    rewrite Z.mod_small by (unfold size_t_modulus; lia).
    change (Z.to_nat 1) with 1%nat.
    destruct (adjoints t) as [|g l]; [done|]. cbn. by rewrite take_0, Nat.sub_0_l. }
  split; [exact Hres|].
  assert (Hgrad := gradient_reads_aux (deleteAdjointVector t) id).
  change (adjoints (deleteAdjointVector t)) with (vector_resize 1 (adjoints t)) in Hgrad.
  change (indexManager (deleteAdjointVector t)) with (indexManager t) in Hgrad.
  rewrite Hres in Hgrad. rewrite Hgrad by (cbn; lia). clear Hgrad.
  eexists. split.
  - do 2 f_equal. destruct (Z.to_nat id) as [|k] eqn:Hk; [lia|]. done.
  - unfold checkAdjointSize, resizeAdjointsVector.
    change (adjoints (deleteAdjointVector t)) with (vector_resize 1 (adjoints t)).
    change (indexManager (deleteAdjointVector t)) with (indexManager t).
    rewrite Hres. cbn [length]. change (Z.of_nat 1) with 1.
    rewrite cast_Identifier_small by lia.
    destruct (Z.leb_spec 1 id); [|lia]. cbn [adjoints set_adjoints].
    rewrite vector_resize_length by (unfold size_t_modulus; lia). lia.
Qed.

End AdjointVector.

Lemma checkAdjointSize_covers_issued_identifier_witness :
  let t := sampleTapeTwoInputs in
  (0 <= 2 <= getLargestAssignedIndex (indexManager t)) /\
  getLargestAssignedIndex (indexManager t) + 1 < 2 ^ 31 /\
  Z.of_nat (length (adjoints t)) < 2 ^ 31 /\
  adjoints (checkAdjointSize 2%Z t) = [0; 4; 0] /\
  2 < Z.of_nat (length (adjoints (checkAdjointSize 2%Z t)))
  /\ (length (adjoints t) <= length (adjoints (checkAdjointSize 2%Z t)))%nat
  /\ (forall i : nat, (i < length (adjoints (checkAdjointSize 2%Z t)))%nat ->
        adjoints (checkAdjointSize 2%Z t) !! i
        = Some (default Adjoint_zero (adjoints t !! i)))
  /\ jacobianData (checkAdjointSize 2%Z t) = jacobianData t
  /\ active (checkAdjointSize 2%Z t) = active t.
Proof.
  intros t. split; [simpl; lia|]. split; [reflexivity|]. split; [reflexivity|].
  split; [reflexivity|].
  refine (checkAdjointSize_covers_issued_identifier t 2%Z _ _ _).
  - simpl; lia.
  - reflexivity.
  - reflexivity.
Defined.

Lemma gradient_reads_slot_or_zero_witness :
  let t := sampleTapeTwoInputs in
  (0 <= 1 <= getLargestAssignedIndex (indexManager t)) /\
  gradient t 1 = Ok (t, 4) /\
  gradient t 1
  = Ok (checkAdjointSize 1 t, default Adjoint_zero (adjoints t !! Z.to_nat 1)).
Proof.
  intros t. split; [simpl; lia|]. split; [reflexivity|].
  refine (gradient_reads_slot_or_zero t 1%Z _ _ _).
  - simpl; lia.
  - reflexivity.
  - reflexivity.
Defined.

Lemma gradient_beyond_largest_identifier_witness :
  let t := sampleTapeTwoInputs in
  (0 <= getLargestAssignedIndex (indexManager t) < 7) /\
  Z.of_nat (length (adjoints t)) <= 7 /\
  7 < 2 ^ 31 /\
  gradient t 7 = Fail InvalidAccess.
Proof.
  intros t. split; [simpl; lia|]. split; [simpl; lia|]. split; [reflexivity|].
  refine (gradient_beyond_largest_identifier t 7%Z _ _ _).
  - simpl; lia.
  - simpl; lia.
  - reflexivity.
Defined.

Lemma deleteAdjointVector_keeps_slot_zero_witness :
  let t := sampleTapeTwoInputs in
  (1 <= 1 <= getLargestAssignedIndex (indexManager t)) /\
  getLargestAssignedIndex (indexManager t) + 1 < 2 ^ 31 /\
  adjoints (deleteAdjointVector t) = [default Adjoint_zero (adjoints t !! 0%nat)]
  /\ exists t', gradient (deleteAdjointVector t) 1 = Ok (t', Adjoint_zero)
       /\ Z.of_nat (length (adjoints t')) = getLargestAssignedIndex (indexManager t) + 1.
Proof.
  intros t. split; [simpl; lia|]. split; [reflexivity|].
  refine (deleteAdjointVector_keeps_slot_zero t 1%Z _ _).
  - simpl; lia.
  - reflexivity.
Defined.

(** ** The items of a stream *)

Section RecordedItems.
Context {T NestedData : Type}.

Lemma pushData_recorded (x : T) (d d' : BlockData T NestedData) :
  Chunk_wellFormed (chunk d) ->
  pushData x d = Ok d' ->
  recorded d' = recorded d ++ [x]
  /\ Chunk_wellFormed (chunk d')
  /\ usedSize (chunk d') = usedSize (chunk d) + 1
  /\ storage (chunk d') = <[Z.to_nat (usedSize (chunk d)) := x]> (storage (chunk d))
  /\ nested d' = nested d.
Proof.
  intros [Hused Hsize]. unfold pushData, Chunk_pushData.
  destruct (Z.ltb_spec (usedSize (chunk d)) (Chunk_getSize (chunk d))) as [Hfree|];
    cbn; [|discriminate].
  intros [= <-]. unfold recorded, Chunk_wellFormed, Chunk_getSize, wrap_size_t in *. cbn.
  rewrite Z.mod_small by lia. rewrite length_insert.
  repeat split; try lia.
  replace (Z.to_nat (usedSize (chunk d) + 1)) with (S (Z.to_nat (usedSize (chunk d)))) by lia.
  rewrite (take_S_r _ _ x) by (apply list_lookup_insert_eq; lia).
  by rewrite take_insert_ge by lia.
Qed.

(** Recording is append-only: a run of [pushData] calls that returned has put
    its items, in order, behind the items that were in use, has changed none
    of those, and has touched neither the allocated size nor the nested
    stream. *)
Theorem pushDataAll_appends (xs : list T) :
  forall d d' : BlockData T NestedData,
    Chunk_wellFormed (chunk d) ->
    pushDataAll xs d = Ok d' ->
    recorded d' = recorded d ++ xs
    /\ Chunk_getSize (chunk d') = Chunk_getSize (chunk d)
    /\ nested d' = nested d
    /\ Chunk_wellFormed (chunk d').
Proof.
  induction xs as [|x xs IH]; intros d d' Hwf Hrun.
  - injection Hrun as <-. by rewrite app_nil_r.
  - cbn [pushDataAll] in Hrun.
    destruct (pushData x d) as [d1|] eqn:Hpush; [|discriminate].
    cbn [mbind Result_bind] in Hrun.
    destruct (pushData_recorded x d d1 Hwf Hpush) as (Hrec & Hwf1 & _ & Hst & Hn).
    destruct (IH d1 d' Hwf1 Hrun) as (Hrec' & Hsize' & Hn' & Hwf').
    rewrite Hrec', Hrec, <- app_assoc. split; [done|]. split; [|split; [congruence|done]].
    rewrite Hsize'. unfold Chunk_getSize. by rewrite Hst, length_insert.
Qed.

(** A run of pushes that does not fit into the allocated slots is stopped by
    the assertion of the chunk. *)
Theorem pushDataAll_beyond_capacity (xs : list T) :
  forall d : BlockData T NestedData,
    Chunk_wellFormed (chunk d) ->
    Chunk_getSize (chunk d) < usedSize (chunk d) + Z.of_nat (length xs) ->
    pushDataAll xs d = Fail AssertionViolated.
Proof.
  induction xs as [|x xs IH]; intros d Hwf Hbig.
  - destruct Hwf. cbn in Hbig. lia.
  - cbn [pushDataAll length] in *.
    destruct (pushData x d) as [d1|e] eqn:Hpush.
    + destruct (pushData_recorded x d d1 Hwf Hpush) as (_ & Hwf1 & Hu & Hst & _).
      cbn [mbind Result_bind]. apply IH; [done|].
      unfold Chunk_getSize. rewrite Hst, length_insert.
      fold (Chunk_getSize (chunk d)). lia.
    + cbn. unfold pushData, Chunk_pushData in Hpush.
      destruct (usedSize (chunk d) <? Chunk_getSize (chunk d)); cbn in Hpush;
        [discriminate|]. by injection Hpush as <-.
Qed.

Context `{!DataInterface NestedData} `{!DataSizes NestedData}.
Context `{!DataInterfaceLaws NestedData}.

Lemma BlockData_records_keep_prefix (d d' : BlockData T NestedData) :
  Chunk_wellFormed (chunk d) ->
  rtc (BlockData_records recordsFurther) d d' ->
  Chunk_wellFormed (chunk d')
  /\ usedSize (chunk d) <= usedSize (chunk d')
  /\ take (Z.to_nat (usedSize (chunk d))) (storage (chunk d')) = recorded d.
Proof.
  intros Hwf Hrec. revert Hwf.
  induction Hrec as [d|d d1 d' Hstep _ IH]; intros Hwf.
  - split; [done|]. split; [lia|done].
  - destruct Hstep as [d d1 x Hpush|d n' Hn].
    + destruct (pushData_recorded x d d1 Hwf Hpush) as (_ & Hwf1 & Hu & Hst & _).
      destruct (IH Hwf1) as (Hwf' & Hle & Hpre).
      split; [done|]. split; [lia|].
      assert (Hmin : Z.to_nat (usedSize (chunk d))
                     = (Z.to_nat (usedSize (chunk d)) `min` Z.to_nat (usedSize (chunk d1)))%nat)
        by lia.
      rewrite Hmin, <- take_take, Hpre. unfold recorded.
      rewrite take_take, <- Hmin, Hst. apply take_insert_ge. lia.
    + apply (IH Hwf).
Qed.

(** The round trip restores the items, not only the sizes: after
    [pos = getPosition()], any further recording and [resetTo(pos)], the items
    of the stream that are in use are those that were in use at the
    capture. *)
Theorem BlockData_resetTo_restores_recorded_items (d d' : BlockData T NestedData) :
  Chunk_wellFormed (chunk d) -> wellFormed (nested d) ->
  rtc (BlockData_records recordsFurther) d d' ->
  exists d'', BlockData_resetTo (BlockData_getPosition d) d' = Ok d''
    /\ recorded d'' = recorded d.
Proof.
  intros Hwf Hwfn Hrec.
  destruct (BlockData_resetTo_after_records d d' Hwf Hwfn Hrec)
    as (d'' & Hreset & Hpos & _ & _ & Hst).
  destruct (BlockData_records_keep_prefix d d' Hwf Hrec) as (_ & _ & Hpre).
  exists d''. split; [done|].
  cbn in Hpos. unfold BlockData_getPosition, Chunk_getUsedSize in Hpos.
  injection Hpos as Hused _.
  unfold recorded at 1. by rewrite Hused, Hst.
Qed.

End RecordedItems.

Lemma pushDataAll_appends_witness :
  Chunk_wellFormed (chunk sampleJacobianData) /\
  pushDataAll [(5, 1); (7, 2)] sampleJacobianData
  = Ok (mkBlockData (mkChunk [(5, 1); (7, 2); (0, 0); (0, 0)] 2) sampleStatementData) /\
  recorded (mkBlockData (mkChunk [(5, 1); (7, 2); (0, 0); (0, 0)] 2) sampleStatementData)
  = recorded sampleJacobianData ++ [(5, 1); (7, 2)].
Proof.
  assert (Hwf : Chunk_wellFormed (chunk sampleJacobianData)).
  { unfold Chunk_wellFormed, Chunk_getSize, size_t_modulus; simpl; lia. }
  split; [exact Hwf|]. split; [reflexivity|].
  exact (proj1 (pushDataAll_appends [(5, 1); (7, 2)] sampleJacobianData _ Hwf eq_refl)).
Defined.

Lemma pushDataAll_beyond_capacity_witness :
  Chunk_wellFormed (chunk sampleStatementData) /\
  Chunk_getSize (chunk sampleStatementData)
    < usedSize (chunk sampleStatementData) + Z.of_nat (length [1; 2; 3]%nat) /\
  pushDataAll [ReuseStatement 1 1; ReuseStatement 2 1; ReuseStatement 3 1]
    sampleStatementData = Fail AssertionViolated.
Proof.
  assert (Hwf : Chunk_wellFormed (chunk sampleStatementData)).
  { unfold Chunk_wellFormed, Chunk_getSize, size_t_modulus; simpl; lia. }
  split; [exact Hwf|]. split; [unfold Chunk_getSize; simpl; lia|].
  refine (pushDataAll_beyond_capacity
            [ReuseStatement 1 1; ReuseStatement 2 1; ReuseStatement 3 1]
            sampleStatementData Hwf _).
  unfold Chunk_getSize; simpl; lia.
Defined.

Lemma BlockData_resetTo_restores_recorded_items_witness :
  Chunk_wellFormed (chunk sampleJacobianData) /\
  wellFormed (nested sampleJacobianData) /\
  exists d'',
    BlockData_resetTo (BlockData_getPosition sampleJacobianData)
      (mkBlockData (mkChunk [(5, 1); (0, 0); (0, 0); (0, 0)] 1)
         (mkBlockData (mkChunk [ReuseStatement 1 1; ReuseStatement 0 0] 1)
            (mkReuseIndexManager [] 1))) = Ok d''
    /\ recorded d'' = recorded sampleJacobianData.
Proof.
  assert (Hwf : Chunk_wellFormed (chunk sampleJacobianData)).
  { unfold Chunk_wellFormed, Chunk_getSize, size_t_modulus; simpl; lia. }
  assert (Hwf' : wellFormed (nested sampleJacobianData)).
  { split; [|exact I].
    unfold Chunk_wellFormed, Chunk_getSize, size_t_modulus; simpl; lia. }
  split; [exact Hwf|]. split; [exact Hwf'|].
  exact (BlockData_resetTo_restores_recorded_items sampleJacobianData _ Hwf Hwf'
           sampleJacobianData_records).
Defined.

(** ** Walking over the items of a stream *)

Section ForEach.
Context {T NestedData A : Type}.

(** A function object that only reads the entry it is given. *)
Local Abbreviation readOnly g := (fun (x : T) (a : A) => (x, g x a)).

Lemma callAt_readOnly (g : T -> A -> A) (d : BlockData T NestedData) (a : A)
    (i : nat) (x : T) :
  storage (chunk d) !! i = Some x ->
  callAt (readOnly g) (Z.of_nat i) (d, a) = Ok (d, g x a).
Proof.
  intros Hx. unfold callAt. cbn. rewrite (array_read_Ok _ _ _ Hx). cbn.
  rewrite Nat2Z.id, list_insert_id by done. by destruct d as [[? ?] ?].
Qed.

Lemma foldResult_callAt_forward (g : T -> A -> A) (d : BlockData T NestedData) :
  forall (n start : nat) (a : A),
    (start + n <= length (storage (chunk d)))%nat ->
    foldResult (callAt (readOnly g)) (seqZ (Z.of_nat start) (Z.of_nat n)) (d, a)
    = Ok (d, fold_left (fun a x => g x a) (take n (drop start (storage (chunk d)))) a).
Proof.
  induction n as [|n IH]; intros start a Hfit; [done|].
  rewrite seqZ_cons by lia.
  destruct (lookup_lt_is_Some_2 (storage (chunk d)) start) as [x Hx]; [lia|].
  cbn [foldResult]. rewrite (callAt_readOnly g d a start x Hx). cbn [mbind Result_bind].
  replace (Z.succ (Z.of_nat start)) with (Z.of_nat (S start)) by lia.
  replace (Z.pred (Z.of_nat (S n))) with (Z.of_nat n) by lia.
  rewrite IH by lia. rewrite (drop_S _ x start Hx). done.
Qed.

Lemma foldResult_callAt_reverse (g : T -> A -> A) (d : BlockData T NestedData)
    (e : nat) :
  forall (n : nat) (a : A),
    (e + n <= length (storage (chunk d)))%nat ->
    foldResult (callAt (readOnly g)) (reverse (seqZ (Z.of_nat e) (Z.of_nat n))) (d, a)
    = Ok (d, fold_left (fun a x => g x a)
               (reverse (take n (drop e (storage (chunk d))))) a).
Proof.
  induction n as [|n IH]; intros a Hfit; [done|].
  rewrite seqZ_S, reverse_snoc.
  destruct (lookup_lt_is_Some_2 (storage (chunk d)) (e + n)) as [x Hx]; [lia|].
  rewrite (take_S_r _ _ x) by (by rewrite lookup_drop).
  rewrite reverse_snoc. cbn [foldResult fold_left].
  replace (Z.of_nat e + Z.of_nat n) with (Z.of_nat (e + n)) by lia.
  rewrite (callAt_readOnly g d a (e + n) x Hx). cbn [mbind Result_bind].
  by rewrite IH by lia.
Qed.

(** [forEachForward(start, end, function)] with a function object that only
    reads: the function is called once for each item from [start] up to, not
    including, [end], in this order, and the stream is as before. *)
Theorem forEachForward_visits_in_order (g : T -> A -> A)
    (d : BlockData T NestedData) (start end_ : Z) (a : A) :
  0 <= start <= end_ ->
  end_ <= Chunk_getSize (chunk d) ->
  forEachForward start end_ (readOnly g) d a
  = Ok (d, fold_left (fun a x => g x a)
             (take (Z.to_nat (end_ - start)) (drop (Z.to_nat start) (storage (chunk d)))) a).
Proof.
  intros Horder Hsize. unfold forEachForward, Chunk_getSize in *.
  destruct (Z.leb_spec start end_); [|lia]. cbn [codiAssert mbind Result_bind].
  replace start with (Z.of_nat (Z.to_nat start)) at 1 by lia.
  replace (end_ - start) with (Z.of_nat (Z.to_nat (end_ - start))) at 1 by lia.
  apply foldResult_callAt_forward. lia.
Qed.

(** [forEachReverse(start, end, function)] with a function object that only
    reads: the function is called once for each item from [start - 1] down
    to [end], that is for the items [forEachForward(end, start)] visits, in
    the opposite order. *)
Theorem forEachReverse_visits_in_reverse_order (g : T -> A -> A)
    (d : BlockData T NestedData) (start end_ : Z) (a : A) :
  0 <= end_ <= start ->
  start <= Chunk_getSize (chunk d) ->
  forEachReverse start end_ (readOnly g) d a
  = Ok (d, fold_left (fun a x => g x a)
             (reverse (take (Z.to_nat (start - end_))
                         (drop (Z.to_nat end_) (storage (chunk d))))) a).
Proof.
  intros Horder Hsize. unfold forEachReverse, Chunk_getSize in *.
  destruct (Z.leb_spec end_ start); [|lia]. cbn [codiAssert mbind Result_bind].
  replace end_ with (Z.of_nat (Z.to_nat end_)) at 1 by lia.
  replace (start - end_) with (Z.of_nat (Z.to_nat (start - end_))) at 1 by lia.
  apply foldResult_callAt_reverse. lia.
Qed.

(** The direction is checked first: a range given the wrong way round stops
    at the assertion before any item is visited. *)
Theorem forEach_wrong_direction (f : T -> A -> T * A)
    (d : BlockData T NestedData) (start end_ : Z) (a : A) :
  end_ < start ->
  forEachForward start end_ f d a = Fail AssertionViolated
  /\ forEachReverse end_ start f d a = Fail AssertionViolated.
Proof.
  intros Hwrong. unfold forEachForward, forEachReverse.
  destruct (Z.leb_spec start end_); [lia|]. done.
Qed.

End ForEach.

(** Collecting the identifiers of the three argument entries of a stream,
    forward and backward. *)
Lemma forEachForward_visits_in_order_witness :
  let d := mkBlockData (mkChunk [(5, 1); (7, 2); (9, 3); (0, 0)] 3) sampleStatementData in
  (0 <= 0 <= 3) /\ 3 <= Chunk_getSize (chunk d) /\
  forEachForward 0 3 (fun x a => (x, a ++ [x.2])) d [] = Ok (d, [1; 2; 3]).
Proof.
  intros d. split; [lia|]. split; [unfold Chunk_getSize; simpl; lia|].
  refine (forEachForward_visits_in_order (fun x a => a ++ [x.2]) d 0 3 [] _ _).
  - lia.
  - unfold Chunk_getSize; simpl; lia.
Defined.

Lemma forEachReverse_visits_in_reverse_order_witness :
  let d := mkBlockData (mkChunk [(5, 1); (7, 2); (9, 3); (0, 0)] 3) sampleStatementData in
  (0 <= 0 <= 3) /\ 3 <= Chunk_getSize (chunk d) /\
  forEachReverse 3 0 (fun x a => (x, a ++ [x.2])) d [] = Ok (d, [3; 2; 1]).
Proof.
  intros d. split; [lia|]. split; [unfold Chunk_getSize; simpl; lia|].
  refine (forEachReverse_visits_in_reverse_order (fun x a => a ++ [x.2]) d 3 0 [] _ _).
  - lia.
  - unfold Chunk_getSize; simpl; lia.
Defined.

Lemma forEach_wrong_direction_witness :
  0 < 3 /\
  forEachForward 3 0 (fun (x : Z * Identifier) (a : list Z) => (x, a)) sampleJacobianData []
    = Fail AssertionViolated
  /\ forEachReverse 0 3 (fun (x : Z * Identifier) (a : list Z) => (x, a)) sampleJacobianData []
    = Fail AssertionViolated.
Proof.
  split; [lia|].
  refine (forEach_wrong_direction _ sampleJacobianData 3 0 [] _). lia.
Defined.

(** ** What a statement puts on the tape *)

Section RecordedArguments.
Context {Real Gradient IM : Type}.
Context `{!Arithmetic Real Gradient}.

Local Abbreviation JacobianData := (BlockData (Real * Identifier) (BlockData StatementEntry IM)).

Lemma appendedWith_refl {Refs} (P : Real * Identifier -> Prop)
    (st : Refs * JacobianData) (refs' : Refs) :
  Chunk_wellFormed (chunk st.2) -> appendedWith P st (refs', st.2).
Proof.
  intros Hwf. repeat split; try done; try apply Hwf.
  exists []. cbn. rewrite app_nil_r. repeat split; [done|lia].
Qed.

Lemma appendedWith_trans {Refs} (P : Real * Identifier -> Prop)
    (st1 st2 st3 : Refs * JacobianData) :
  appendedWith P st1 st2 -> appendedWith P st2 st3 -> appendedWith P st1 st3.
Proof.
  intros (Hwf2 & Hs2 & Hn2 & new2 & Hr2 & HP2 & Hu2)
         (Hwf3 & Hs3 & Hn3 & new3 & Hr3 & HP3 & Hu3).
  split; [done|]. split; [congruence|]. split; [congruence|].
  exists (new2 ++ new3). rewrite Hr3, Hr2, <- app_assoc, length_app.
  split; [done|]. split; [by apply Forall_app|lia].
Qed.

Lemma appendedWith_pushData {Refs} (P : Real * Identifier -> Prop)
    (x : Real * Identifier) (refs refs' : Refs) (jd jd' : JacobianData) :
  Chunk_wellFormed (chunk jd) -> P x ->
  pushData x jd = Ok jd' -> appendedWith P (refs, jd) (refs', jd').
Proof.
  intros Hwf HP Hpush.
  destruct (pushData_recorded x jd jd' Hwf Hpush) as (Hrec & Hwf' & Hu & Hst & Hn).
  split; [done|]. split.
  { cbn. unfold Chunk_getSize. by rewrite Hst, length_insert. }
  split; [done|]. exists [x]. cbn. repeat split; [done|by constructor|lia].
Qed.

Lemma handleJacobianOnActive_appends (cfg : Config) (term : Real * Node)
    (st st' : gmap nat Real * JacobianData) :
  Chunk_wellFormed (chunk st.2) ->
  handleJacobianOnActive cfg term st = Ok st' ->
  appendedWith (passesChecks cfg) st st'.
Proof.
  destruct term as [jacobian [id|ref id]], st as [refs jd]; cbn; intros Hwf.
  - destruct (CODI_ENABLE_CHECK (CheckZeroIndex cfg) _) eqn:Hzero;
      [|intros [= <-]; by apply (appendedWith_refl _ (refs, jd))].
    destruct (CODI_ENABLE_CHECK (IgnoreInvalidJacobies cfg) _);
      [|intros [= <-]; by apply (appendedWith_refl _ (refs, jd))].
    destruct (CODI_ENABLE_CHECK (CheckJacobiIsZero cfg) _) eqn:Hjac;
      [|intros [= <-]; by apply (appendedWith_refl _ (refs, jd))].
    destruct (pushData (jacobian, id) jd) as [jd'|] eqn:Hpush; cbn; [|discriminate].
    intros [= <-]. by apply (appendedWith_pushData _ (jacobian, id)).
  - destruct (CODI_ENABLE_CHECK _ _); intros [= <-];
      by apply (appendedWith_refl _ (refs, jd)).
Qed.

Lemma handleActive_appends (cfg : Config) (node : Node)
    (st st' : gmap nat Real * JacobianData) :
  Chunk_wellFormed (chunk st.2) ->
  handleActive cfg node st = Ok st' ->
  appendedWith (passesChecks cfg) st st'.
Proof.
  destruct node as [id|ref id], st as [refs jd]; cbn; intros Hwf.
  - intros [= <-]. by apply (appendedWith_refl _ (refs, jd)).
  - destruct (CODI_ENABLE_CHECK (CheckZeroIndex cfg) _) eqn:Hzero;
      [|intros [= <-]; by apply (appendedWith_refl _ (refs, jd))].
    destruct (CODI_ENABLE_CHECK (CheckJacobiIsZero cfg) _) eqn:Hjac;
      [|intros [= <-]; by apply (appendedWith_refl _ (refs, jd))].
    destruct (pushData (refJacobian refs ref, id) jd) as [jd'|] eqn:Hpush;
      cbn; [|discriminate].
    intros [= <-]. by apply (appendedWith_pushData _ (refJacobian refs ref, id)).
Qed.

Lemma foldResult_appends {X} (P : Real * Identifier -> Prop)
    (f : X -> gmap nat Real * JacobianData -> Result (gmap nat Real * JacobianData)) :
  (forall x st st', Chunk_wellFormed (chunk st.2) -> f x st = Ok st' ->
                    appendedWith P st st') ->
  forall l st st', Chunk_wellFormed (chunk st.2) -> foldResult f l st = Ok st' ->
                   appendedWith P st st'.
Proof.
  intros Hstep. induction l as [|x l IH]; intros st st' Hwf Hrun.
  - injection Hrun as <-. destruct st. by apply (appendedWith_refl _ (_, _)).
  - cbn [foldResult] in Hrun.
    destruct (f x st) as [st1|] eqn:Hf; [|discriminate].
    cbn [mbind Result_bind] in Hrun.
    pose proof (Hstep x st st1 Hwf Hf) as H1.
    eapply appendedWith_trans; [exact H1|]. apply IH; [apply H1|done].
Qed.

Lemma pushJacobians_appends_aux (cfg : Config) (rhs : Expression Real)
    (st st' : gmap nat Real * JacobianData) :
  Chunk_wellFormed (chunk st.2) ->
  pushJacobians cfg rhs st = Ok st' ->
  exists new,
    recorded st'.2 = recorded st.2 ++ new
    /\ Forall (passesChecks cfg) new
    /\ usedSize (chunk st'.2) = usedSize (chunk st.2) + Z.of_nat (length new)
    /\ nested st'.2 = nested st.2.
Proof.
  intros Hwf Hrun. unfold pushJacobians in Hrun.
  destruct (foldResult (handleJacobianOnActive cfg) (terms rhs) st) as [st1|] eqn:H1;
    [|discriminate].
  cbn [mbind Result_bind] in Hrun.
  pose proof (foldResult_appends _ _ (handleJacobianOnActive_appends cfg) _ _ _ Hwf H1) as A1.
  pose proof (foldResult_appends _ _ (handleActive_appends cfg) _ _ _ (proj1 A1) Hrun) as A2.
  destruct (appendedWith_trans _ _ _ _ A1 A2) as (_ & _ & Hn & new & Hr & HP & Hu).
  by exists new.
Qed.

(** What [pushJacobians] puts on the tape: whenever it returns, the Jacobian
    stream holds the entries it held, followed by the new ones; no new entry
    has the identifier 0 of a passive value when [Config::CheckZeroIndex] is
    on, and none has a zero Jacobian when [Config::CheckJacobiIsZero] is on;
    the statement stream is not touched. *)
Theorem pushJacobians_appends_checked_entries (cfg : Config) (rhs : Expression Real)
    (st st' : gmap nat Real * JacobianData) :
  Chunk_wellFormed (chunk st.2) ->
  pushJacobians cfg rhs st = Ok st' ->
  exists new,
    recorded st'.2 = recorded st.2 ++ new
    /\ Forall (passesChecks cfg) new
    /\ usedSize (chunk st'.2) = usedSize (chunk st.2) + Z.of_nat (length new)
    /\ nested st'.2 = nested st.2.
Proof. apply pushJacobians_appends_aux. Qed.

End RecordedArguments.

(** [y = 0 * a + 3 * b + 4 * c] where [c] is passive (identifier 0): only the
    entry of [b] reaches the tape. *)
Lemma pushJacobians_appends_checked_entries_witness :
  let rhs := mkExpression 10 [(0, ActiveNode 1); (3, ActiveNode 2); (4, ActiveNode 0)] in
  let st' := (∅, mkBlockData (mkChunk [(3, 2); (0, 0); (0, 0); (0, 0)] 1)
                   sampleStatementData) in
  Chunk_wellFormed (chunk sampleJacobianData) /\
  pushJacobians defaultConfig rhs (∅, sampleJacobianData) = Ok st' /\
  exists new,
    recorded st'.2 = recorded sampleJacobianData ++ new
    /\ Forall (passesChecks defaultConfig) new
    /\ usedSize (chunk st'.2) = usedSize (chunk sampleJacobianData) + Z.of_nat (length new)
    /\ nested st'.2 = nested sampleJacobianData.
Proof.
  intros rhs st'.
  assert (Hwf : Chunk_wellFormed (chunk sampleJacobianData)).
  { unfold Chunk_wellFormed, Chunk_getSize, size_t_modulus; simpl; lia. }
  split; [exact Hwf|]. split; [reflexivity|].
  exact (pushJacobians_appends_checked_entries defaultConfig rhs
           (∅, sampleJacobianData) st' Hwf eq_refl).
Defined.

(** ** Leaves that occur more than once *)

Section ReferenceLeaves.
Context {Real Gradient IM : Type}.
Context `{!Arithmetic Real Gradient}.

Local Abbreviation JacobianData := (BlockData (Real * Identifier) (BlockData StatementEntry IM)).

Lemma refJacobian_insert (refs : gmap nat Real) (r : nat) (x : Real) :
  refJacobian (<[r := x]> refs) r = x.
Proof. unfold refJacobian. by rewrite lookup_insert_eq. Qed.

Lemma refJacobian_insert_ne (refs : gmap nat Real) (r r' : nat) (x : Real) :
  r <> r' -> refJacobian (<[r := x]> refs) r' = refJacobian refs r'.
Proof. intros Hne. unfold refJacobian. by rewrite lookup_insert_ne. Qed.

Lemma pushDataAll_app {T N} (xs ys : list T) :
  forall d : BlockData T N,
    pushDataAll (xs ++ ys) d = (d' ← pushDataAll xs d; pushDataAll ys d').
Proof.
  induction xs as [|x xs IH]; intros d; [done|].
  cbn [app pushDataAll]. destruct (pushData x d) as [d1|e]; [|done].
  cbn [mbind Result_bind]. apply IH.
Qed.

Lemma pushDataAll_recorded {T N} (xs : list T) :
  forall d d' : BlockData T N,
    Chunk_wellFormed (chunk d) ->
    pushDataAll xs d = Ok d' ->
    recorded d' = recorded d ++ xs.
Proof.
  induction xs as [|x xs IH]; intros d d' Hwf Hrun.
  - injection Hrun as <-. by rewrite app_nil_r.
  - cbn [pushDataAll] in Hrun.
    destruct (pushData x d) as [d1|e] eqn:Hpush; [|discriminate].
    cbn [mbind Result_bind] in Hrun.
    destruct (pushData_recorded x d d1 Hwf Hpush) as (Hrec & Hwf1 & _).
    rewrite (IH d1 d' Hwf1 Hrun), Hrec, <- app_assoc. done.
Qed.

Lemma accumulated_refJacobian (r : nat) (partials : list Real) :
  forall refs : gmap nat Real,
    refJacobian (accumulated r partials refs) r
    = fold_left Real_add partials (refJacobian refs r)
    /\ forall x, <[r := x]> (accumulated r partials refs) = <[r := x]> refs.
Proof.
  unfold accumulated.
  induction partials as [|j js IH]; intros refs; [done|].
  cbn [fold_left]. destruct (IH (<[r := Real_add (refJacobian refs r) j]> refs)) as [Hsum Hins].
  split.
  - by rewrite Hsum, refJacobian_insert.
  - intros x. by rewrite Hins, insert_insert_eq.
Qed.

(** The first traversal pushes the entries of the active leaves and sums the
    partials of the reference object in its member. *)
Lemma foldResult_handleJacobianOnActive_mixed (cfg : Config) (r : nat) (id : Identifier)
    (ts : list (Real * Node)) :
  forall (refs : gmap nat Real) (jd : JacobianData),
    Forall (onlyReference r id) ts.*2 ->
    foldResult (handleJacobianOnActive cfg) ts (refs, jd)
    = (jd1 ← pushDataAll (directEntries cfg ts) jd;
       Ok (accumulated r (referencePartials cfg r ts) refs, jd1)).
Proof.
  induction ts as [|[j node] ts IH]; intros refs jd Hall; [done|].
  rewrite fmap_cons in Hall. apply Forall_cons in Hall as [Hnode Hall].
  cbn [foldResult handleJacobianOnActive].
  destruct node as [id'|r' id']; cbn in Hnode.
  - unfold directEntries, referencePartials. cbn [omap list_omap fst snd].
    fold (directEntries cfg ts). fold (referencePartials cfg r ts).
    destruct (CODI_ENABLE_CHECK (CheckZeroIndex cfg) (negb (0 =? id')));
      cbn [andb mbind Result_bind]; [|by apply IH].
    destruct (CODI_ENABLE_CHECK (IgnoreInvalidJacobies cfg) (isTotalFinite j));
      cbn [andb mbind Result_bind]; [|by apply IH].
    destruct (CODI_ENABLE_CHECK (CheckJacobiIsZero cfg) (negb (isTotalZeroReal j)));
      cbn [andb mbind Result_bind]; [|by apply IH].
    cbn [pushDataAll]. destruct (pushData (j, id') jd) as [jd1|e]; [|done].
    cbn [mbind Result_bind]. by apply IH.
  - destruct Hnode as [-> ->].
    unfold directEntries, referencePartials. cbn [omap list_omap fst snd].
    fold (directEntries cfg ts). fold (referencePartials cfg r ts).
    rewrite bool_decide_eq_true_2 by done. cbn [andb].
    destruct (CODI_ENABLE_CHECK (IgnoreInvalidJacobies cfg) (isTotalFinite j));
      cbn [mbind Result_bind]; by rewrite IH.
Qed.

(** Once the object holds a zero Jacobian, the second traversal passes all
    its occurrences by. *)
Lemma foldResult_handleActive_skips (cfg : Config) (r : nat) (id : Identifier)
    (refs : gmap nat Real) (jd : JacobianData) (nodes : list Node) :
  CheckJacobiIsZero cfg = true ->
  isTotalZeroReal (refJacobian refs r) = true ->
  Forall (onlyReference r id) nodes ->
  foldResult (handleActive cfg) nodes (refs, jd) = Ok (refs, jd).
Proof.
  intros Hcheck Hzero. induction 1 as [|node nodes Hnode _ IH]; [done|].
  cbn [foldResult handleActive]. destruct node as [id'|r' id']; cbn in Hnode.
  - exact IH.
  - destruct Hnode as [-> ->].
    unfold CODI_ENABLE_CHECK at 2. rewrite Hcheck, Hzero. cbn [negb orb].
    destruct (CODI_ENABLE_CHECK _ _); cbn [mbind Result_bind]; exact IH.
Qed.

(** The second traversal pushes the sum at the first occurrence of the
    object and resets the member. *)
Lemma foldResult_handleActive_pushes_once (cfg : Config) (r : nat) (id : Identifier)
    (refs : gmap nat Real) (nodes : list Node) :
  CheckJacobiIsZero cfg = true ->
  isTotalZeroReal Real_zero = true ->
  CODI_ENABLE_CHECK (CheckZeroIndex cfg) (negb (0 =? id)) = true ->
  isTotalZeroReal (refJacobian refs r) = false ->
  Forall (onlyReference r id) nodes ->
  ReferenceNode r id ∈ nodes ->
  forall jd : JacobianData,
    foldResult (handleActive cfg) nodes (refs, jd)
    = (jd' ← pushData (refJacobian refs r, id) jd; Ok (<[r := Real_zero]> refs, jd')).
Proof.
  intros Hcheck Hzero Hid Hsum Hall. induction Hall as [|node nodes Hnode Hall IH].
  { by intros ?%elem_of_nil. }
  intros Hin jd. cbn [foldResult handleActive].
  destruct node as [id'|r' id']; cbn in Hnode.
  - apply elem_of_cons in Hin as [Hin|Hin]; [discriminate|]. by apply IH.
  - destruct Hnode as [-> ->]. rewrite Hid.
    unfold CODI_ENABLE_CHECK at 1. rewrite Hsum. cbn [negb]. rewrite orb_true_r.
    destruct (pushData (refJacobian refs r, id) jd) as [jd'|e]; [|done].
    cbn [mbind Result_bind].
    apply foldResult_handleActive_skips with (r := r) (id := id); [done| |done].
    by rewrite refJacobian_insert.
Qed.

(** A [ReferenceActiveType] object that occurs in a right hand side, any
    number of times and among any [ActiveType] leaves, is recorded once.
    The conditions are those under which the source does so:
    [Config::CheckJacobiIsZero] is on, the object is the only reference
    object of the right hand side, the identifier it refers to passes the
    check of [Config::CheckZeroIndex], and the sum of its partials (those
    that pass [Config::IgnoreInvalidJacobies], added to what the member held)
    is not zero.  Then [pushJacobians] does what pushing the entries of the
    active leaves followed by the one entry [(sum, identifier)] does, also
    where a push fails, and leaves [Real()] in the member; with room for
    these entries it returns, and they are what it has appended. *)
Theorem pushJacobians_sums_reference_occurrences (cfg : Config)
    (r : nat) (id : Identifier) (rhs : Expression Real)
    (refs : gmap nat Real) (jd : JacobianData) :
  CheckJacobiIsZero cfg = true ->
  isTotalZeroReal Real_zero = true ->
  CODI_ENABLE_CHECK (CheckZeroIndex cfg) (negb (0 =? id)) = true ->
  Forall (onlyReference r id) (terms rhs).*2 ->
  ReferenceNode r id ∈ (terms rhs).*2 ->
  isTotalZeroReal
    (fold_left Real_add (referencePartials cfg r (terms rhs)) (refJacobian refs r)) = false ->
  let entries :=
    directEntries cfg (terms rhs)
    ++ [(fold_left Real_add (referencePartials cfg r (terms rhs)) (refJacobian refs r), id)] in
  pushJacobians cfg rhs (refs, jd)
  = (jd' ← pushDataAll entries jd; Ok (<[r := Real_zero]> refs, jd'))
  /\ (Chunk_wellFormed (chunk jd) ->
      usedSize (chunk jd) + Z.of_nat (length entries) <= Chunk_getSize (chunk jd) ->
      exists jd', pushJacobians cfg rhs (refs, jd) = Ok (<[r := Real_zero]> refs, jd')
        /\ recorded jd' = recorded jd ++ entries).
Proof.
  intros Hcheck Hzero Hid Hall Hin Hsum entries.
  destruct (accumulated_refJacobian r (referencePartials cfg r (terms rhs)) refs)
    as [Hacc Hins].
  assert (Heq : pushJacobians cfg rhs (refs, jd)
                = (jd' ← pushDataAll entries jd; Ok (<[r := Real_zero]> refs, jd'))).
  { unfold pushJacobians.
    rewrite (foldResult_handleJacobianOnActive_mixed cfg r id (terms rhs) refs jd Hall).
    subst entries. rewrite pushDataAll_app.
    destruct (pushDataAll (directEntries cfg (terms rhs)) jd) as [jd1|e]; [|done].
    cbn [mbind Result_bind pushDataAll].
    rewrite (foldResult_handleActive_pushes_once cfg r id _ _ Hcheck Hzero Hid)
      by (done || by rewrite Hacc).
    rewrite Hacc, Hins.
    by destruct (pushData _ jd1). }
  split; [exact Heq|].
  intros Hwf Hroom.
  destruct (pushDataAll_Ok entries jd Hwf Hroom) as (jd' & Hrun & _).
  exists jd'. rewrite Heq, Hrun. split; [done|].
  by apply pushDataAll_recorded.
Qed.

End ReferenceLeaves.

(** [y = a * r * r] with [a = 3] behind identifier 2 and the reference [r = 2]
    behind identifier 1: the partial 4 of [a] is pushed, and the two partials
    6 of the occurrences of [r] make one entry with 12. *)
Lemma pushJacobians_sums_reference_occurrences_witness :
  let rhs := mkExpression 12 [(6, ReferenceNode 0 1); (4, ActiveNode 2);
                              (6, ReferenceNode 0 1)] in
  CheckJacobiIsZero defaultConfig = true /\
  isTotalZeroReal (0 : Z) = true /\
  ReferenceNode 0 1 ∈ (terms rhs).*2 /\
  pushJacobians defaultConfig rhs (∅, sampleJacobianData)
  = Ok (<[0%nat := 0]> ∅,
        mkBlockData (mkChunk [(4, 2); (12, 1); (0, 0); (0, 0)] 2) sampleStatementData).
Proof.
  intros rhs.
  assert (Hin : ReferenceNode 0 1 ∈ (terms rhs).*2) by (subst rhs; cbn; by left).
  split; [reflexivity|]. split; [reflexivity|]. split; [exact Hin|].
  refine (eq_trans
    (proj1 (pushJacobians_sums_reference_occurrences defaultConfig 0%nat 1%Z rhs
              ∅ sampleJacobianData _ _ _ _ Hin _)) _).
  - reflexivity.
  - reflexivity.
  - reflexivity.
  - subst rhs. repeat constructor.
  - reflexivity.
  - reflexivity.
Defined.

(** ** The statement that [store] commits *)

Section StoreRecords.
Context {Real Gradient IM : Type}.
Context `{!Arithmetic Real Gradient}.
Context `{!IndexManagerInterface IM} `{!DataInterface IM}.

Local Abbreviation JacobianData := (BlockData (Real * Identifier) (BlockData StatementEntry IM)).
Local Abbreviation Tape := (JacobianBaseTape (Real := Real) (Gradient := Gradient) (IM := IM)).

Lemma store_commits_statement_aux
    (cfg : Config) (t : Tape) (refs : gmap nat Real)
    (lhs : ActiveType Real) (rhs : Expression Real)
    (st : gmap nat Real * JacobianData) (im : IM) (id : Identifier) (b : bool) :
  isActive t = true ->
  Chunk_wellFormed (chunk (statementData t)) ->
  Chunk_wellFormed (chunk (jacobianData t)) ->
  usedSize (chunk (statementData t)) + 1 <= Chunk_getSize (chunk (statementData t)) ->
  usedSize (chunk (jacobianData t)) + NumberOfActiveTypeArguments rhs
    <= Chunk_getSize (chunk (jacobianData t)) ->
  NumberOfActiveTypeArguments rhs < 2 ^ ArgumentSizeBits cfg ->
  pushJacobians cfg rhs (refs, jacobianData t) = Ok st ->
  usedSize (chunk st.2) <> usedSize (chunk (jacobianData t)) ->
  assignIndex (indexManager t) (identifier lhs) = (im, id, b) ->
  exists t' new,
    store cfg t refs lhs rhs = Ok (t', st.1, mkActiveType (getValue rhs) id)
    /\ new <> []
    /\ Forall (passesChecks cfg) new
    /\ recorded (jacobianData t') = recorded (jacobianData t) ++ new
    /\ recorded (statementData t')
       = recorded (statementData t)
         ++ [if IsLinear then LinearStatement (Z.of_nat (length new))
             else ReuseStatement id (Z.of_nat (length new))]
    /\ indexManager t' = im
    /\ adjoints t' = adjoints t
    /\ chunk (jacobianData t') = chunk st.2.
Proof.
  intros Hactive Hwfs Hwfj Hcaps Hcapj Hbits Hpush Hsome Hassign.
  destruct (pushJacobians_pushes cfg rhs (refs, jacobianData t) Hwfj Hcapj)
    as (st0 & Hpush0 & _ & _ & _ & Hmost & _).
  rewrite Hpush in Hpush0. injection Hpush0 as <-. cbn in Hmost.
  destruct (pushJacobians_appends_aux cfg rhs (refs, jacobianData t) st
              Hwfj Hpush)
    as (new & Hrec & Hchecked & Hused & Hnested).
  cbn in Hrec, Hused, Hnested.
  assert (Hargs : 0 <= NumberOfActiveTypeArguments rhs)
    by (unfold NumberOfActiveTypeArguments; lia).
  assert (Hcount : getPushedDataCount st.2 (usedSize (chunk (jacobianData t)))
                   = Z.of_nat (length new)).
  { unfold getPushedDataCount, Chunk_getUsedSize, wrap_size_t. rewrite Hused.
    destruct Hwfj as [? ?]. unfold NumberOfActiveTypeArguments in *.
    rewrite Z.mod_small by lia. lia. }
  assert (Hnew : new <> []) by (intros ->; cbn in Hused; lia).
  assert (Hlen : 0 < Z.of_nat (length new)) by (destruct new; [done|cbn; lia]).
  destruct st as [refs' [c' n']]. cbn in Hnested, Hrec, Hused, Hcount, Hmost, Hsome.
  subst n'.
  set (entry := if IsLinear then LinearStatement (Z.of_nat (length new))
                else ReuseStatement id (Z.of_nat (length new))).
  destruct (Chunk_pushData_Ok entry (chunk (statementData t)) Hwfs)
    as (c & Hc & _); [lia|].
  assert (Hstmt : pushData entry (mkBlockData (chunk (statementData t)) im)
                  = Ok (mkBlockData c im)).
  { unfold pushData. cbn. by rewrite Hc. }
  destruct (pushData_recorded entry (mkBlockData (chunk (statementData t)) im) _
              Hwfs Hstmt) as (Hrecs & _).
  exists (mkJacobianBaseTape (mkBlockData c' (mkBlockData c im)) (adjoints t) (active t)), new.
  split; [|by repeat split].
  unfold store, CODI_ENABLE_CHECK. rewrite Hactive, orb_true_r.
  rewrite (reserveItems_Ok (statementData t) 1) by (done || lia).
  cbn [mbind Result_bind].
  rewrite (reserveItems_Ok (jacobianData t)) by done.
  cbn [mbind Result_bind]. rewrite Hpush. cbn [mbind Result_bind].
  change (jacobianData (set_jacobianData (refs', mkBlockData c' (nested (jacobianData t))).2 t))
    with (mkBlockData c' (nested (jacobianData t))).
  rewrite Hcount.
  destruct (Z.eqb_spec 0 (Z.of_nat (length new))); [lia|]. cbn [negb].
  change (indexManager (set_jacobianData
            (refs', mkBlockData c' (nested (jacobianData t))).2 t))
    with (indexManager t).
  rewrite Hassign. unfold pushStmtData, cast_ArgumentSize.
  rewrite Z.mod_small by (unfold NumberOfActiveTypeArguments in *; lia).
  fold entry.
  change (statementData (set_indexManager im (set_jacobianData
            (refs', mkBlockData c' (nested (jacobianData t))).2 t)))
    with (mkBlockData (chunk (statementData t)) im).
  rewrite Hstmt. reflexivity.
Qed.

(** [store] on an active tape whose right hand side pushes at least one
    argument entry: the identifier that [assignIndex] hands out becomes the
    identifier of the output, the pushed entries are appended to the Jacobian
    stream, and one statement is appended to the statement stream whose
    argument count is the number of entries that were appended.  The number
    of active leaves has to fit into [Config::ArgumentSize]. *)
Theorem store_commits_statement_with_argument_count
    (cfg : Config) (t : Tape) (refs : gmap nat Real)
    (lhs : ActiveType Real) (rhs : Expression Real)
    (st : gmap nat Real * JacobianData) (im : IM) (id : Identifier) (b : bool) :
  isActive t = true ->
  Chunk_wellFormed (chunk (statementData t)) ->
  Chunk_wellFormed (chunk (jacobianData t)) ->
  usedSize (chunk (statementData t)) + 1 <= Chunk_getSize (chunk (statementData t)) ->
  usedSize (chunk (jacobianData t)) + NumberOfActiveTypeArguments rhs
    <= Chunk_getSize (chunk (jacobianData t)) ->
  NumberOfActiveTypeArguments rhs < 2 ^ ArgumentSizeBits cfg ->
  pushJacobians cfg rhs (refs, jacobianData t) = Ok st ->
  usedSize (chunk st.2) <> usedSize (chunk (jacobianData t)) ->
  assignIndex (indexManager t) (identifier lhs) = (im, id, b) ->
  exists t' new,
    store cfg t refs lhs rhs = Ok (t', st.1, mkActiveType (getValue rhs) id)
    /\ new <> []
    /\ Forall (passesChecks cfg) new
    /\ recorded (jacobianData t') = recorded (jacobianData t) ++ new
    /\ recorded (statementData t')
       = recorded (statementData t)
         ++ [if IsLinear then LinearStatement (Z.of_nat (length new))
             else ReuseStatement id (Z.of_nat (length new))]
    /\ indexManager t' = im
    /\ adjoints t' = adjoints t.
Proof.
  intros H1 H2 H3 H4 H5 H6 H7 H8 H9.
  destruct (store_commits_statement_aux cfg t refs lhs rhs st im id b
              H1 H2 H3 H4 H5 H6 H7 H8 H9)
    as (t' & new & Hs & Hn & Hc & Hj & Hst & Hi & Ha & _).
  by exists t', new.
Qed.

End StoreRecords.

(** [y = a * b] with [a = 2] and [b = 3] at identifiers 1 and 2 on the active
    sample tape. *)
Lemma store_commits_statement_with_argument_count_witness :
  let t := sampleTape true in
  let rhs := mkExpression 6 [(3, ActiveNode 1); (2, ActiveNode 2)] in
  isActive t = true /\
  NumberOfActiveTypeArguments rhs < 2 ^ ArgumentSizeBits defaultConfig /\
  exists t' new,
    store defaultConfig t ∅ (mkActiveType 0 UnusedIndex) rhs
      = Ok (t', ∅, mkActiveType 6 1)
    /\ new <> []
    /\ Forall (passesChecks defaultConfig) new
    /\ recorded (jacobianData t') = recorded (jacobianData t) ++ new
    /\ recorded (statementData t')
       = recorded (statementData t) ++ [ReuseStatement 1 (Z.of_nat (length new))]
    /\ indexManager t' = mkReuseIndexManager [] 1
    /\ adjoints t' = adjoints t.
Proof.
  intros t rhs. split; [reflexivity|]. split; [reflexivity|].
  refine (store_commits_statement_with_argument_count defaultConfig t ∅
            (mkActiveType 0 UnusedIndex) rhs
            (∅, mkBlockData (mkChunk [(3, 1); (2, 2); (0, 0); (0, 0)] 2) sampleStatementData)
            (mkReuseIndexManager [] 1) 1 true _ _ _ _ _ _ _ _ _).
  - reflexivity.
  - apply (sampleTape_wellFormed true).
  - apply (sampleTape_wellFormed true).
  - subst t rhs; unfold Chunk_getSize; simpl; lia.
  - subst t rhs; unfold Chunk_getSize, NumberOfActiveTypeArguments; simpl; lia.
  - reflexivity.
  - reflexivity.
  - subst t rhs; simpl; lia.
  - reflexivity.
Defined.

(** ** Inputs, copies and manual statements *)

Section ManualAndCopy.
Context {Real Gradient IM : Type}.
Context `{!Arithmetic Real Gradient}.
Context `{!IndexManagerInterface IM} `{!DataInterface IM}.

Local Abbreviation JacobianData := (BlockData (Real * Identifier) (BlockData StatementEntry IM)).
Local Abbreviation Tape := (JacobianBaseTape (Real := Real) (Gradient := Gradient) (IM := IM)).

(** [registerInput] gives the variable the identifier that
    [assignUnusedIndex] hands out and keeps its value; it never pushes an
    argument entry; under linear index management it appends one statement
    carrying [Config::StatementInputTag], under reuse management it appends
    nothing. *)
Theorem registerInput_records_input_statement
    (cfg : Config) (t : Tape) (v : ActiveType Real)
    (im : IM) (id : Identifier) (b : bool) :
  Chunk_wellFormed (chunk (statementData t)) ->
  (IsLinear = true ->
   usedSize (chunk (statementData t)) + 1 <= Chunk_getSize (chunk (statementData t))) ->
  assignUnusedIndex (indexManager t) (identifier v) = (im, id, b) ->
  exists t',
    registerInput cfg t v = Ok (t', mkActiveType (value v) id)
    /\ chunk (jacobianData t') = chunk (jacobianData t)
    /\ recorded (statementData t')
       = recorded (statementData t)
         ++ (if IsLinear then [LinearStatement (StatementInputTag cfg)] else [])
    /\ indexManager t' = im
    /\ adjoints t' = adjoints t.
Proof.
  intros Hwf Hroom Hassign. unfold registerInput. rewrite Hassign.
  destruct IsLinear eqn:Hlinear.
  - specialize (Hroom eq_refl).
    change (statementData (set_indexManager im t))
      with (mkBlockData (chunk (statementData t)) im).
    rewrite (reserveItems_Ok (mkBlockData (chunk (statementData t)) im) 1)
      by (done || lia).
    cbn [mbind Result_bind]. unfold pushStmtData. rewrite Hlinear.
    change (statementData (set_indexManager im t))
      with (mkBlockData (chunk (statementData t)) im).
    destruct (Chunk_pushData_Ok (LinearStatement (StatementInputTag cfg))
                (chunk (statementData t)) Hwf) as (c & Hc & _); [lia|].
    assert (Hpush : pushData (LinearStatement (StatementInputTag cfg))
                      (mkBlockData (chunk (statementData t)) im)
                    = Ok (mkBlockData c im)).
    { unfold pushData. cbn. by rewrite Hc. }
    destruct (pushData_recorded _ (mkBlockData (chunk (statementData t)) im) _
                Hwf Hpush) as (Hrec & _).
    rewrite Hpush. cbn [mbind Result_bind]. eexists. split; [reflexivity|].
    by repeat split.
  - eexists. split; [reflexivity|]. cbn. rewrite app_nil_r. by repeat split.
Qed.

Lemma foldResult_handleJacobianOnActive_pushes (cfg : Config)
    (es : list (Real * Identifier)) :
  Forall (fun e => passesChecks cfg e
                   /\ CODI_ENABLE_CHECK (IgnoreInvalidJacobies cfg) (isTotalFinite e.1) = true)
         es ->
  forall (refs : gmap nat Real) (jd : JacobianData),
    foldResult (handleJacobianOnActive cfg) ((fun e => (e.1, ActiveNode e.2)) <$> es) (refs, jd)
    = (jd' ← pushDataAll es jd; Ok (refs, jd')).
Proof.
  induction 1 as [|[jac id] es [[Hzero Hjac] Hfin] _ IH]; intros refs jd; [done|].
  cbn in Hzero, Hjac, Hfin.
  rewrite fmap_cons. cbn -[CODI_ENABLE_CHECK pushData].
  rewrite Hzero, Hfin, Hjac.
  destruct (pushData (jac, id) jd) as [jd1|]; cbn [mbind Result_bind]; [|done].
  apply IH.
Qed.

Lemma foldResult_handleActive_active (cfg : Config) (es : list (Real * Identifier))
    (st : gmap nat Real * JacobianData) :
  foldResult (handleActive cfg) ((fun e => (e.1, ActiveNode e.2)) <$> es).*2 st = Ok st.
Proof.
  induction es as [|e es IH]; [done|].
  cbn. destruct st. exact IH.
Qed.

Lemma foldResult_pushJacobiManual (es : list (Real * Identifier)) :
  forall t : Tape,
    foldResult (fun e t => pushJacobiManual e.1 e.2 t) es t
    = (jd ← pushDataAll es (jacobianData t); Ok (set_jacobianData jd t)).
Proof.
  induction es as [|[jac id] es IH]; intros t.
  - cbn. by destruct t.
  - cbn [foldResult pushDataAll].
    change (pushJacobiManual (jac, id).1 (jac, id).2 t)
      with (jd ← pushData (jac, id) (jacobianData t); Ok (set_jacobianData jd t)).
    destruct (pushData (jac, id) (jacobianData t)) as [jd1|]; cbn [mbind Result_bind];
      [|done].
    rewrite IH. cbn.
    destruct (pushDataAll es jd1); done.
Qed.

Lemma pushDataAll_other_nested {T N N'} (xs : list T) (n' : N') :
  forall d d' : BlockData T N,
    pushDataAll xs d = Ok d' ->
    pushDataAll xs (mkBlockData (chunk d) n') = Ok (mkBlockData (chunk d') n').
Proof.
  induction xs as [|x xs IH]; intros d d' Hrun.
  - injection Hrun as <-. done.
  - cbn [pushDataAll] in *. unfold pushData in *. cbn [chunk nested].
    destruct (Chunk_pushData x (chunk d)) as [c|]; cbn [mbind Result_bind] in *;
      [|discriminate].
    apply (IH (mkBlockData c (nested d)) d' Hrun).
Qed.

(** A statement pushed by hand is the statement [store] records:
    [storeManual] for [n] arguments followed by one [pushJacobiManual] per
    argument leaves the tape and the identifier that [store] leaves for a
    right hand side with these arguments, when the tape is active, there is
    at least one argument, every argument passes the checks of the recording
    and the number of arguments is a value of [Config::ArgumentSize]. *)
Theorem storeManual_and_pushJacobiManual_record_as_store
    (cfg : Config) (t : Tape) (refs : gmap nat Real)
    (lhs : ActiveType Real) (v : Real) (es : list (Real * Identifier)) :
  isActive t = true ->
  es <> [] ->
  Forall (fun e => passesChecks cfg e
                   /\ CODI_ENABLE_CHECK (IgnoreInvalidJacobies cfg) (isTotalFinite e.1) = true)
         es ->
  Chunk_wellFormed (chunk (statementData t)) ->
  Chunk_wellFormed (chunk (jacobianData t)) ->
  usedSize (chunk (statementData t)) + 1 <= Chunk_getSize (chunk (statementData t)) ->
  usedSize (chunk (jacobianData t)) + Z.of_nat (length es)
    <= Chunk_getSize (chunk (jacobianData t)) ->
  Z.of_nat (length es) < 2 ^ ArgumentSizeBits cfg ->
  (exists r, store cfg t refs lhs
               (mkExpression v ((fun e => (e.1, ActiveNode e.2)) <$> es)) = Ok r)
  /\ store cfg t refs lhs (mkExpression v ((fun e => (e.1, ActiveNode e.2)) <$> es))
     = (r ← storeManual cfg (identifier lhs) (Z.of_nat (length es)) t;
        t' ← foldResult (fun e t => pushJacobiManual e.1 e.2 t) es r.1;
        Ok (t', refs, mkActiveType v r.2)).
Proof.
  intros Hactive Hsome Hchecks Hwfs Hwfj Hcaps Hcapj _.
  destruct (pushDataAll_Ok es (jacobianData t) Hwfj Hcapj)
    as (jd' & Hall & Hused & _ & Hnested & _).
  assert (Hlen : 0 < Z.of_nat (length es)) by (destruct es; [done|cbn; lia]).
  assert (Hcount : getPushedDataCount jd' (usedSize (chunk (jacobianData t)))
                   = Z.of_nat (length es)).
  { unfold getPushedDataCount, Chunk_getUsedSize, wrap_size_t. rewrite Hused.
    destruct Hwfj as [? ?]. rewrite Z.mod_small by lia. lia. }
  assert (Hstore : store cfg t refs lhs
                     (mkExpression v ((fun e => (e.1, ActiveNode e.2)) <$> es))
                   = (r ← storeManual cfg (identifier lhs) (Z.of_nat (length es)) t;
                      t' ← foldResult (fun e t => pushJacobiManual e.1 e.2 t) es r.1;
                      Ok (t', refs, mkActiveType v r.2))).
  { unfold store, storeManual, CODI_ENABLE_CHECK, NumberOfActiveTypeArguments.
    cbn [terms getValue]. rewrite Hactive, orb_true_r, length_fmap.
    rewrite (reserveItems_Ok (statementData t) 1) by (done || lia).
    cbn [mbind Result_bind].
    rewrite (reserveItems_Ok (jacobianData t)) by (done || lia).
    cbn [mbind Result_bind]. unfold pushJacobians. cbn [terms].
    rewrite (foldResult_handleJacobianOnActive_pushes cfg es Hchecks), Hall.
    cbn [mbind Result_bind]. rewrite foldResult_handleActive_active.
    cbn [mbind Result_bind].
    change (jacobianData (set_jacobianData (refs, jd').2 t)) with jd'.
    rewrite Hcount. destruct (Z.eqb_spec 0 (Z.of_nat (length es))); [lia|]. cbn [negb].
    change (indexManager (set_jacobianData (refs, jd').2 t)) with (nested (nested jd')).
    rewrite Hnested. fold (statementData t). fold (indexManager t).
    destruct (assignIndex (indexManager t) (identifier lhs)) as [[im id] b].
    unfold pushStmtData.
    change (statementData (set_indexManager im (set_jacobianData (refs, jd').2 t)))
      with (mkBlockData (chunk (nested jd')) im).
    change (statementData (set_indexManager im t))
      with (mkBlockData (chunk (statementData t)) im).
    rewrite Hnested. fold (statementData t).
    destruct (pushData _ (mkBlockData (chunk (statementData t)) im)) as [sd|];
      cbn [mbind Result_bind fst snd]; [|done].
    rewrite foldResult_pushJacobiManual.
    change (jacobianData (set_statementData sd (set_indexManager im t)))
      with (mkBlockData (chunk (jacobianData t)) sd).
    rewrite (pushDataAll_other_nested es sd (jacobianData t) jd' Hall).
    cbn [mbind Result_bind]. reflexivity. }
  split; [|exact Hstore].
  destruct (pushJacobians_pushes cfg (mkExpression v ((fun e => (e.1, ActiveNode e.2)) <$> es))
              (refs, jacobianData t) Hwfj) as (st & Hpush & _).
  { unfold NumberOfActiveTypeArguments. cbn. rewrite length_fmap. lia. }
  rewrite Hstore. unfold storeManual.
  rewrite (reserveItems_Ok (statementData t) 1) by (done || lia).
  cbn [mbind Result_bind].
  rewrite (reserveItems_Ok (jacobianData t)) by (done || lia).
  cbn [mbind Result_bind].
  destruct (assignIndex (indexManager t) (identifier lhs)) as [[im id] b].
  unfold pushStmtData.
  change (statementData (set_indexManager im t))
    with (mkBlockData (chunk (statementData t)) im).
  match goal with
  | |- context [pushData ?x (mkBlockData (chunk (statementData t)) im)] =>
      destruct (Chunk_pushData_Ok x (chunk (statementData t)) Hwfs) as (c & Hc & _); [lia|];
      assert (Hp : pushData x (mkBlockData (chunk (statementData t)) im)
                   = Ok (mkBlockData c im)) by (unfold pushData; cbn; by rewrite Hc)
  end.
  rewrite Hp. cbn [mbind Result_bind fst snd].
  rewrite foldResult_pushJacobiManual.
  change (jacobianData (set_statementData (mkBlockData c im) (set_indexManager im t)))
    with (mkBlockData (chunk (jacobianData t)) (mkBlockData c im)).
  rewrite (pushDataAll_other_nested es (mkBlockData c im) (jacobianData t) jd' Hall).
  cbn [mbind Result_bind]. eauto.
Qed.

End ManualAndCopy.

Section CopyStatement.
Context {Real Gradient IM : Type}.
Context `{!Arithmetic Real Gradient}.
Context `{!IndexManagerInterface IM} `{!DataInterface IM}.

Local Abbreviation Tape := (JacobianBaseTape (Real := Real) (Gradient := Gradient) (IM := IM)).

(** A copy that needs a statement is recorded as the identity: on an active
    tape, when the index manager asks for a statement or the copy
    optimization is off, [store(lhs, rhs)] for an active right hand side
    variable appends the one argument entry [(Real(1.0), identifier of rhs)]
    and a statement with argument count 1, and gives the output the
    identifier from [assignIndex] and the value of [rhs]. *)
Theorem store_copy_records_identity_statement
    (cfg : Config) (t : Tape) (refs : gmap nat Real)
    (lhs : ActiveType Real) (rhsValue : Real) (rhsIdentifier : Identifier)
    (im : IM) (id : Identifier) (b : bool) :
  isActive t = true ->
  CopyNeedsStatement || negb (CopyOptimization cfg) = true ->
  passesChecks cfg (Real_one, rhsIdentifier) ->
  CODI_ENABLE_CHECK (IgnoreInvalidJacobies cfg) (isTotalFinite Real_one) = true ->
  Chunk_wellFormed (chunk (statementData t)) ->
  Chunk_wellFormed (chunk (jacobianData t)) ->
  usedSize (chunk (statementData t)) + 1 <= Chunk_getSize (chunk (statementData t)) ->
  usedSize (chunk (jacobianData t)) + 1 <= Chunk_getSize (chunk (jacobianData t)) ->
  1 < 2 ^ ArgumentSizeBits cfg ->
  assignIndex (indexManager t) (identifier lhs) = (im, id, b) ->
  exists t',
    store_copy cfg t refs lhs rhsValue (ActiveNode rhsIdentifier)
      = Ok (t', refs, mkActiveType rhsValue id)
    /\ recorded (jacobianData t') = recorded (jacobianData t) ++ [(Real_one, rhsIdentifier)]
    /\ recorded (statementData t')
       = recorded (statementData t)
         ++ [if IsLinear then LinearStatement 1 else ReuseStatement id 1]
    /\ indexManager t' = im.
Proof.
  intros Hactive Hneeds [Hzero Hjac] Hfin Hwfs Hwfj Hcaps Hcapj Hbits Hassign.
  cbn in Hzero, Hjac.
  destruct (Chunk_pushData_Ok (Real_one, rhsIdentifier) (chunk (jacobianData t)) Hwfj)
    as (c & Hc & Hu & _); [lia|].
  assert (Hpush : pushData (Real_one, rhsIdentifier) (jacobianData t)
                  = Ok (mkBlockData c (nested (jacobianData t)))).
  { unfold pushData. by rewrite Hc. }
  assert (Hjacs : pushJacobians cfg (asExpression rhsValue (ActiveNode rhsIdentifier))
                    (refs, jacobianData t)
                  = Ok (refs, mkBlockData c (nested (jacobianData t)))).
  { unfold pushJacobians. cbn -[CODI_ENABLE_CHECK pushData].
    rewrite Hzero, Hfin, Hjac, Hpush. done. }
  destruct (pushData_recorded _ _ _ Hwfj Hpush) as (Hrec & _).
  destruct (store_commits_statement_aux cfg t refs lhs
              (asExpression rhsValue (ActiveNode rhsIdentifier))
              (refs, mkBlockData c (nested (jacobianData t))) im id b)
    as (t' & new & Hstore & _ & _ & Hrj & Hrs & Him & _ & Hchunk); try done.
  { cbn. lia. }
  assert (Hnew : new = [(Real_one, rhsIdentifier)]).
  { apply (app_inv_head (recorded (jacobianData t))). rewrite <- Hrj, <- Hrec.
    unfold recorded. by rewrite Hchunk. }
  subst new. exists t'. split; [|done].
  unfold store_copy, CODI_ENABLE_CHECK. rewrite Hactive, orb_true_r, Hneeds, Hstore. done.
Qed.

End CopyStatement.

(** [y = x] with [x = 3] at identifier 1 on the active sample tape under reuse
    management. *)
Lemma store_copy_records_identity_statement_witness :
  let t := sampleTape true in
  isActive t = true /\
  @CopyNeedsStatement ReuseIndexManager _ || negb (CopyOptimization defaultConfig) = true /\
  1 < 2 ^ ArgumentSizeBits defaultConfig /\
  exists t',
    store_copy defaultConfig t ∅ (mkActiveType 0 UnusedIndex) 3 (ActiveNode 1)
      = Ok (t', ∅, mkActiveType 3 1)
    /\ recorded (jacobianData t') = recorded (jacobianData t) ++ [(1, 1)]
    /\ recorded (statementData t') = recorded (statementData t) ++ [ReuseStatement 1 1]
    /\ indexManager t' = mkReuseIndexManager [] 1.
Proof.
  intros t. split; [reflexivity|]. split; [reflexivity|]. split; [reflexivity|].
  refine (store_copy_records_identity_statement defaultConfig t ∅
            (mkActiveType 0 UnusedIndex) 3 1%Z (mkReuseIndexManager [] 1) 1%Z true
            _ _ _ _ _ _ _ _ _ _).
  - reflexivity.
  - reflexivity.
  - split; reflexivity.
  - reflexivity.
  - apply (sampleTape_wellFormed true).
  - apply (sampleTape_wellFormed true).
  - subst t; unfold Chunk_getSize; simpl; lia.
  - subst t; unfold Chunk_getSize; simpl; lia.
  - reflexivity.
  - reflexivity.
Defined.

(** An input registered on the sample tape under linear index management. *)
Lemma registerInput_records_input_statement_witness :
  let t := sampleLinearTape in
  Chunk_wellFormed (chunk (statementData t)) /\
  (@IsLinear LinearIndexManager _ = true ->
   usedSize (chunk (statementData t)) + 1 <= Chunk_getSize (chunk (statementData t))) /\
  exists t',
    registerInput defaultConfig t (mkActiveType 2 UnusedIndex) = Ok (t', mkActiveType 2 1)
    /\ chunk (jacobianData t') = chunk (jacobianData t)
    /\ recorded (statementData t') = recorded (statementData t) ++ [LinearStatement 255]
    /\ indexManager t' = mkLinearIndexManager 1
    /\ adjoints t' = adjoints t.
Proof.
  intros t.
  assert (Hwf : Chunk_wellFormed (chunk (statementData t))).
  { subst t. unfold Chunk_wellFormed, Chunk_getSize, size_t_modulus; simpl; lia. }
  assert (Hroom : @IsLinear LinearIndexManager _ = true ->
            usedSize (chunk (statementData t)) + 1 <= Chunk_getSize (chunk (statementData t))).
  { intros _. subst t. unfold Chunk_getSize; simpl; lia. }
  split; [exact Hwf|]. split; [exact Hroom|].
  exact (registerInput_records_input_statement defaultConfig t (mkActiveType 2 UnusedIndex)
           (mkLinearIndexManager 1) 1%Z true Hwf Hroom eq_refl).
Defined.

(** The statement [y = a * b] of the sample run, pushed by hand. *)
Lemma storeManual_and_pushJacobiManual_record_as_store_witness :
  let t := sampleTape true in
  let es := [(3, 1); (2, 2)] in
  isActive t = true /\ es <> [] /\
  (exists r, store defaultConfig t ∅ (mkActiveType 0 UnusedIndex)
               (mkExpression 6 ((fun e => (e.1, ActiveNode e.2)) <$> es)) = Ok r)
  /\ store defaultConfig t ∅ (mkActiveType 0 UnusedIndex)
       (mkExpression 6 ((fun e => (e.1, ActiveNode e.2)) <$> es))
     = (r ← storeManual defaultConfig UnusedIndex (Z.of_nat (length es)) t;
        t' ← foldResult (fun e t => pushJacobiManual e.1 e.2 t) es r.1;
        Ok (t', ∅, mkActiveType 6 r.2)).
Proof.
  intros t es. split; [reflexivity|]. split; [discriminate|].
  refine (storeManual_and_pushJacobiManual_record_as_store defaultConfig t ∅
            (mkActiveType 0 UnusedIndex) 6 es _ _ _ _ _ _ _ _).
  - reflexivity.
  - discriminate.
  - repeat constructor.
  - apply (sampleTape_wellFormed true).
  - apply (sampleTape_wellFormed true).
  - subst t; unfold Chunk_getSize; simpl; lia.
  - subst t es; unfold Chunk_getSize; simpl; lia.
  - reflexivity.
Defined.

(** On the sample tape with two adjoint slots, identifier 5 is beyond the
    size and reads slot 0. *)
Lemma gradient_const_beyond_witness :
  Z.of_nat (length (adjoints sampleTapeTwoInputs)) < 5
  /\ gradient_const sampleTapeTwoInputs 5 = Ok 0.
Proof.
  split; [simpl; lia|].
  refine (gradient_const_beyond sampleTapeTwoInputs 5%Z 0 _ _ _).
  - simpl; lia.
  - simpl; lia.
  - reflexivity.
Defined.

(** On the same tape identifier 1 reads its own slot. *)
Lemma gradient_const_within_witness :
  adjoints sampleTapeTwoInputs !! 1%nat = Some 4
  /\ gradient_const sampleTapeTwoInputs 1 = Ok 4.
Proof.
  split; [reflexivity|].
  refine (gradient_const_within sampleTapeTwoInputs 1%nat 4 _ _).
  - simpl; lia.
  - reflexivity.
Defined.

(** ** Parameters of the tape *)

Section Parameters.
Context {Real Gradient IM : Type}.
Context `{!Arithmetic Real Gradient}.
Context `{!IndexManagerInterface IM} `{!DataInterface IM}.

Local Abbreviation Tape := (JacobianBaseTape (Real := Real) (Gradient := Gradient) (IM := IM)).

Variable Chunk_resize : forall T : Type, Z -> Chunk T -> Chunk T.
Variable Base_getParameter : TapeParameters -> Tape -> Z.
Variable Base_setParameter : TapeParameters -> Z -> Tape -> Result Tape.

(** [setParameter(AdjointSize, v)] followed by [getParameter(AdjointSize)]
    gives [v] back.  The slots below both the old and the new size keep their
    adjoints, the slots above the old size are [Gradient()], and the three
    other parameters of the tape read as before. *)
Theorem setParameter_AdjointSize_round_trip (v : Z) (t : Tape) :
  0 <= v < size_t_modulus ->
  exists t',
    setParameter Chunk_resize Base_setParameter AdjointSize v t = Ok t'
    /\ getParameter Base_getParameter AdjointSize t' = v
    /\ (forall i : nat, Z.of_nat i < v ->
          adjoints t' !! i = Some (default Adjoint_zero (adjoints t !! i)))
    /\ getParameter Base_getParameter JacobianSize t'
       = getParameter Base_getParameter JacobianSize t
    /\ getParameter Base_getParameter StatementSize t'
       = getParameter Base_getParameter StatementSize t
    /\ getParameter Base_getParameter LargestIdentifier t'
       = getParameter Base_getParameter LargestIdentifier t.
Proof.
  intros Hv. eexists. split; [reflexivity|].
  split.
  { cbn. rewrite vector_resize_length by done. lia. }
  split; [|done].
  intros i Hi. cbn. apply vector_resize_lookup; [done|lia].
Qed.

End Parameters.

(** The adjoint vector [0; 4] of the sample tape cut to one slot and grown to
    three. *)
Lemma setParameter_AdjointSize_round_trip_witness :
  (exists t',
     setParameter (fun _ _ c => c) (fun _ _ t => Ok t) AdjointSize 1 sampleTapeTwoInputs = Ok t'
     /\ getParameter (fun _ _ => 0) AdjointSize t' = 1
     /\ adjoints t' = [0])
  /\ (exists t',
     setParameter (fun _ _ c => c) (fun _ _ t => Ok t) AdjointSize 3 sampleTapeTwoInputs = Ok t'
     /\ getParameter (fun _ _ => 0) AdjointSize t' = 3
     /\ adjoints t' = [0; 4; 0]).
Proof.
  split.
  - destruct (setParameter_AdjointSize_round_trip (fun _ _ c => c) (fun _ _ => 0)
                (fun _ _ t => Ok t) 1 sampleTapeTwoInputs) as (t' & Hset & Hget & _).
    { unfold size_t_modulus. lia. }
    exists t'. split; [exact Hset|]. split; [exact Hget|].
    injection Hset as <-. reflexivity.
  - destruct (setParameter_AdjointSize_round_trip (fun _ _ c => c) (fun _ _ => 0)
                (fun _ _ t => Ok t) 3 sampleTapeTwoInputs) as (t' & Hset & Hget & _).
    { unfold size_t_modulus. lia. }
    exists t'. split; [exact Hset|]. split; [exact Hget|].
    injection Hset as <-. reflexivity.
Defined.

(** ** The event system *)

Section EventSystemFacts.
Context {Args CustomData World : Type}.

Local Abbreviation Listener := ((@Callback Args CustomData World) * CustomData)%type.

Lemma internalNotifyListeners_after_register (event : Event) (args : Args)
    (callback : @Callback Args CustomData World) (customData : CustomData)
    (listeners : gmap Event (list Listener)) (w : World) :
  (internalNotifyListeners true event args
     (internalRegisterListener event callback customData listeners) w).2
  = callback args customData (internalNotifyListeners true event args listeners w).2.
Proof.
  unfold internalNotifyListeners, internalRegisterListener, listenersAt.
  destruct (listeners !! event) as [l|] eqn:Hl; cbn.
  - rewrite lookup_insert_eq. cbn. by rewrite fold_left_app.
  - rewrite lookup_insert_eq. done.
Qed.

(** A notification calls the listeners of its event in the order of their
    registration: after [registrations] were registered for [event], an
    enabled notification of [event] first does what it did before and then
    calls the new listeners, first registered first, each with the arguments
    of the notification and its own custom data. *)
Theorem internalNotifyListeners_calls_in_registration_order
    (event : Event) (args : Args) (registrations : list Listener)
    (listeners : gmap Event (list Listener)) (w : World) :
  (internalNotifyListeners true event args (registerAll event registrations listeners) w).2
  = fold_left (fun w listener => listener.1 args listener.2 w) registrations
      (internalNotifyListeners true event args listeners w).2.
Proof.
  unfold registerAll. revert listeners w.
  induction registrations as [|r rs IH]; intros listeners w; [done|].
  cbn [fold_left]. rewrite IH. f_equal.
  apply internalNotifyListeners_after_register.
Qed.

(** Listeners are kept per event: registering a listener for another event
    does not change what a notification of [event] calls. *)
Theorem internalNotifyListeners_ignores_other_events
    (event other : Event) (args : Args)
    (callback : @Callback Args CustomData World) (customData : CustomData)
    (enabled : bool) (listeners : gmap Event (list Listener)) (w : World) :
  event <> other ->
  (internalNotifyListeners enabled event args
     (internalRegisterListener other callback customData listeners) w).2
  = (internalNotifyListeners enabled event args listeners w).2.
Proof.
  intros Hne.
  unfold internalNotifyListeners, internalRegisterListener, listenersAt.
  destruct enabled; [|done].
  destruct (listeners !! other) as [l|] eqn:Hother;
    destruct (listeners !! event) as [l'|] eqn:Hevent; cbn;
    rewrite ?lookup_insert_ne by done; rewrite ?Hevent; done.
Qed.

End EventSystemFacts.

(** A listener for [TapeReset] that adds its custom data to a counter is not
    called by a notification of [TapeEvaluate]. *)
Lemma internalNotifyListeners_ignores_other_events_witness :
  TapeEvaluate <> TapeReset
  /\ (internalNotifyListeners (Args := Z) (CustomData := Z) (World := Z) true TapeEvaluate 1
        (internalRegisterListener TapeReset (fun a d w => w + a + d) 5
           (internalRegisterListener TapeEvaluate (fun a d w => w * d) 3 ∅)) 7).2
     = 21.
Proof.
  split; [discriminate|].
  refine (eq_trans
    (internalNotifyListeners_ignores_other_events (Args := Z) (CustomData := Z) (World := Z)
       TapeEvaluate TapeReset 1 (fun a d w => w + a + d) 5 true
       (internalRegisterListener TapeEvaluate (fun a d w => w * d) 3 ∅) 7 _) _).
  - discriminate.
  - reflexivity.
Defined.

(** ** The sweeps of the Jacobian assembly *)

Lemma array_read_in_range {A} (a : list A) (i : Z) :
  0 <= i < Z.of_nat (length a) -> exists x, array_read a i = Ok x.
Proof.
  intros Hi. destruct (lookup_lt_is_Some_2 a (Z.to_nat i)) as [x Hx]; [lia|].
  exists x. replace i with (Z.of_nat (Z.to_nat i)) by lia. by apply array_read_Ok.
Qed.

Lemma foldResult_sweeps {A S} (sw : S -> list TapeCall) (k : nat) (c : TapeCall)
    (f : A -> S -> Result S) (l : list A) :
  (forall x st, x ∈ l -> exists st', f x st = Ok st' /\ sw st' = sw st ++ replicate k c) ->
  forall st, exists st',
    foldResult f l st = Ok st' /\ sw st' = sw st ++ replicate (length l * k) c.
Proof.
  induction l as [|x l IH]; intros Hf st.
  - exists st. cbn. by rewrite app_nil_r.
  - destruct (Hf x st) as (st1 & H1 & Hs1); [by left|].
    destruct (IH (fun y st Hy => Hf y st (list_elem_of_further _ _ _ Hy)) st1)
      as (st2 & H2 & Hs2).
    exists st2. cbn [foldResult]. rewrite H1. cbn [mbind Result_bind]. split; [exact H2|].
    rewrite Hs2, Hs1, <- app_assoc, <- replicate_add. done.
Qed.

Lemma foldResult_keeps_sweeps {A S} (sw : S -> list TapeCall)
    (f : A -> S -> Result S) (l : list A) :
  (forall x st, x ∈ l -> exists st', f x st = Ok st' /\ sw st' = sw st) ->
  forall st, exists st', foldResult f l st = Ok st' /\ sw st' = sw st.
Proof.
  intros Hf st.
  destruct (foldResult_sweeps sw 0 CallEvaluate f l) with (st := st) as (st' & H & Hs).
  { intros x s Hx. destruct (Hf x s Hx) as (s' & H & Hs). exists s'.
    split; [done|]. cbn. by rewrite app_nil_r. }
  exists st'. split; [done|]. rewrite Hs, Nat.mul_0_r. cbn. by rewrite app_nil_r.
Qed.

Lemma sweeps_snoc_other (log : list TapeCall) (c : TapeCall) :
  isSweep c = false -> sweeps (log ++ [c]) = sweeps log.
Proof.
  intros Hc. unfold sweeps. rewrite filter_app, filter_cons_False by (by rewrite Hc).
  rewrite filter_nil. by rewrite app_nil_r.
Qed.

Lemma sweeps_snoc_sweep (log : list TapeCall) (c : TapeCall) :
  isSweep c = true -> sweeps (log ++ [c]) = sweeps log ++ [c].
Proof.
  intros Hc. unfold sweeps. rewrite filter_app, filter_cons_True by done.
  by rewrite filter_nil.
Qed.

Section JacobianSweeps.
Context {Jac : Type}.
Variable Jac_set : Z -> Z -> Z -> Jac -> Jac.
Variables GReal_one GReal_zero : Z.
Variable gradDim : Z.
Variables ActiveChecks keepState : bool.
Hypothesis gradDim_positive : 0 < gradDim.

Lemma setGradientOnIdentifier_keeps_sweeps (log : list TapeCall) (pos : Z)
    (identifiers : list Identifier) (v : Z) :
  0 <= pos ->
  exists log',
    setGradientOnIdentifier gradDim ActiveChecks log pos identifiers
      (Z.of_nat (length identifiers)) v = Ok log'
    /\ sweeps log' = sweeps log.
Proof.
  intros Hpos. unfold setGradientOnIdentifier.
  apply (foldResult_keeps_sweeps sweeps).
  intros curDim st Hin. unfold vectorDims in Hin. apply elem_of_seqZ in Hin.
  destruct (array_read_in_range identifiers (pos + curDim)) as [id Hid]; [lia|].
  rewrite Hid. cbn [mbind Result_bind].
  destruct (CODI_ENABLE_CHECK ActiveChecks (negb (0 =? id))).
  - eexists. split; [reflexivity|]. by apply sweeps_snoc_other.
  - by exists st.
Qed.

Lemma sweepStarts_in_range (size j : Z) :
  j ∈ sweepStarts gradDim size -> 0 <= j < size.
Proof.
  unfold sweepStarts. intros (k & -> & Hk)%list_elem_of_fmap.
  apply elem_of_seqZ in Hk.
  pose proof (Z.mul_div_le (size + gradDim - 1) gradDim gradDim_positive).
  nia.
Qed.

Lemma sweepStarts_length (size : Z) :
  length (sweepStarts gradDim size) = seedingRounds gradDim size.
Proof. unfold sweepStarts, seedingRounds. by rewrite length_fmap, length_seqZ. Qed.

Lemma computeJacobian_forward_sweeps (log : list TapeCall)
    (input output : list Identifier) (jac : Jac) :
  exists r,
    computeJacobian_forward Jac_set GReal_one GReal_zero gradDim ActiveChecks keepState
      log tt tt input (Z.of_nat (length input)) output (Z.of_nat (length output)) jac = Ok r
    /\ sweeps r.1
       = sweeps log
         ++ replicate (seedingRounds gradDim (Z.of_nat (length input)))
              (if keepState then CallEvaluateForwardKeepState else CallEvaluateForward).
Proof.
  unfold computeJacobian_forward.
  match goal with
  | |- context [foldResult ?f ?l ?s] =>
      destruct (foldResult_sweeps (fun st : list TapeCall * Jac => sweeps st.1) 1
                  (if keepState then CallEvaluateForwardKeepState else CallEvaluateForward)
                  f l) with (st := s) as (r & Hr & Hsw)
  end.
  - intros j st Hj%sweepStarts_in_range. cbn beta.
    destruct (setGradientOnIdentifier_keeps_sweeps st.1 j input GReal_one)
      as (l1 & H1 & S1); [lia|].
    rewrite H1. cbn [mbind Result_bind].
    set (c := if keepState then CallEvaluateForwardKeepState else CallEvaluateForward).
    assert (He : (if keepState then evaluateForwardKeepState tt tt l1
                  else evaluateForward tt tt l1) = Ok (l1 ++ [c])).
    { subst c. by destruct keepState. }
    rewrite He. cbn [mbind Result_bind].
    match goal with
    | |- context [foldResult ?f ?l ?s] =>
        destruct (foldResult_keeps_sweeps (fun _ : Jac => @nil TapeCall) f l)
          with (st := s) as (jac' & Hjac & _)
    end.
    { intros i jac0 Hi%elem_of_seqZ.
      apply (foldResult_keeps_sweeps (fun _ : Jac => @nil TapeCall)).
      intros curDim jac1 _.
      destruct (array_read_in_range output i) as [out Hout]; [lia|].
      rewrite Hout. cbn. by eexists. }
    rewrite Hjac. cbn [mbind Result_bind].
    destruct (setGradientOnIdentifier_keeps_sweeps (l1 ++ [c]) j input GReal_zero)
      as (l2 & H2 & S2); [lia|].
    rewrite H2. cbn [mbind Result_bind].
    eexists. split; [reflexivity|]. cbn [fst].
    rewrite S2, sweeps_snoc_sweep, S1; [done|]. subst c. by destruct keepState.
  - rewrite Hr. cbn. eexists. split; [reflexivity|]. cbn [fst].
    rewrite sweeps_snoc_other by done.
    by rewrite Hsw, sweepStarts_length, Nat.mul_1_r.
Qed.

Lemma computeJacobian_reverse_sweeps (reversalZeroesAdjoints : bool)
    (log : list TapeCall) (input output : list Identifier) (jac : Jac) :
  exists r,
    computeJacobian_reverse Jac_set GReal_one GReal_zero gradDim ActiveChecks keepState
      reversalZeroesAdjoints
      log tt tt input (Z.of_nat (length input)) output (Z.of_nat (length output)) jac = Ok r
    /\ sweeps r.1
       = sweeps log
         ++ replicate (seedingRounds gradDim (Z.of_nat (length output)))
              (if keepState then CallEvaluateKeepState else CallEvaluate).
Proof.
  unfold computeJacobian_reverse.
  match goal with
  | |- context [foldResult ?f ?l ?s] =>
      destruct (foldResult_sweeps (fun st : list TapeCall * Jac => sweeps st.1) 1
                  (if keepState then CallEvaluateKeepState else CallEvaluate)
                  f l) with (st := s) as (r & Hr & Hsw)
  end.
  - intros i st Hi%sweepStarts_in_range. cbn beta.
    destruct (setGradientOnIdentifier_keeps_sweeps st.1 i output GReal_one)
      as (l1 & H1 & S1); [lia|].
    rewrite H1. cbn [mbind Result_bind].
    set (c := if keepState then CallEvaluateKeepState else CallEvaluate).
    assert (He : (if keepState then evaluateKeepState tt tt l1
                  else evaluate tt tt l1) = Ok (l1 ++ [c])).
    { subst c. by destruct keepState. }
    rewrite He. cbn [mbind Result_bind].
    match goal with
    | |- context [foldResult ?f ?l ?s] =>
        destruct (foldResult_keeps_sweeps (fun st : list TapeCall * Jac => sweeps st.1) f l)
          with (st := s) as (st' & Hst' & S')
    end.
    { intros j st0 Hj%elem_of_seqZ.
      apply (foldResult_keeps_sweeps (fun st : list TapeCall * Jac => sweeps st.1)).
      intros curDim st1 _.
      destruct (array_read_in_range input j) as [inp Hinp]; [lia|].
      rewrite Hinp. cbn. eexists. split; [reflexivity|]. cbn [fst].
      by apply sweeps_snoc_other. }
    rewrite Hst'. cbn [mbind Result_bind]. cbn [fst] in S'.
    destruct (setGradientOnIdentifier_keeps_sweeps st'.1 i output GReal_zero)
      as (l2 & H2 & S2); [lia|].
    rewrite H2. cbn [mbind Result_bind].
    assert (Hc : isSweep c = true) by (subst c; by destruct keepState).
    destruct reversalZeroesAdjoints; cbn.
    + eexists. split; [reflexivity|]. cbn [fst].
      by rewrite S2, S', sweeps_snoc_sweep, S1.
    + eexists. split; [reflexivity|]. cbn [fst].
      rewrite sweeps_snoc_other by done.
      by rewrite S2, S', sweeps_snoc_sweep, S1.
  - exists r. split; [exact Hr|].
    by rewrite Hsw, sweepStarts_length, Nat.mul_1_r.
Qed.

(** [computeJacobian] seeds the smaller side in blocks of [gradDim] and runs
    one evaluation per block: on a tape whose operations succeed, with [n]
    inputs and [m] outputs, it returns, every read of [input] and [output]
    is within the arrays, and the evaluations it asks for are
    ceil(n / gradDim) forward evaluations when [n <= m] and
    ceil(m / gradDim) reverse evaluations otherwise, of the [KeepState] kind
    exactly when [keepState] is set. *)
Theorem computeJacobian_runs_one_sweep_per_seed_block (cfg : Config)
    (log : list TapeCall) (input output : list Identifier) (jac : Jac) :
  let n := Z.of_nat (length input) in
  let m := Z.of_nat (length output) in
  exists r,
    computeJacobian Jac_set GReal_one GReal_zero gradDim ActiveChecks keepState cfg
      log tt tt input n output m jac = Ok r
    /\ sweeps r.1
       = sweeps log
         ++ (if n <=? m then
               replicate (seedingRounds gradDim n)
                 (if keepState then CallEvaluateForwardKeepState else CallEvaluateForward)
             else
               replicate (seedingRounds gradDim m)
                 (if keepState then CallEvaluateKeepState else CallEvaluate)).
Proof.
  intros n m. unfold computeJacobian, getEvaluationChoice. subst n m.
  destruct (Z.of_nat (length input) <=? Z.of_nat (length output)).
  - apply computeJacobian_forward_sweeps.
  - apply computeJacobian_reverse_sweeps.
Qed.

End JacobianSweeps.

(** Five inputs and two outputs with gradients of dimension 2: one reverse
    evaluation seeds both outputs.  Three inputs and four outputs: two forward
    evaluations, for the inputs 1, 2 and for the input 3. *)
Lemma computeJacobian_runs_one_sweep_per_seed_block_witness :
  0 < 2
  /\ (exists r,
        computeJacobian (Jac := list (Z * Z * Z)) (fun i j v jac => jac ++ [(i, j, v)])
          1 0 2 true false defaultConfig [] tt tt [1; 2; 3; 4; 5] 5 [6; 7] 2 [] = Ok r
        /\ sweeps r.1 = [CallEvaluate])
  /\ (exists r,
        computeJacobian (Jac := list (Z * Z * Z)) (fun i j v jac => jac ++ [(i, j, v)])
          1 0 2 true false defaultConfig [] tt tt [1; 2; 3] 3 [4; 5; 6; 7] 4 [] = Ok r
        /\ sweeps r.1 = [CallEvaluateForward; CallEvaluateForward]).
Proof.
  split; [lia|]. split.
  - exact (computeJacobian_runs_one_sweep_per_seed_block
             (fun i j v jac => jac ++ [(i, j, v)]) 1 0 2 true false ltac:(lia)
             defaultConfig [] [1; 2; 3; 4; 5] [6; 7] []).
  - exact (computeJacobian_runs_one_sweep_per_seed_block
             (fun i j v jac => jac ++ [(i, j, v)]) 1 0 2 true false ltac:(lia)
             defaultConfig [] [1; 2; 3] [4; 5; 6; 7] []).
Defined.

(** ** What the Jacobian assembly seeds *)

Lemma foldResult_appends_proj {A S B} (pr : S -> list B) (g : A -> list B)
    (f : A -> S -> Result S) (l : list A) :
  (forall x st, x ∈ l -> exists st', f x st = Ok st' /\ pr st' = pr st ++ g x) ->
  forall st, exists st',
    foldResult f l st = Ok st' /\ pr st' = pr st ++ concat (g <$> l).
Proof.
  induction l as [|x l IH]; intros Hf st.
  - exists st. cbn. by rewrite app_nil_r.
  - destruct (Hf x st) as (st1 & H1 & Hs1); [by left|].
    destruct (IH (fun y st Hy => Hf y st (list_elem_of_further _ _ _ Hy)) st1)
      as (st2 & H2 & Hs2).
    exists st2. cbn [foldResult]. rewrite H1. cbn [mbind Result_bind]. split; [exact H2|].
    rewrite Hs2, Hs1, fmap_cons. cbn [concat]. by rewrite <- app_assoc.
Qed.

Lemma foldResult_keeps_proj {A S B} (pr : S -> list B)
    (f : A -> S -> Result S) (l : list A) :
  (forall x st, x ∈ l -> exists st', f x st = Ok st' /\ pr st' = pr st) ->
  forall st, exists st', foldResult f l st = Ok st' /\ pr st' = pr st.
Proof.
  intros Hf st.
  destruct (foldResult_appends_proj pr (fun _ => []) f l) with (st := st)
    as (st' & H & Hs).
  { intros x s Hx. destruct (Hf x s Hx) as (s' & H & Hs). exists s'.
    split; [done|]. by rewrite app_nil_r. }
  exists st'. split; [done|]. rewrite Hs.
  clear. induction l as [|x l IH]; cbn; [by rewrite app_nil_r|exact IH].
Qed.

Lemma seededWith_snoc (v : Z) (log : list TapeCall) (c : TapeCall) :
  seededWith v (log ++ [c])
  = seededWith v log
    ++ match c with
       | CallSetGradient id _ v' => if v' =? v then [id] else []
       | _ => []
       end.
Proof.
  unfold seededWith. rewrite omap_app. f_equal.
  destruct c as [id dim v'| | | | |]; cbn; try done. by destruct (v' =? v).
Qed.

Lemma concat_lookup_seq {A B} (h : A -> list B) (k : nat) :
  forall l : list A,
    concat ((fun i => match l !! i with Some x => h x | None => [] end) <$> seq 0 k)
    = concat (h <$> take k l).
Proof.
  induction k as [|k IH]; intros l; [done|].
  cbn [seq]. rewrite fmap_cons, <- fmap_S_seq, <- list_fmap_compose.
  destruct l as [|x l]; cbn [concat take fmap list_fmap lookup list_lookup].
  - specialize (IH []). rewrite take_nil in IH. cbn in IH. cbn. exact IH.
  - f_equal. exact (IH l).
Qed.

Lemma concat_seedable (ActiveChecks : bool) (b : bool) (l : list Identifier) :
  concat ((fun id => if CODI_ENABLE_CHECK ActiveChecks (negb (0 =? id)) && b
                     then [id] else []) <$> l)
  = if b then seedable ActiveChecks l else [].
Proof.
  unfold seedable. induction l as [|id l IH]; [by destruct b|].
  rewrite fmap_cons. cbn [concat]. rewrite IH.
  destruct b; [|by rewrite andb_false_r].
  rewrite andb_true_r.
  destruct (CODI_ENABLE_CHECK ActiveChecks (negb (0 =? id))) eqn:Hid.
  - by rewrite filter_cons_True.
  - rewrite filter_cons_False; [done|]. by rewrite Hid.
Qed.

Section JacobianSeeds.
Context {Jac : Type}.
Variable Jac_set : Z -> Z -> Z -> Jac -> Jac.
Variables GReal_one GReal_zero : Z.
Variable gradDim : Z.
Variables ActiveChecks keepState : bool.
Hypothesis gradDim_positive : 0 < gradDim.
Hypothesis one_is_not_zero : GReal_one <> GReal_zero.

Lemma setGradientOnIdentifier_seeds (log : list TapeCall) (pos : Z)
    (identifiers : list Identifier) (v : Z) :
  0 <= pos < Z.of_nat (length identifiers) ->
  exists log',
    setGradientOnIdentifier gradDim ActiveChecks log pos identifiers
      (Z.of_nat (length identifiers)) v = Ok log'
    /\ seededWith GReal_one log'
       = seededWith GReal_one log
         ++ (if v =? GReal_one
             then seedable ActiveChecks
                    (take (Z.to_nat gradDim) (drop (Z.to_nat pos) identifiers))
             else []).
Proof.
  intros Hpos. unfold setGradientOnIdentifier.
  match goal with
  | |- context [foldResult ?f ?l ?s] =>
      destruct (foldResult_appends_proj (seededWith GReal_one)
                  (fun curDim =>
                     match identifiers !! Z.to_nat (pos + curDim) with
                     | Some id =>
                         if CODI_ENABLE_CHECK ActiveChecks (negb (0 =? id))
                            && (v =? GReal_one)
                         then [id] else []
                     | None => []
                     end) f l) with (st := s) as (log' & Hlog & Hseeds)
  end.
  - intros curDim st Hin. unfold vectorDims in Hin. apply elem_of_seqZ in Hin.
    destruct (array_read_in_range identifiers (pos + curDim)) as [id Hid]; [lia|].
    cbn beta. rewrite Hid. cbn [mbind Result_bind].
    apply array_read_inv in Hid as [_ Hid]. unfold Identifier in *. rewrite Hid.
    destruct (CODI_ENABLE_CHECK ActiveChecks (negb (0 =? id))).
    + eexists. split; [reflexivity|]. by rewrite seededWith_snoc.
    + exists st. split; [done|]. by rewrite app_nil_r.
  - exists log'. split; [exact Hlog|]. rewrite Hseeds. f_equal.
    unfold vectorDims, seqZ. rewrite <- list_fmap_compose.
    set (h := fun id : Identifier =>
                if CODI_ENABLE_CHECK ActiveChecks (negb (0 =? id)) && (v =? GReal_one)
                then [id] else []).
    rewrite (list_fmap_ext _
               (fun i => match drop (Z.to_nat pos) identifiers !! i with
                         | Some x => h x
                         | None => []
                         end)).
    2:{ intros i x _. cbn. rewrite lookup_drop.
        replace (Z.to_nat (pos + (Z.of_nat x + 0))) with (Z.to_nat pos + x)%nat by lia.
        done. }
    rewrite concat_lookup_seq. subst h. rewrite concat_seedable.
    destruct (v =? GReal_one); [|done]. f_equal.
    destruct (Z.min_spec gradDim (Z.of_nat (length identifiers) - pos)) as [[_ ->]|[Hle ->]];
      [done|].
    rewrite !take_ge; [done| |]; rewrite length_drop; lia.
Qed.

Lemma seedable_blocks_nat (g : nat) (l : list Identifier) (q : nat) :
  concat ((fun i => seedable ActiveChecks (take g (drop (i * g) l))) <$> seq 0 q)
  = seedable ActiveChecks (take (q * g) l).
Proof.
  unfold seedable. induction q as [|q IH]; [done|].
  rewrite seq_S, fmap_app, concat_app, IH. cbn [fmap list_fmap concat].
  rewrite app_nil_r, <- filter_app, take_take_drop. f_equal. f_equal. lia.
Qed.

Lemma seedable_blocks (l : list Identifier) :
  concat ((fun j => seedable ActiveChecks
                      (take (Z.to_nat gradDim) (drop (Z.to_nat j) l)))
            <$> sweepStarts gradDim (Z.of_nat (length l)))
  = seedable ActiveChecks l.
Proof.
  unfold sweepStarts, seqZ. rewrite <- !list_fmap_compose.
  rewrite (list_fmap_ext _
             (fun i => seedable ActiveChecks
                         (take (Z.to_nat gradDim) (drop (i * Z.to_nat gradDim) l)))).
  2:{ intros i x _. cbn. do 3 f_equal. nia. }
  rewrite seedable_blocks_nat. f_equal. apply take_ge.
  pose proof (Z.mod_pos_bound (Z.of_nat (length l) + gradDim - 1) gradDim gradDim_positive).
  pose proof (Z.div_mod (Z.of_nat (length l) + gradDim - 1) gradDim ltac:(lia)).
  nia.
Qed.

Lemma computeJacobian_forward_seeds (log : list TapeCall)
    (input output : list Identifier) (jac : Jac) :
  exists r,
    computeJacobian_forward Jac_set GReal_one GReal_zero gradDim ActiveChecks keepState
      log tt tt input (Z.of_nat (length input)) output (Z.of_nat (length output)) jac = Ok r
    /\ seededWith GReal_one r.1 = seededWith GReal_one log ++ seedable ActiveChecks input.
Proof.
  unfold computeJacobian_forward.
  match goal with
  | |- context [foldResult ?f ?l ?s] =>
      destruct (foldResult_appends_proj
                  (fun st : list TapeCall * Jac => seededWith GReal_one st.1)
                  (fun j => seedable ActiveChecks
                              (take (Z.to_nat gradDim) (drop (Z.to_nat j) input)))
                  f l) with (st := s) as (r & Hr & Hseeds)
  end.
  - intros j st Hj%(sweepStarts_in_range gradDim gradDim_positive). cbn beta.
    destruct (setGradientOnIdentifier_seeds st.1 j input GReal_one)
      as (l1 & H1 & S1); [lia|].
    rewrite Z.eqb_refl in S1.
    rewrite H1. cbn [mbind Result_bind].
    set (c := if keepState then CallEvaluateForwardKeepState else CallEvaluateForward).
    assert (He : (if keepState then evaluateForwardKeepState tt tt l1
                  else evaluateForward tt tt l1) = Ok (l1 ++ [c])).
    { subst c. by destruct keepState. }
    rewrite He. cbn [mbind Result_bind].
    match goal with
    | |- context [foldResult ?f ?l ?s] =>
        destruct (foldResult_keeps_sweeps (fun _ : Jac => @nil TapeCall) f l)
          with (st := s) as (jac' & Hjac & _)
    end.
    { intros i jac0 Hi%elem_of_seqZ.
      apply (foldResult_keeps_sweeps (fun _ : Jac => @nil TapeCall)).
      intros curDim jac1 _.
      destruct (array_read_in_range output i) as [out Hout]; [lia|].
      rewrite Hout. cbn. by eexists. }
    rewrite Hjac. cbn [mbind Result_bind].
    destruct (setGradientOnIdentifier_seeds (l1 ++ [c]) j input GReal_zero)
      as (l2 & H2 & S2); [lia|].
    rewrite (proj2 (Z.eqb_neq GReal_zero GReal_one)) in S2 by congruence.
    rewrite H2. cbn [mbind Result_bind].
    eexists. split; [reflexivity|]. cbn [fst].
    rewrite S2, seededWith_snoc, S1, !app_nil_r.
    subst c. destruct keepState; by rewrite app_nil_r.
  - rewrite Hr. cbn. eexists. split; [reflexivity|]. cbn [fst].
    rewrite seededWith_snoc, app_nil_r, Hseeds. f_equal. apply seedable_blocks.
Qed.

Lemma computeJacobian_reverse_seeds (reversalZeroesAdjoints : bool)
    (log : list TapeCall) (input output : list Identifier) (jac : Jac) :
  exists r,
    computeJacobian_reverse Jac_set GReal_one GReal_zero gradDim ActiveChecks keepState
      reversalZeroesAdjoints
      log tt tt input (Z.of_nat (length input)) output (Z.of_nat (length output)) jac = Ok r
    /\ seededWith GReal_one r.1 = seededWith GReal_one log ++ seedable ActiveChecks output.
Proof.
  unfold computeJacobian_reverse.
  match goal with
  | |- context [foldResult ?f ?l ?s] =>
      destruct (foldResult_appends_proj
                  (fun st : list TapeCall * Jac => seededWith GReal_one st.1)
                  (fun i => seedable ActiveChecks
                              (take (Z.to_nat gradDim) (drop (Z.to_nat i) output)))
                  f l) with (st := s) as (r & Hr & Hseeds)
  end.
  - intros i st Hi%(sweepStarts_in_range gradDim gradDim_positive). cbn beta.
    destruct (setGradientOnIdentifier_seeds st.1 i output GReal_one)
      as (l1 & H1 & S1); [lia|].
    rewrite Z.eqb_refl in S1.
    rewrite H1. cbn [mbind Result_bind].
    set (c := if keepState then CallEvaluateKeepState else CallEvaluate).
    assert (He : (if keepState then evaluateKeepState tt tt l1
                  else evaluate tt tt l1) = Ok (l1 ++ [c])).
    { subst c. by destruct keepState. }
    assert (Hc : seededWith GReal_one (l1 ++ [c]) = seededWith GReal_one l1).
    { rewrite seededWith_snoc. subst c. destruct keepState; by rewrite app_nil_r. }
    rewrite He. cbn [mbind Result_bind].
    match goal with
    | |- context [foldResult ?f ?l ?s] =>
        destruct (foldResult_keeps_proj
                    (fun st : list TapeCall * Jac => seededWith GReal_one st.1) f l)
          with (st := s) as (st' & Hst' & S')
    end.
    { intros j st0 Hj%elem_of_seqZ.
      apply (foldResult_keeps_proj
               (fun st : list TapeCall * Jac => seededWith GReal_one st.1)).
      intros curDim st1 _.
      destruct (array_read_in_range input j) as [inp Hinp]; [lia|].
      rewrite Hinp. cbn. eexists. split; [reflexivity|]. cbn [fst].
      rewrite seededWith_snoc.
      rewrite (proj2 (Z.eqb_neq GReal_zero GReal_one)) by congruence.
      by rewrite app_nil_r. }
    rewrite Hst'. cbn [mbind Result_bind]. cbn [fst] in S'.
    destruct (setGradientOnIdentifier_seeds st'.1 i output GReal_zero)
      as (l2 & H2 & S2); [lia|].
    rewrite (proj2 (Z.eqb_neq GReal_zero GReal_one)) in S2 by congruence.
    rewrite app_nil_r in S2.
    rewrite H2. cbn [mbind Result_bind].
    destruct reversalZeroesAdjoints; cbn.
    + eexists. split; [reflexivity|]. cbn [fst]. by rewrite S2, S', Hc, S1.
    + eexists. split; [reflexivity|]. cbn [fst].
      by rewrite seededWith_snoc, app_nil_r, S2, S', Hc, S1.
  - exists r. split; [exact Hr|]. rewrite Hseeds. f_equal. apply seedable_blocks.
Qed.

End JacobianSeeds.

(** ** The sweep direction of the Jacobian assembly, on a tape that logs *)

(** C5.  [getEvaluationChoice] answers [Forward] exactly when the number of
    inputs is at most the number of outputs, and [Reverse] otherwise.
    [computeJacobian], run on a tape that logs the calls it receives, follows
    this answer: with [inputSize <= outputSize] the evaluations it asks for
    are forward evaluations only, one per block of [gradDim] inputs, and the
    identifiers it seeds with [GT::Real(1.0)] are exactly the inputs (those
    of active values under [ActiveChecks]), in order; with
    [outputSize < inputSize] the evaluations are reverse evaluations only,
    one per block of [gradDim] outputs, and the identifiers seeded with
    [GT::Real(1.0)] are exactly the outputs.  With 2 inputs and 5 outputs the
    choice is [Forward], with 5 inputs and 2 outputs it is [Reverse]. *)
Theorem computeJacobian_selects_sweep_direction
    {Jac : Type} (Jac_set : Z -> Z -> Z -> Jac -> Jac) (GReal_one GReal_zero : Z)
    (gradDim : Z) (ActiveChecks keepState : bool) (cfg : Config)
    (log : list TapeCall) (input output : list Identifier) (jac : Jac) :
  0 < gradDim ->
  GReal_one <> GReal_zero ->
  let inputSize := Z.of_nat (length input) in
  let outputSize := Z.of_nat (length output) in
  (forall inputs outputs : Z,
     (getEvaluationChoice inputs outputs = Forward <-> inputs <= outputs)
     /\ (getEvaluationChoice inputs outputs = Reverse <-> outputs < inputs))
  /\ (exists r,
        computeJacobian Jac_set GReal_one GReal_zero gradDim ActiveChecks keepState cfg
          log tt tt input inputSize output outputSize jac = Ok r
        /\ (inputSize <= outputSize ->
              sweeps r.1
              = sweeps log
                ++ replicate (seedingRounds gradDim inputSize)
                     (if keepState then CallEvaluateForwardKeepState
                      else CallEvaluateForward)
              /\ seededWith GReal_one r.1
                 = seededWith GReal_one log ++ seedable ActiveChecks input)
        /\ (outputSize < inputSize ->
              sweeps r.1
              = sweeps log
                ++ replicate (seedingRounds gradDim outputSize)
                     (if keepState then CallEvaluateKeepState else CallEvaluate)
              /\ seededWith GReal_one r.1
                 = seededWith GReal_one log ++ seedable ActiveChecks output))
  /\ getEvaluationChoice 2 5 = Forward
  /\ getEvaluationChoice 5 2 = Reverse.
Proof.
  intros Hdim Hone inputSize outputSize. split; [|split; [|done]].
  - intros inputs outputs. unfold getEvaluationChoice.
    destruct (Z.leb_spec inputs outputs); repeat split; intros; try done; lia.
  - unfold computeJacobian, getEvaluationChoice. subst inputSize outputSize.
    destruct (Z.leb_spec (Z.of_nat (length input)) (Z.of_nat (length output))) as [Hle|Hlt].
    + destruct (computeJacobian_forward_sweeps Jac_set GReal_one GReal_zero gradDim
                  ActiveChecks keepState Hdim log input output jac) as (r & Hr & Hsweeps).
      destruct (computeJacobian_forward_seeds Jac_set GReal_one GReal_zero gradDim
                  ActiveChecks keepState Hdim Hone log input output jac)
        as (r' & Hr' & Hseeds).
      rewrite Hr in Hr'. injection Hr' as <-.
      exists r. split; [exact Hr|]. split; [done|]. intros; lia.
    + destruct (computeJacobian_reverse_sweeps Jac_set GReal_one GReal_zero gradDim
                  ActiveChecks keepState Hdim (ReversalZeroesAdjoints cfg)
                  log input output jac) as (r & Hr & Hsweeps).
      destruct (computeJacobian_reverse_seeds Jac_set GReal_one GReal_zero gradDim
                  ActiveChecks keepState Hdim Hone (ReversalZeroesAdjoints cfg)
                  log input output jac) as (r' & Hr' & Hseeds).
      rewrite Hr in Hr'. injection Hr' as <-.
      exists r. split; [exact Hr|]. split; [intros; lia|done].
Qed.

(** Two inputs and five outputs: two forward evaluations, the inputs 1 and 2
    seeded.  Five inputs and two outputs, the first output passive: two
    reverse evaluations, only the output 7 seeded. *)
Lemma computeJacobian_selects_sweep_direction_witness :
  0 < 1 /\ 1 <> 0
  /\ (exists r,
        computeJacobian (Jac := list (Z * Z * Z)) (fun i j v jac => jac ++ [(i, j, v)])
          1 0 1 true true defaultConfig [] tt tt [1; 2] 2 [3; 4; 5; 6; 7] 5 [] = Ok r
        /\ sweeps r.1 = [CallEvaluateForwardKeepState; CallEvaluateForwardKeepState]
        /\ seededWith 1 r.1 = [1; 2])
  /\ (exists r,
        computeJacobian (Jac := list (Z * Z * Z)) (fun i j v jac => jac ++ [(i, j, v)])
          1 0 1 true true defaultConfig [] tt tt [1; 2; 3; 4; 5] 5 [0; 7] 2 [] = Ok r
        /\ sweeps r.1 = [CallEvaluateKeepState; CallEvaluateKeepState]
        /\ seededWith 1 r.1 = [7]).
Proof.
  split; [lia|]. split; [discriminate|]. split.
  - destruct (computeJacobian_selects_sweep_direction
                (Jac := list (Z * Z * Z)) (fun i j v jac => jac ++ [(i, j, v)])
                1 0 1 true true defaultConfig [] [1; 2] [3; 4; 5; 6; 7] []
                ltac:(lia) ltac:(discriminate))
      as (_ & (r & Hr & Hforward & _) & _).
    exists r. split; [exact Hr|]. apply Hforward. simpl. lia.
  - destruct (computeJacobian_selects_sweep_direction
                (Jac := list (Z * Z * Z)) (fun i j v jac => jac ++ [(i, j, v)])
                1 0 1 true true defaultConfig [] [1; 2; 3; 4; 5] [0; 7] []
                ltac:(lia) ltac:(discriminate))
      as (_ & (r & Hr & _ & Hreverse) & _).
    exists r. split; [exact Hr|]. apply Hreverse. simpl. lia.
Defined.
